(** * Washington air quality: collector and trend endpoint

    A shallow embedding of
    - [lambda_collect/lambda_function.py]: [fetch_rss_feed], [save_to_db],
      [lambda_handler];
    - [lambda_deliver_data/app.py]: [calculate_change] and the direction
      classification of [lambda_get_air_quality_trend];
    and the properties of the specification that concern them.

    Python [str] values are modelled by [string]; a character is a code
    point in the range 0..255.  Python [int] is [Z].  A Python [dict] with
    string keys is a [gmap string _].  Exceptions are an explicit result
    type; the database connection, the logger and the environment's
    failures are threaded through a state-and-exception monad. *)

From Stdlib Require Import String Ascii ZArith QArith List Bool Lia.
From stdpp Require Import base option gmap strings.

Open Scope string_scope.

(** ** Python string primitives *)

Module Py.

Definition code (c : ascii) : N := N_of_ascii c.

(** [str.isspace] on one character, which is also the class [\s] of
    [re] for [str] patterns: TAB..CR, FS..US, space, NEL, NBSP. *)
Definition isspace (c : ascii) : bool :=
  let n := code c in
  ((9 <=? n) && (n <=? 13) || (28 <=? n) && (n <=? 32)
   || (n =? 133) || (n =? 160))%N.

(** The class [\d] of [re] (and what [int] accepts as a digit). *)
Definition isdigit (c : ascii) : bool :=
  let n := code c in ((48 <=? n) && (n <=? 57))%N.

Fixpoint all_chars (p : ascii -> bool) (s : string) : bool :=
  match s with
  | EmptyString => true
  | String c s' => p c && all_chars p s'
  end.

Fixpoint lstrip (s : string) : string :=
  match s with
  | String c s' => if isspace c then lstrip s' else s
  | EmptyString => EmptyString
  end.

Fixpoint rstrip (s : string) : string :=
  match s with
  | String c s' =>
      match rstrip s' with
      | EmptyString => if isspace c then EmptyString else String c EmptyString
      | r => String c r
      end
  | EmptyString => EmptyString
  end.

(** [s.strip()] *)
Definition strip (s : string) : string := lstrip (rstrip s).

(** [s.split(sep)] for a one-character separator: never the empty list. *)
Fixpoint split (sep : ascii) (s : string) : list string :=
  match s with
  | EmptyString => [EmptyString]
  | String c s' =>
      if Ascii.eqb c sep then EmptyString :: split sep s'
      else match split sep s' with
           | p :: ps => String c p :: ps
           | [] => [String c EmptyString]
           end
  end.

(** [sub in s] *)
Fixpoint contains (sub s : string) : bool :=
  String.prefix sub s ||
  match s with
  | String _ s' => contains sub s'
  | EmptyString => false
  end.

Definition digit_value (c : ascii) : Z := Z.of_N (code c) - 48.

Fixpoint int_digits (acc : Z) (s : string) : Z :=
  match s with
  | EmptyString => acc
  | String c s' => int_digits (10 * acc + digit_value c) s'
  end.

(** [sys.int_info.default_max_str_digits]: the longest decimal text that
    [int] converts. *)
Definition int_max_str_digits : Z := 4300.

(** [int(s)] for the decimal texts the collector passes to it; [None]
    is [ValueError] (empty text, a character that is not a digit, or
    more characters than the limit). *)
Definition int (s : string) : option Z :=
  match s with
  | EmptyString => None
  | _ =>
      if all_chars isdigit s
         && (Z.of_nat (String.length s) <=? int_max_str_digits)%Z
      then Some (int_digits 0 s)
      else None
  end.

(** [s1[:len(s1) - len(s2)]]: the text between the start of [s1] and
    the start of its suffix [s2]. *)
Definition before (s1 s2 : string) : string :=
  String.substring 0 (String.length s1 - String.length s2) s1.

Definition lower (c : ascii) : ascii :=
  let n := code c in
  if ((65 <=? n) && (n <=? 90))%N then ascii_of_N (n + 32) else c.

End Py.

(** ** The fragment of [re] that the collector uses

    A backtracking matcher in continuation-passing style: alternatives are
    tried left to right, greedy repetition tries the longest run first and
    lazy repetition the shortest, exactly the order in which [re] explores
    them, so the first success is the match that [re] reports. *)

Module Re.

Inductive regex : Type :=
| Lit (l : string)             (* literal text *)
| LitI (l : string)            (* literal text under IGNORECASE *)
| Cls (p : ascii -> bool)      (* one character of a class *)
| Star (p : ascii -> bool)     (* [p*] *)
| Plus (p : ascii -> bool)     (* [p+] *)
| Lazy (p : ascii -> bool)     (* [p*?] *)
| Seq (r1 r2 : regex)
| Alt (r1 r2 : regex)
| Grp (r : regex)              (* capturing group *)
| Eos.                         (* [$] *)

(** Concatenation and alternation of several patterns, in order. *)
Fixpoint cat (rs : list regex) : regex :=
  match rs with
  | [] => Lit EmptyString
  | [r] => r
  | r :: rs' => Seq r (cat rs')
  end.

Fixpoint alt (rs : list regex) : regex :=
  match rs with
  | [] => Cls (fun _ => false)
  | [r] => r
  | r :: rs' => Alt r (alt rs')
  end.

(** Character classes of the patterns. *)
Definition ws : ascii -> bool := Py.isspace.                     (* \s *)
Definition digit : ascii -> bool := Py.isdigit.                  (* \d *)
Definition dot (c : ascii) : bool := negb (Ascii.eqb c "010").   (* .  *)
Definition one_of (l : string) (c : ascii) : bool :=             (* [..] *)
  Py.contains (String c EmptyString) l.
Definition none_of (l : string) (c : ascii) : bool := negb (one_of l c).
Definition range (lo hi : ascii) (c : ascii) : bool :=
  ((Py.code lo <=? Py.code c) && (Py.code c <=? Py.code hi))%N.

Fixpoint strip_prefix (eq : ascii -> ascii -> bool) (l s : string)
  : option string :=
  match l, s with
  | EmptyString, _ => Some s
  | String a l', String c s' =>
      if eq a c then strip_prefix eq l' s' else None
  | String _ _, EmptyString => None
  end.

Definition eqb_nocase (a c : ascii) : bool :=
  Ascii.eqb (Py.lower a) (Py.lower c).

Section Matcher.
Context {A : Type}.

Fixpoint star_greedy (p : ascii -> bool) (s : string)
         (k : string -> option A) : option A :=
  match s with
  | String c s' =>
      if p c then
        match star_greedy p s' k with
        | Some v => Some v
        | None => k s
        end
      else k s
  | EmptyString => k s
  end.

Fixpoint star_lazy (p : ascii -> bool) (s : string)
         (k : string -> option A) : option A :=
  match k s with
  | Some v => Some v
  | None =>
      match s with
      | String c s' => if p c then star_lazy p s' k else None
      | EmptyString => None
      end
  end.

(** [$] without MULTILINE: at the end, or before a final newline. *)
Definition at_end (s : string) : bool :=
  match s with
  | EmptyString => true
  | String c EmptyString => Ascii.eqb c "010"
  | _ => false
  end.

(** [rmatch r s gs k]: match [r] at the start of [s], with the groups
    [gs] closed so far, and continue with [k] on the rest. *)
Fixpoint rmatch (r : regex) (s : string) (gs : list string)
         (k : string -> list string -> option A) : option A :=
  match r with
  | Lit l =>
      match strip_prefix Ascii.eqb l s with
      | Some s' => k s' gs
      | None => None
      end
  | LitI l =>
      match strip_prefix eqb_nocase l s with
      | Some s' => k s' gs
      | None => None
      end
  | Cls p =>
      match s with
      | String c s' => if p c then k s' gs else None
      | EmptyString => None
      end
  | Star p => star_greedy p s (fun s' => k s' gs)
  | Plus p =>
      match s with
      | String c s' =>
          if p c then star_greedy p s' (fun s'' => k s'' gs) else None
      | EmptyString => None
      end
  | Lazy p => star_lazy p s (fun s' => k s' gs)
  | Seq r1 r2 => rmatch r1 s gs (fun s' gs' => rmatch r2 s' gs' k)
  | Alt r1 r2 =>
      match rmatch r1 s gs k with
      | Some v => Some v
      | None => rmatch r2 s gs k
      end
  | Grp r1 =>
      rmatch r1 s gs (fun s' gs' => k s' (gs' ++ [Py.before s s'])%list)
  | Eos => if at_end s then k s gs else None
  end.
End Matcher.

(** A match object: the text after the match and the groups 1, 2, ... *)
Record match_obj := { rest : string; groups : list string }.

(** [pattern.match(s)]: a match at the start of [s]. *)
Definition match_at (r : regex) (s : string) : option match_obj :=
  rmatch r s [] (fun s' gs => Some {| rest := s'; groups := gs |}).

(** [m.group(i)] for [i >= 1]. *)
Definition group (i : nat) (m : match_obj) : string :=
  nth (pred i) (groups m) EmptyString.

(** [re.search(r, s)]: the match at the leftmost position that has one. *)
Fixpoint search (r : regex) (s : string) : option match_obj :=
  match match_at r s with
  | Some m => Some m
  | None =>
      match s with
      | String _ s' => search r s'
      | EmptyString => None
      end
  end.

(** Number of characters of [s] that a match starting at [s] covers. *)
Definition span (s : string) (m : match_obj) : nat :=
  String.length s - String.length (rest m).

(** [re.findall(r, s)] for a pattern with groups: the group tuples of the
    non-overlapping matches, left to right.  [skip] counts the characters
    still covered by the previous match.  None of the collector's
    patterns matches the empty text. *)
Fixpoint findall_from (r : regex) (s : string) (skip : nat)
  : list (list string) :=
  match skip with
  | S n =>
      match s with
      | String _ s' => findall_from r s' n
      | EmptyString => []
      end
  | O =>
      match match_at r s with
      | Some m =>
          groups m ::
          match s with
          | String _ s' => findall_from r s' (pred (span s m))
          | EmptyString => []
          end
      | None =>
          match s with
          | String _ s' => findall_from r s' 0
          | EmptyString => []
          end
      end
  end.

Definition findall (r : regex) (s : string) : list (list string) :=
  findall_from r s 0.

(** [re.sub(r, '', s)]: [s] without its non-overlapping matches of [r]. *)
Fixpoint delete_from (r : regex) (s : string) (skip : nat) : string :=
  match skip with
  | S n =>
      match s with
      | String _ s' => delete_from r s' n
      | EmptyString => EmptyString
      end
  | O =>
      match s with
      | String c s' =>
          match match_at r s with
          | Some m =>
              match span s m with
              | O => String c (delete_from r s' 0)
              | S n => delete_from r s' n
              end
          | None => String c (delete_from r s' 0)
          end
      | EmptyString => EmptyString
      end
  end.

Definition sub_empty (r : regex) (s : string) : string :=
  delete_from r s 0.

(** The language of a pattern: [matches r t after gs] says that the text
    [t], followed by [after], is matched by [r] with groups [gs]. *)
Fixpoint matches (r : regex) (t after : string) (gs : list string) : Prop :=
  match r with
  | Lit l => t = l /\ gs = []
  | LitI l => strip_prefix eqb_nocase l t = Some EmptyString /\ gs = []
  | Cls p => (exists c, t = String c EmptyString /\ p c = true) /\ gs = []
  | Star p | Lazy p => Py.all_chars p t = true /\ gs = []
  | Plus p => t <> EmptyString /\ Py.all_chars p t = true /\ gs = []
  | Seq r1 r2 =>
      exists t1 t2 g1 g2,
        t = t1 ++ t2 /\ gs = (g1 ++ g2)%list /\
        matches r1 t1 (t2 ++ after) g1 /\ matches r2 t2 after g2
  | Alt r1 r2 => matches r1 t after gs \/ matches r2 t after gs
  | Grp r1 => exists g, matches r1 t after g /\ gs = (g ++ [t])%list
  | Eos => t = EmptyString /\ at_end after = true /\ gs = []
  end.

End Re.

(** ** Exceptions *)

Inductive exn : Type :=
| ValueError          (* [strptime], [int] *)
| KeyError            (* [entry[k]] on a missing key *)
| AttributeError      (* [.split] on a value that is not a [str] *)
| FetchError          (* raised by the feed library *)
| DatabaseError       (* raised by the database driver *)
| ZeroDivisionError.

Inductive result (A : Type) : Type :=
| Ok (a : A)
| Raise (e : exn).
Arguments Ok {A} a.
Arguments Raise {A} e.

Definition rbind {A B} (m : result A) (f : A -> result B) : result B :=
  match m with
  | Ok a => f a
  | Raise e => Raise e
  end.

#[global] Instance result_ret : MRet result := @Ok.
#[global] Instance result_bind : MBind result := fun A B f m => rbind m f.
#[global] Instance result_fmap : FMap result :=
  fun A B f m => rbind m (fun a => Ok (f a)).

(** Whether a computation returned, rather than raised. *)
Definition returns {A} (r : result A) : bool :=
  match r with
  | Ok _ => true
  | Raise _ => false
  end.

(** [None] of a library model read as the exception [e]. *)
Definition or_raise {A} (e : exn) (o : option A) : result A :=
  match o with
  | Some a => Ok a
  | None => Raise e
  end.

(** ** Dates and values *)

(** A naive [datetime]: no time zone is kept. *)
Record datetime : Type := Datetime {
  year : Z; month : Z; day : Z; hour : Z; minute : Z; second : Z
}.

(** The Python values that flow through the collector. *)
Inductive value : Type :=
| VNone
| VStr (s : string)
| VInt (n : Z)
| VDatetime (d : datetime).

#[global] Instance datetime_eq_dec : EqDecision datetime.
Proof. solve_decision. Defined.

#[global] Instance value_eq_dec : EqDecision value.
Proof. solve_decision. Defined.

(** ** [datetime.strptime]

    The library function is an external of the collector; this is the
    model used wherever a concrete run is evaluated.  It follows the
    library's own algorithm: the format is turned into a regular
    expression, one group per directive, which must match the whole text
    (ignoring case); the groups are then converted and the date checked. *)

Module Strptime.
Import Re.

Inductive directive : Type :=
| D_a | D_b | D_d | D_H | D_I | D_m | D_M | D_p | D_S | D_y | D_Y.

Inductive item : Type :=
| Dir (d : directive)
| Spaces                       (* a run of white space: [\s+] *)
| Chr (c : ascii).

Definition directive_of (c : ascii) : option directive :=
  if Ascii.eqb c "a" then Some D_a else
  if Ascii.eqb c "b" then Some D_b else
  if Ascii.eqb c "d" then Some D_d else
  if Ascii.eqb c "H" then Some D_H else
  if Ascii.eqb c "I" then Some D_I else
  if Ascii.eqb c "m" then Some D_m else
  if Ascii.eqb c "M" then Some D_M else
  if Ascii.eqb c "p" then Some D_p else
  if Ascii.eqb c "S" then Some D_S else
  if Ascii.eqb c "y" then Some D_y else
  if Ascii.eqb c "Y" then Some D_Y else None.

(** [None]: a directive this model does not know. *)
Fixpoint parse_format (fmt : string) : option (list item) :=
  match fmt with
  | EmptyString => Some []
  | String c fmt' =>
      if Ascii.eqb c "%" then
        match fmt' with
        | String d fmt'' =>
            match directive_of d, parse_format fmt'' with
            | Some dir, Some items => Some (Dir dir :: items)
            | _, _ => None
            end
        | EmptyString => None
        end
      else
        match parse_format fmt' with
        | Some items =>
            if Py.isspace c then
              match items with
              | Spaces :: _ => Some items
              | _ => Some (Spaces :: items)
              end
            else Some (Chr c :: items)
        | None => None
        end
  end.

Definition weekdays : list string :=
  ["mon"; "tue"; "wed"; "thu"; "fri"; "sat"; "sun"].
Definition months : list string :=
  ["jan"; "feb"; "mar"; "apr"; "may"; "jun";
   "jul"; "aug"; "sep"; "oct"; "nov"; "dec"].

Definition r09 := Cls digit.
Definition r19 := Cls (range "1" "9").

Definition directive_re (d : directive) : regex :=
  match d with
  | D_a => alt (map LitI weekdays)
  | D_b => alt (map LitI months)
  | D_d => alt [Seq (Lit "3") (Cls (range "0" "1"));
                Seq (Cls (range "1" "2")) r09;
                Seq (Lit "0") r19; r19; Seq (Lit " ") r19]
  | D_H => alt [Seq (Lit "2") (Cls (range "0" "3"));
                Seq (Cls (range "0" "1")) r09; r09]
  | D_I | D_m => alt [Seq (Lit "1") (Cls (range "0" "2"));
                      Seq (Lit "0") r19; r19]
  | D_M => alt [Seq (Cls (range "0" "5")) r09; r09]
  | D_p => alt [LitI "am"; LitI "pm"]
  | D_S => alt [Seq (Lit "6") (Cls (range "0" "1"));
                Seq (Cls (range "0" "5")) r09; r09]
  | D_y => Seq r09 r09
  | D_Y => cat [r09; r09; r09; r09]
  end.

Definition item_re (i : item) : regex :=
  match i with
  | Dir d => Grp (directive_re d)
  | Spaces => Plus ws
  | Chr c => LitI (String c EmptyString)
  end.

Fixpoint directives (items : list item) : list directive :=
  match items with
  | Dir d :: items' => d :: directives items'
  | _ :: items' => directives items'
  | [] => []
  end.

(** The fields found in the text, before they are combined. *)
Record found : Type := Found {
  f_year : Z; f_month : Z; f_day : Z;
  f_hour : Z; f_minute : Z; f_second : Z;
  f_hour12 : bool;              (* the hour came from [%I] *)
  f_pm : option bool            (* [%p]: [Some true] is PM *)
}.

Definition found0 : found := Found 1900 1 1 0 0 0 false None.

Definition lower_str (s : string) : string :=
  string_of_list_ascii (map Py.lower (list_ascii_of_string s)).

Fixpoint index_of (x : string) (l : list string) (i : Z) : Z :=
  match l with
  | [] => i
  | y :: l' => if String.eqb x y then i else index_of x l' (i + 1)
  end.

Definition num (s : string) : Z := Py.int_digits 0 (Py.lstrip s).

Definition convert (d : directive) (text : string) (f : found) : found :=
  match d with
  | D_a => f
  | D_b => Found (f_year f) (index_of (lower_str text) months 1) (f_day f)
             (f_hour f) (f_minute f) (f_second f) (f_hour12 f) (f_pm f)
  | D_d => Found (f_year f) (f_month f) (num text)
             (f_hour f) (f_minute f) (f_second f) (f_hour12 f) (f_pm f)
  | D_H => Found (f_year f) (f_month f) (f_day f)
             (num text) (f_minute f) (f_second f) false (f_pm f)
  | D_I => Found (f_year f) (f_month f) (f_day f)
             (num text) (f_minute f) (f_second f) true (f_pm f)
  | D_m => Found (f_year f) (num text) (f_day f)
             (f_hour f) (f_minute f) (f_second f) (f_hour12 f) (f_pm f)
  | D_M => Found (f_year f) (f_month f) (f_day f)
             (f_hour f) (num text) (f_second f) (f_hour12 f) (f_pm f)
  | D_p => Found (f_year f) (f_month f) (f_day f)
             (f_hour f) (f_minute f) (f_second f) (f_hour12 f)
             (Some (String.eqb (lower_str text) "pm"))
  | D_S => Found (f_year f) (f_month f) (f_day f)
             (f_hour f) (f_minute f) (num text) (f_hour12 f) (f_pm f)
  | D_y => let y := num text in
           Found (if (y <=? 68)%Z then y + 2000 else y + 1900)%Z
             (f_month f) (f_day f)
             (f_hour f) (f_minute f) (f_second f) (f_hour12 f) (f_pm f)
  | D_Y => Found (num text) (f_month f) (f_day f)
             (f_hour f) (f_minute f) (f_second f) (f_hour12 f) (f_pm f)
  end.

Fixpoint convert_all (ds : list directive) (gs : list string) (f : found)
  : found :=
  match ds, gs with
  | d :: ds', g :: gs' => convert_all ds' gs' (convert d g f)
  | _, _ => f
  end.

Definition hour24 (f : found) : Z :=
  if f_hour12 f then
    match f_pm f with
    | Some true => if (f_hour f =? 12)%Z then 12 else (f_hour f + 12)%Z
    | _ => if (f_hour f =? 12)%Z then 0%Z else f_hour f
    end
  else f_hour f.

Definition is_leap (y : Z) : bool :=
  ((y mod 4 =? 0) && (negb (y mod 100 =? 0) || (y mod 400 =? 0)))%Z.

Definition days_in_month (y m : Z) : Z :=
  if (m =? 2)%Z then (if is_leap y then 29 else 28)%Z
  else if ((m =? 4) || (m =? 6) || (m =? 9) || (m =? 11))%Z then 30%Z
  else 31%Z.

(** The checks of the [datetime] constructor. *)
Definition build (f : found) : option datetime :=
  if ((1 <=? f_year f) && (f_year f <=? 9999)
      && (1 <=? f_month f) && (f_month f <=? 12)
      && (1 <=? f_day f) && (f_day f <=? days_in_month (f_year f) (f_month f))
      && (f_second f <=? 59))%Z
  then Some (Datetime (f_year f) (f_month f) (f_day f)
                      (hour24 f) (f_minute f) (f_second f))
  else None.

(** [datetime.strptime(text, fmt)]; [None] is [ValueError]. *)
Definition strptime (text fmt : string) : option datetime :=
  match parse_format fmt with
  | None => None
  | Some items =>
      match match_at (cat (map item_re items)) text with
      | Some m =>
          match rest m with
          | EmptyString =>
              build (convert_all (directives items) (groups m) found0)
          | _ => None
          end
      | None => None
      end
  end.

End Strptime.

(** ** The collector: [lambda_collect/lambda_function.py] *)

Abbreviation dict := (gmap string value).

(** An entry of a parsed feed.  [e_summary_detail] is [None] when the
    entry has no ['summary_detail'] key; [sd_value] is [None] when that
    detail has no ['value'] key. *)
Record SummaryDetail : Type := { sd_value : option string }.

Record Entry : Type := {
  e_title : option string;
  e_link : option string;
  e_summary : option string;
  e_summary_detail : option SummaryDetail
}.

(** What the collector takes from outside its own code: the feed library,
    [datetime.strptime], and the declaration of the unique index of table
    [air_quality] (the table's DDL is not part of the repository):
    [nulls_distinct] says whether the index on (location, report_date)
    treats two NULLs as different, as a default PostgreSQL index does. *)
Class Externals : Type := {
  feedparser_parse : string -> result (list Entry);
  strptime : string -> string -> option datetime;
  nulls_distinct : bool
}.

Module Collect.
Import Re.

(** *** The patterns of [fetch_rss_feed] (lines 38-43, 52, 58) *)

(** [<div><b>Location:</b>\s*(.*?)</div>] *)
Definition location_re : regex :=
  cat [Lit "<div><b>Location:</b>"; Star ws; Grp (Lazy dot); Lit "</div>"].

(** [<b>Current Air Quality:</b>\s*(.*?)<br] *)
Definition date_re : regex :=
  cat [Lit "<b>Current Air Quality:</b>"; Star ws; Grp (Lazy dot);
       Lit "<br"].

(** [(Good|Moderate|Unhealthy for Sensitive Groups|Unhealthy|Very Unhealthy|Hazardous)\s*-\s*(\d+)\s*AQI\s*-\s*([^<]+)] *)
Definition air_quality_re : regex :=
  cat [Grp (alt [Lit "Good"; Lit "Moderate";
                 Lit "Unhealthy for Sensitive Groups"; Lit "Unhealthy";
                 Lit "Very Unhealthy"; Lit "Hazardous"]);
       Star ws; Lit "-"; Star ws; Grp (Plus digit); Star ws; Lit "AQI";
       Star ws; Lit "-"; Star ws; Grp (Plus (none_of "<"))].

(** [<div><b>Agency:</b>\s*(.*?)</div>] *)
Definition agency_re : regex :=
  cat [Lit "<div><b>Agency:</b>"; Star ws; Grp (Lazy dot); Lit "</div>"].

(** [<div><i>Last Update: (.*?)</i></div>] *)
Definition last_update_re : regex :=
  cat [Lit "<div><i>Last Update: "; Grp (Lazy dot); Lit "</i></div>"].

(** [Current Air Quality unavailable for\s*(.*?)<br] *)
Definition unavailable_re : regex :=
  cat [Lit "Current Air Quality unavailable for"; Star ws; Grp (Lazy dot);
       Lit "<br"].

(** [ [Pp][Dd][Tt]| [Pp][Ss][Tt]$] *)
Definition zone_re : regex :=
  alt [cat [Lit " "; Cls (one_of "Pp"); Cls (one_of "Dd");
            Cls (one_of "Tt")];
       cat [Lit " "; Cls (one_of "Pp"); Cls (one_of "Ss");
            Cls (one_of "Tt"); Eos]].

Definition report_date_format : string := "%m/%d/%y %I:%M %p".
Definition last_update_format : string := "%a, %d %b %Y %H:%M:%S".

(** *** [fetch_rss_feed] *)

Definition of_datetime (d : option datetime) : value :=
  match d with Some d => VDatetime d | None => VNone end.

Definition of_int (n : option Z) : value :=
  match n with Some n => VInt n | None => VNone end.

(** The dict literal [entry_data] (lines 71-81). *)
Definition entry_data (title link location : string)
           (report_date : option datetime)
           (air_quality_pm25 air_quality_pm10 air_quality_ozone : option Z)
           (agency : string) (last_update : option datetime) : dict :=
  list_to_map
    [("title", VStr title);
     ("link", VStr link);
     ("location", VStr location);
     ("report_date", of_datetime report_date);
     ("air_quality_pm25", of_int air_quality_pm25);
     ("air_quality_pm10", of_int air_quality_pm10);
     ("air_quality_ozone", of_int air_quality_ozone);
     ("agency", VStr agency);
     ("last_update", of_datetime last_update)].

(** The three pollutant variables of the loop body. *)
Record readings : Type := Readings {
  pm25 : option Z; pm10 : option Z; ozone : option Z
}.

Definition no_readings : readings := Readings None None None.

(** One iteration of [for match in air_quality_matches] (lines 62-69);
    [m] is the tuple of the three groups. *)
Definition read_match (m : list string) (r : readings) : result readings :=
  let aqi := nth 1 m EmptyString in
  let pollutant := nth 2 m EmptyString in
  aqi ← or_raise ValueError (Py.int aqi);
  if Py.contains "2.5 microns" pollutant then
    Ok (Readings (Some aqi) (pm10 r) (ozone r))
  else if Py.contains "10 microns" pollutant then
    Ok (Readings (pm25 r) (Some aqi) (ozone r))
  else if Py.contains "Ozone" pollutant then
    Ok (Readings (pm25 r) (pm10 r) (Some aqi))
  else Ok r.

Fixpoint read_matches (ms : list (list string)) (r : readings)
  : result readings :=
  match ms with
  | [] => Ok r
  | m :: ms' => r' ← read_match m r; read_matches ms' r'
  end.

Section WithExternals.
Context `{Externals}.

(** [re.sub(zone, '', text.strip())] then [strptime] (lines 51-53 and
    57-59). *)
Definition parse_date (text fmt : string) : result datetime :=
  let date_str := Py.strip text in
  let date_str := sub_empty zone_re date_str in
  or_raise ValueError (strptime date_str fmt).

(** The body of [for entry in feed.entries] (lines 22-82): the dict
    appended to [data], or the exception that leaves the loop. *)
Definition process_entry (entry : Entry) : result dict :=
  let title := default "No title" (e_title entry) in
  let link := default "No link" (e_link entry) in
  match e_summary_detail entry with
  | None =>
      Ok (entry_data title link "No location" None None None None
                     "No agency" None)
  | Some detail =>
      let summary_html := default EmptyString (sd_value detail) in
      let location_match := search location_re summary_html in
      let date_match := search date_re summary_html in
      let air_quality_matches := findall air_quality_re summary_html in
      let agency_match := search agency_re summary_html in
      let last_update_match := search last_update_re summary_html in
      let unavailable_match := search unavailable_re summary_html in
      match unavailable_match with
      | Some m =>
          Ok (entry_data title link (group 1 m) None None None None
                         "No agency" None)
      | None =>
          let location :=
            match location_match with
            | Some m => Py.strip (group 1 m)
            | None => "No location"
            end in
          report_date ←
            match date_match with
            | Some m => Some <$> parse_date (group 1 m) report_date_format
            | None => Ok None
            end;
          let agency :=
            match agency_match with
            | Some m => Py.strip (group 1 m)
            | None => "No agency"
            end in
          last_update ←
            match last_update_match with
            | Some m =>
                Some <$> parse_date (group 1 m) last_update_format
            | None => Ok None
            end;
          r ← read_matches air_quality_matches no_readings;
          Ok (entry_data title link location report_date
                         (pm25 r) (pm10 r) (ozone r) agency last_update)
      end
  end.

Fixpoint process_entries (entries : list Entry) : result (list dict) :=
  match entries with
  | [] => Ok []
  | entry :: entries' =>
      d ← process_entry entry;
      ds ← process_entries entries';
      Ok (d :: ds)
  end.

Definition fetch_rss_feed (url : string) : result (list dict) :=
  feed ← feedparser_parse url;
  process_entries feed.

(** *** Table [air_quality], the connection and the logger *)

(** A row of [air_quality], one field per column of the INSERT. *)
Record Row : Type := {
  title : value;
  link : value;
  location : value;
  report_date : value;
  air_quality_pm25 : value;
  air_quality_pm10 : value;
  air_quality_ozone : value;
  agency : value;
  last_update : value
}.

#[global] Instance Row_eq_dec : EqDecision Row.
Proof. solve_decision. Defined.

(** Equality of two column values as a unique index sees it. *)
Definition index_eq (a b : value) : bool :=
  match a, b with
  | VNone, VNone => negb nulls_distinct
  | VNone, _ | _, VNone => false
  | _, _ => bool_decide (a = b)
  end.

(** [ON CONFLICT (location, report_date)]: [r] and [r'] collide on the
    unique index. *)
Definition conflict (r r' : Row) : bool :=
  index_eq (location r) (location r')
  && index_eq (report_date r) (report_date r').

(** [INSERT ... ON CONFLICT (location, report_date) DO NOTHING]. *)
Definition insert_do_nothing (r : Row) (rows : list Row) : list Row :=
  if existsb (conflict r) rows then rows else (rows ++ [r])%list.

Inductive log_record : Type :=
| Info_processing_url (url : string)
| Error_failed_to_insert (entry : dict) (e : exn)
| Error_occurred (e : exn).

(** The state the collector acts on: the committed rows of the table,
    the rows as the connection's open transaction sees them, the log,
    and the environment's script: one flag per call of the database
    driver, [true] when that call raises (no flag left: it succeeds). *)
Record World : Type := {
  table : list Row;
  txn : list Row;
  log : list log_record;
  faults : list bool
}.

Definition M (A : Type) : Type := World -> result A * World.

Definition m_ret {A} (a : A) : M A := fun w => (Ok a, w).

Definition m_bind {A B} (m : M A) (f : A -> M B) : M B :=
  fun w =>
    match m w with
    | (Ok a, w') => f a w'
    | (Raise e, w') => (Raise e, w')
    end.

(** [try: m except Exception as e: h e] *)
Definition try_except {A} (m : M A) (h : exn -> M A) : M A :=
  fun w =>
    match m w with
    | (Ok a, w') => (Ok a, w')
    | (Raise e, w') => h e w'
    end.

Definition lift {A} (r : result A) : M A := fun w => (r, w).

(** A call of the database driver: it raises when the environment says
    so, and has its effect otherwise. *)
Definition db_call (effect : World -> World) : M unit :=
  fun w =>
    match faults w with
    | true :: fs =>
        (Raise DatabaseError,
         {| table := table w; txn := txn w; log := log w; faults := fs |})
    | false :: fs =>
        (Ok (),
         effect
           {| table := table w; txn := txn w; log := log w;
              faults := fs |})
    | [] => (Ok (), effect w)
    end.

Definition cur_execute_insert (r : Row) : M unit :=
  db_call (fun w =>
    {| table := table w; txn := insert_do_nothing r (txn w);
       log := log w; faults := faults w |}).

Definition conn_commit : M unit :=
  db_call (fun w =>
    {| table := txn w; txn := txn w; log := log w;
       faults := faults w |}).

Definition conn_rollback : M unit :=
  db_call (fun w =>
    {| table := table w; txn := table w; log := log w;
       faults := faults w |}).

Definition conn_close : M unit := db_call (fun w => w).

Definition add_log (r : log_record) (w : World) : World :=
  {| table := table w; txn := txn w; log := (log w ++ [r])%list;
     faults := faults w |}.

(** [logger.info], [logger.error] *)
Definition logger (r : log_record) : M unit :=
  fun w => (Ok (), add_log r w).

(** *** [save_to_db] *)

(** [entry[k]] *)
Definition getitem (entry : dict) (k : string) : result value :=
  or_raise KeyError (entry !! k).

(** [entry['location'].split(',')[0].strip()] *)
Definition location_key (v : value) : result value :=
  match v with
  | VStr s => Ok (VStr (Py.strip (hd EmptyString (Py.split "," s))))
  | _ => Raise AttributeError
  end.

(** The parameter tuple of the INSERT (lines 132-142). *)
Definition insert_params (entry : dict) : result Row :=
  v_title ← getitem entry "title";
  v_link ← getitem entry "link";
  v_location ← getitem entry "location";
  v_key ← location_key v_location;
  v_report_date ← getitem entry "report_date";
  v_pm25 ← getitem entry "air_quality_pm25";
  v_pm10 ← getitem entry "air_quality_pm10";
  v_ozone ← getitem entry "air_quality_ozone";
  v_agency ← getitem entry "agency";
  v_last_update ← getitem entry "last_update";
  Ok {| title := v_title; link := v_link; location := v_key;
        report_date := v_report_date; air_quality_pm25 := v_pm25;
        air_quality_pm10 := v_pm10; air_quality_ozone := v_ozone;
        agency := v_agency; last_update := v_last_update |}.

(** The [try] block (lines 119-144): [cur.execute(...)] on the
    parameter tuple, then [conn.commit()]. *)
Definition try_insert (entry : dict) : M unit :=
  m_bind (lift (insert_params entry)) (fun r =>
  m_bind (cur_execute_insert r) (fun _ =>
  conn_commit)).

(** The [except] block (lines 146-147). *)
Definition except_insert (entry : dict) (e : exn) : M unit :=
  m_bind (logger (Error_failed_to_insert entry e)) (fun _ =>
  conn_rollback).

(** The body of [for entry in data] (lines 118-147). *)
Definition save_entry (entry : dict) : M unit :=
  try_except (try_insert entry) (except_insert entry).

Fixpoint save_to_db (data : list dict) : M unit :=
  match data with
  | [] => m_ret ()
  | entry :: data' => m_bind (save_entry entry) (fun _ => save_to_db data')
  end.

(** *** [lambda_handler] *)

(** The body of [for url in urls] (lines 158-160). *)
Definition process_url (url : string) : M unit :=
  m_bind (logger (Info_processing_url url)) (fun _ =>
  m_bind (lift (fetch_rss_feed url)) (fun data =>
  save_to_db data)).

Fixpoint process_urls (urls : list string) : M unit :=
  match urls with
  | [] => m_ret ()
  | url :: urls' => m_bind (process_url url) (fun _ => process_urls urls')
  end.

(** [lambda_handler], once the URL list is read and the connection is
    open; the result is the [statusCode] of the response. *)
Definition lambda_handler (urls : list string) : World -> Z * World :=
  fun w =>
    match
      try_except
        (m_bind (process_urls urls) (fun _ =>
         m_bind conn_close (fun _ =>
         m_ret 200%Z)))
        (fun e =>
         m_bind (logger (Error_occurred e)) (fun _ =>
         m_ret 500%Z)) w
    with
    | (Ok status, w') => (status, w')
    | (Raise _, w') => (500%Z, w')
    end.

End WithExternals.

(** *** Vocabulary of the specification *)

Inductive pollutant : Type := PM25 | PM10 | Ozone.

#[global] Instance pollutant_eq_dec : EqDecision pollutant.
Proof. solve_decision. Defined.

(** The pollutant a description stands for: "2.5 microns", else
    "10 microns", else "Ozone"; no pollutant otherwise. *)
Definition classify (description : string) : option pollutant :=
  if Py.contains "2.5 microns" description then Some PM25
  else if Py.contains "10 microns" description then Some PM10
  else if Py.contains "Ozone" description then Some Ozone
  else None.



(** The tuple of a match carries a decimal text. *)
Definition has_int (m : list string) : Prop :=
  is_Some (Py.int (nth 1 m EmptyString)).

(** The AQI text of the tuple is not longer than [int] accepts. *)
Definition within_limit (m : list string) : Prop :=
  (Z.of_nat (String.length (nth 1 m EmptyString))
   <= Py.int_max_str_digits)%Z.

(** Assignment to the variable of a pollutant, and its value. *)
Definition store (k : option pollutant) (v : Z) (r : readings) : readings :=
  match k with
  | Some PM25 => Readings (Some v) (pm10 r) (ozone r)
  | Some PM10 => Readings (pm25 r) (Some v) (ozone r)
  | Some Ozone => Readings (pm25 r) (pm10 r) (Some v)
  | None => r
  end.

Definition reading (k : pollutant) (r : readings) : option Z :=
  match k with PM25 => pm25 r | PM10 => pm10 r | Ozone => ozone r end.

Definition not_comma (c : ascii) : bool := negb (Ascii.eqb c ",").

(** [key] is the text of [loc] before its first comma, without the white
    space around it. *)
Definition is_location_key (loc key : string) : Prop :=
  exists pre post l r,
    loc = pre ++ post /\
    (post = EmptyString \/ exists p, post = "," ++ p) /\
    Py.all_chars not_comma pre = true /\
    pre = l ++ key ++ r /\
    Py.all_chars Py.isspace l = true /\
    Py.all_chars Py.isspace r = true /\
    (forall c t, key = String c t -> Py.isspace c = false) /\
    (forall t c, key = t ++ String c EmptyString -> Py.isspace c = false).

(** The unique index holds on [rows]: no two rows collide. *)
Fixpoint index_holds `{Externals} (rows : list Row) : Prop :=
  match rows with
  | [] => True
  | r :: rows' =>
      (forall r', In r' rows' -> conflict r r' = false) /\ index_holds rows'
  end.

(** Number of stored rows that collide with [r]. *)
Definition count_key `{Externals} (r : Row) (rows : list Row) : nat :=
  length (List.filter (conflict r) rows).

End Collect.

(** ** The trend endpoint: [lambda_deliver_data/app.py] *)

(** Python's [float] and the four operations [calculate_change] and the
    classification apply to it.  The claims below depend on their results
    only through [lt_zero] and [gt_zero], so the arithmetic is left to the
    instance. *)
Class Floats : Type := {
  float : Type;
  truediv : Z -> Z -> float;         (* [a / b] on two ints, [b] not 0 *)
  fmul : float -> Z -> float;        (* [x * n] *)
  fround : float -> Z -> float;      (* [round(x, ndigits)] *)
  lt_zero : float -> bool;           (* [x < 0] *)
  gt_zero : float -> bool            (* [x > 0] *)
}.

(** Exact rational arithmetic, rounding half to even: the instance used to
    evaluate concrete runs. *)
Module ExactFloats.

Definition round_half_even (q : Q) : Z :=
  let n := Qnum q in
  let d := Zpos (Qden q) in
  let fl := (n / d)%Z in
  match (2 * (n mod d) ?= d)%Z with
  | Lt => fl
  | Gt => (fl + 1)%Z
  | Eq => if Z.even fl then fl else (fl + 1)%Z
  end.

Definition round_to (q : Q) (ndigits : Z) : Q :=
  let p := (10 ^ ndigits)%Z in
  Qmake (round_half_even (q * inject_Z p)) (Z.to_pos p).

#[local] Instance exact : Floats := {|
  float := Q;
  truediv a b := Qdiv (inject_Z a) (inject_Z b);
  fmul x n := Qmult x (inject_Z n);
  fround := round_to;
  lt_zero x := (Qnum x <? 0)%Z;
  gt_zero x := (0 <? Qnum x)%Z
|}.

End ExactFloats.

Module Deliver.

Section WithFloats.
Context `{Floats}.

(** The values of the dict [trend_data]. *)
Inductive tvalue : Type :=
| TNone
| TStr (s : string)
| TFloat (x : float).

(** The columns of the row that the trend query returns that the code
    reads: the readings at the earliest and at the latest report of
    the window, NULL as [None]. *)
Record trend_row : Type := {
  start_pm25 : option Z; end_pm25 : option Z;
  start_pm10 : option Z; end_pm10 : option Z;
  start_ozone : option Z; end_ozone : option Z
}.

(** [a / b] on ints. *)
Definition py_truediv (a b : Z) : result float :=
  if (b =? 0)%Z then Raise ZeroDivisionError else Ok (truediv a b).

(** Truth value of an int-or-None: [None] and [0] are false. *)
Definition truthy (v : option Z) : bool :=
  match v with
  | Some n => negb (n =? 0)%Z
  | None => false
  end.

(** [calculate_change] (lines 184-187). *)
Definition calculate_change (start end_ : option Z)
  : result (option float) :=
  if truthy start && truthy end_ then
    match start, end_ with
    | Some s, Some e =>
        q ← py_truediv (e - s) s;
        Ok (Some (fround (fmul q 100) 2))
    | _, _ => Ok None
    end
  else Ok None.

Definition of_change (c : option float) : tvalue :=
  match c with Some x => TFloat x | None => TNone end.

(** The dict literal [trend_data] (lines 189-195), in insertion order:
    [values()] iterates in that order. *)
Definition trend_data (location timeframe : string)
           (pm25_change pm10_change ozone_change : option float)
  : list (string * tvalue) :=
  [("location", TStr location);
   ("timeframe", TStr timeframe);
   ("pm25_change", of_change pm25_change);
   ("pm10_change", of_change pm10_change);
   ("ozone_change", of_change ozone_change)].

Definition values (d : list (string * tvalue)) : list tvalue := map snd d.

(** [isinstance(change, float)] *)
Definition isinstance_float (v : tvalue) : bool :=
  match v with TFloat _ => true | _ => false end.

(** [change is not None and change < 0] *)
Definition is_negative (v : tvalue) : bool :=
  match v with
  | TNone => false
  | TFloat x => lt_zero x
  | TStr _ => false
  end.

(** [change is not None and change > 0] *)
Definition is_positive (v : tvalue) : bool :=
  match v with
  | TNone => false
  | TFloat x => gt_zero x
  | TStr _ => false
  end.

(** The conditional expression of lines 198-202. *)
Definition trend_direction (d : list (string * tvalue)) : string :=
  if forallb is_negative (List.filter isinstance_float (values d))
  then "improving"
  else if forallb is_positive (List.filter isinstance_float (values d))
  then "worsening"
  else "mixed".

(** The changes that are not [None]. *)
Definition present (cs : list (option float)) : list float :=
  omap id cs.

(** The response of [lambda_get_air_quality_trend]: [row] is what
    [fetchone] returned. *)
Inductive response : Type :=
| Status_200 (body : list (string * tvalue))
| Status_400
| Status_404
| Status_500.

Definition trend_response (location timeframe : string)
           (row : option trend_row) : result response :=
  match row with
  | Some result =>
      pm25_change ←
        calculate_change (start_pm25 result) (end_pm25 result);
      pm10_change ←
        calculate_change (start_pm10 result) (end_pm10 result);
      ozone_change ←
        calculate_change (start_ozone result) (end_ozone result);
      let d :=
        trend_data location timeframe pm25_change pm10_change
                   ozone_change in
      Ok (Status_200
            (d ++ [("trend_direction", TStr (trend_direction d))])%list)
  | None => Ok Status_404
  end.

Definition lambda_get_air_quality_trend (location timeframe : string)
           (row : option trend_row) : response :=
  if negb (String.eqb timeframe "week" || String.eqb timeframe "month")
  then Status_400
  else
    match trend_response location timeframe row with
    | Ok r => r
    | Raise _ => Status_500
    end.

End WithFloats.
End Deliver.

(** ** Sample feeds

    Concrete feeds, externals and rows on which the definitions above are
    evaluated. *)

Module Sample.
Import Collect.

Definition entry_of (html : string) : Entry :=
  {| e_title := Some "Air Quality";
     e_link := Some "https://example.org/aq";
     e_summary := Some "summary";
     e_summary_detail := Some {| sd_value := Some html |} |}.

Definition bare_entry : Entry :=
  {| e_title := None; e_link := None; e_summary := Some "summary";
     e_summary_detail := None |}.

Definition unavailable_html : string :=
  "Current Air Quality unavailable for Springfield<br".

Definition ozone_html : string :=
  "Moderate - 45 AQI - Ozone<br />Good - 30 AQI - Ozone".

Definition seattle_html : string :=
  "<div><b>Location:</b> Seattle, WA</div>"
  ++ "<b>Current Air Quality:</b> 07/04/24 3:00 PM PDT<br />"
  ++ "Good - 30 AQI - Ozone<br />"
  ++ "Moderate - 55 AQI - Particle Pollution (2.5 microns)<br />"
  ++ "<div><b>Agency:</b> Washington Department of Ecology</div>"
  ++ "<div><i>Last Update: Thu, 04 Jul 2024 15:15:09 PDT</i></div>".

Definition spokane_html : string :=
  "<div><b>Location:</b> Spokane, WA</div>"
  ++ "<b>Current Air Quality:</b> 07/04/24 4:00 PM PDT<br />"
  ++ "Good - 20 AQI - Particle Pollution (10 microns)<br />".

(** An AQI text of 4301 digits, one more than [int] accepts, and a
    summary that reports it. *)
Definition long_aqi : string := string_of_list_ascii (repeat "1"%char 4301).

Definition long_html : string := "Good - " ++ long_aqi ++ " AQI - Ozone".

(** A summary whose date text is not a date. *)
Definition tacoma_html : string :=
  "<div><b>Location:</b> Tacoma, WA</div>"
  ++ "<b>Current Air Quality:</b> pending<br />"
  ++ "Moderate - 60 AQI - Ozone<br />".

Definition seattle_url : string := "https://feeds.example/seattle".
Definition tacoma_url : string := "https://feeds.example/tacoma".
Definition region_url : string := "https://feeds.example/region".

Definition feeds (url : string) : result (list Entry) :=
  if String.eqb url seattle_url
  then Ok [entry_of seattle_html]
  else if String.eqb url tacoma_url
  then Ok [entry_of tacoma_html]
  else if String.eqb url region_url
  then Ok [entry_of seattle_html; entry_of tacoma_html;
           entry_of spokane_html]
  else Ok [].

(** The model of [strptime] above and a default PostgreSQL index. *)
Definition externals : Externals :=
  {| feedparser_parse := feeds;
     strptime := Strptime.strptime;
     nulls_distinct := true |}.

(** The same with an index declared NULLS NOT DISTINCT. *)
Definition externals_nulls_equal : Externals :=
  {| feedparser_parse := feeds;
     strptime := Strptime.strptime;
     nulls_distinct := false |}.

(** An empty table, idle connection, no failure to come. *)
Definition world0 : World :=
  {| table := []; txn := []; log := []; faults := [] |}.

Definition row (loc : string) (date : value) (ozone : Z) : Row :=
  {| title := VStr "Air Quality"; link := VStr "https://example.org/aq";
     location := VStr loc; report_date := date;
     air_quality_pm25 := VNone; air_quality_pm10 := VNone;
     air_quality_ozone := VInt ozone;
     agency := VStr "No agency"; last_update := VNone |}.

Definition noon : value := VDatetime (Datetime 2024 7 4 12 0 0).

(** Three candidate records of one batch. *)
Definition candidate (loc : string) (hour_ : Z) : dict :=
  entry_data "Air Quality" "https://example.org/aq" loc
             (Some (Datetime 2024 7 4 hour_ 0 0)) None None (Some 30%Z)
             "No agency" None.

Definition olympia : dict := candidate "Olympia, WA" 9.
Definition yakima : dict := candidate "Yakima, WA" 10.
Definition everett : dict := candidate "Everett, WA" 11.

(** A connection on which the third call of the driver raises: the
    [execute] of the second record of a batch. *)
Definition world_third_call_fails : World :=
  {| table := []; txn := []; log := [];
     faults := [false; false; true] |}.

(** A connection that is lost when the second record of a batch is
    executed: the [execute] raises, and so does the [rollback]. *)
Definition world_connection_lost : World :=
  {| table := []; txn := []; log := [];
     faults := [false; false; true; true] |}.

(** The record that the extraction returns for the unavailability
    notice of Springfield. *)
Definition notice : dict :=
  entry_data "Air Quality" "https://example.org/aq" "Springfield"
             None None None None "No agency" None.

(** The match of a pattern that is known to match. *)
Definition the_match (r : Re.regex) (html : string) : Re.match_obj :=
  match Re.search r html with
  | Some m => m
  | None => {| Re.rest := EmptyString; Re.groups := [] |}
  end.

(** A trend row: PM2.5 from 40 to 50, PM10 from 20 to 30, no ozone. *)
Definition rising_row : Deliver.trend_row :=
  {| Deliver.start_pm25 := Some 40%Z; Deliver.end_pm25 := Some 50%Z;
     Deliver.start_pm10 := Some 20%Z; Deliver.end_pm10 := Some 30%Z;
     Deliver.start_ozone := None; Deliver.end_ozone := None |}.

(** A trend row of a window without any reading. *)
Definition empty_row : Deliver.trend_row :=
  {| Deliver.start_pm25 := None; Deliver.end_pm25 := None;
     Deliver.start_pm10 := None; Deliver.end_pm10 := None;
     Deliver.start_ozone := None; Deliver.end_ozone := None |}.

End Sample.

(** ** Further vocabulary for the collector *)

Module CollectMore.
Import Re Collect.

(** The keys of the dict literal [entry_data]. *)
Definition entry_keys : gset string :=
  list_to_set
    ["title"; "link"; "location"; "report_date"; "air_quality_pm25";
     "air_quality_pm10"; "air_quality_ozone"; "agency"; "last_update"].

(** The summary has a date text for pattern [r] that [strptime] rejects
    for the format [fmt]. *)
Definition rejected_date `{Externals} (r : regex) (fmt html : string)
  : Prop :=
  exists m,
    search r html = Some m /\
    strptime (sub_empty zone_re (Py.strip (group 1 m))) fmt = None.

(** A match of the AQI pattern in the summary has an AQI text that is
    longer than [int] accepts. *)
Definition too_long_aqi (html : string) : Prop :=
  Exists (fun m => ~ within_limit m) (findall air_quality_re html).

(** The table after a batch on a connection that never fails: each entry
    with a parameter tuple is inserted unless it collides. *)
Definition insert_entry `{Externals} (rows : list Row) (entry : dict)
  : list Row :=
  match insert_params entry with
  | Ok r => insert_do_nothing r rows
  | Raise _ => rows
  end.

(** The text has no white space at either end. *)
Definition trimmed (s : string) : Prop :=
  (forall c t, s = String c t -> Py.isspace c = false) /\
  (forall t c, s = t ++ String c EmptyString -> Py.isspace c = false).

(** In [html], [text] stands on one line between [label], white space,
    and [close]. *)
Definition labelled (label close html text : string) : Prop :=
  exists pre sp rest,
    html = pre ++ label ++ sp ++ text ++ close ++ rest /\
    Py.all_chars Py.isspace sp = true /\
    Py.all_chars dot text = true.

(** No reading is negative. *)
Definition nonneg (r : readings) : Prop :=
  forall k v, reading k r = Some v -> (0 <= v)%Z.

Definition reading_keys : list string :=
  ["air_quality_pm25"; "air_quality_pm10"; "air_quality_ozone"].

(** No [logger.error] of the handler among the records. *)
Definition quiet (records : list log_record) : Prop :=
  Forall (fun r => match r with Error_occurred _ => False | _ => True end)
         records.

(** The table after the feed of [url] was stored on a connection that
    never fails. *)
Definition store_feed `{Externals} (rows : list Row) (url : string)
  : list Row :=
  match fetch_rss_feed url with
  | Ok data => fold_left insert_entry data rows
  | Raise _ => rows
  end.

(** The records [save_to_db] logs for the entries whose parameter tuple
    cannot be built. *)
Definition rejected (data : list dict) : list log_record :=
  flat_map (fun entry =>
              match insert_params entry with
              | Ok _ => []
              | Raise e => [Error_failed_to_insert entry e]
              end) data.

(** The table answers for row [r]: it holds [r], or a row with the same
    (location, report_date) pair. *)
Definition represented `{Externals} (r : Row) (rows : list Row) : Prop :=
  In r rows \/ exists r', In r' rows /\ conflict r r' = true.

(** The feed of [url] can be fetched and extracted. *)
Definition readable `{Externals} (url : string) : Prop :=
  exists data, fetch_rss_feed url = Ok data.

(** From [w] to [w'] the table only gained rows and the log only gained
    records, none of them the handler's [logger.error]. *)
Definition advances `{Externals} (w w' : World) : Prop :=
  (exists added, table w' = (table w ++ added)%list) /\
  (exists new, log w' = (log w ++ new)%list /\ quiet new).

End CollectMore.

(** ** The set-up of a collector run *)

Module Setup.
Import Collect.

Section WithExternals.
Context `{Externals}.

(** The dict comprehension of line 103: a later parameter of the same
    name replaces an earlier one. *)
Definition params_of (parameters : list (string * string))
  : gmap string string :=
  fold_left (fun m p => <[p.1 := p.2]> m) parameters ∅.

(** [get_db_connection] (lines 97-112): [ssm] is the list of (Name,
    Value) pairs that [get_parameters] answers, or its exception;
    [connect] is [psycopg2.connect]. *)
Definition get_db_connection
           (ssm : result (list (string * string)))
           (connect : string -> string -> string -> string -> string ->
                      result unit)
  : result unit :=
  parameters ← ssm;
  let params := params_of parameters in
  dbname ← or_raise KeyError (params !! "DB_NAME");
  user ← or_raise KeyError (params !! "DB_USER");
  password ← or_raise KeyError (params !! "DB_PASSWORD");
  host ← or_raise KeyError (params !! "DB_HOST");
  port ← or_raise KeyError (params !! "DB_PORT");
  connect dbname user password host port.

(** [lambda_handler] from its first line (lines 151-173): [csv] is what
    [read_urls_from_csv] returns or raises. *)
Definition lambda_handler_from_start
           (csv : result (list string))
           (ssm : result (list (string * string)))
           (connect : string -> string -> string -> string -> string ->
                      result unit)
  : World -> Z * World :=
  fun w =>
    match
      try_except
        (m_bind (lift csv) (fun urls =>
         m_bind (lift (get_db_connection ssm connect)) (fun _ =>
         m_bind (process_urls urls) (fun _ =>
         m_bind conn_close (fun _ =>
         m_ret 200%Z)))))
        (fun e =>
         m_bind (logger (Error_occurred e)) (fun _ =>
         m_ret 500%Z)) w
    with
    | (Ok status, w') => (status, w')
    | (Raise _, w') => (500%Z, w')
    end.

End WithExternals.
End Setup.

(** ** The queries of the delivery endpoints

    The three endpoints read the table through SQL text (app.py, lines
    57-63, 106-113 and 155-179).  The queries are embedded over the rows
    as the collector stores them, with the semantics PostgreSQL gives
    them: a comparison with NULL is unknown and selects no row, MIN and
    MAX skip NULLs and give NULL over no row, a scalar subquery gives
    NULL over no row and fails over more than one, and ORDER BY ... DESC
    puts NULLs first. *)

Module Query.
Import Collect Deliver.

(** *** Column values *)

(** Lexicographic comparison. *)
Fixpoint lex (a b : list Z) : comparison :=
  match a, b with
  | [], [] => Eq
  | [], _ :: _ => Lt
  | _ :: _, [] => Gt
  | x :: a', y :: b' =>
      match (x ?= y)%Z with
      | Eq => lex a' b'
      | c => c
      end
  end.

Definition fields (d : datetime) : list Z :=
  [year d; month d; day d; hour d; minute d; second d].

(** The order of two timestamps. *)
Definition dt_compare (a b : datetime) : comparison :=
  lex (fields a) (fields b).

(** [a <= b] *)
Definition dt_leb (a b : datetime) : bool :=
  match dt_compare a b with Gt => false | _ => true end.

Definition date_of (r : Row) : option datetime :=
  match report_date r with VDatetime d => Some d | _ => None end.

(** The value of an integer column. *)
Definition as_int (v : value) : option Z :=
  match v with VInt n => Some n | _ => None end.

(** [location = %s] *)
Definition location_is (loc : string) (r : Row) : bool :=
  match location r with VStr s => String.eqb s loc | _ => false end.

(** [report_date >= %s] *)
Definition not_before (start : datetime) (r : Row) : bool :=
  match date_of r with Some d => dt_leb start d | None => false end.

(** [report_date = x], for [x] a value that may be NULL. *)
Definition date_is (x : option datetime) (r : Row) : bool :=
  match x, date_of r with
  | Some d, Some d' => bool_decide (d' = d)
  | _, _ => false
  end.

(** *** Aggregates and subqueries *)

Definition earlier (a b : datetime) : datetime :=
  if dt_leb a b then a else b.

Definition later (a b : datetime) : datetime :=
  if dt_leb a b then b else a.

(** [MIN], [MAX] *)
Definition sql_min (ds : list datetime) : option datetime :=
  match ds with
  | [] => None
  | d :: ds' => Some (fold_left earlier ds' d)
  end.

Definition sql_max (ds : list datetime) : option datetime :=
  match ds with
  | [] => None
  | d :: ds' => Some (fold_left later ds' d)
  end.

(** A subquery used as a value. *)
Definition scalar (vs : list value) : result value :=
  match vs with
  | [] => Ok VNone
  | [v] => Ok v
  | _ :: _ :: _ => Raise DatabaseError
  end.

(** *** The trend query (lines 155-179) *)

(** [WHERE location = %s AND report_date >= %s] *)
Definition in_window (loc : string) (start : datetime) (r : Row) : bool :=
  location_is loc r && not_before start r.

(** [SELECT MIN(report_date), MAX(report_date) FROM air_quality
     WHERE location = %s AND report_date >= %s] *)
Definition date_range (loc : string) (start : datetime) (rows : list Row)
  : option datetime * option datetime :=
  let ds := omap date_of (List.filter (in_window loc start) rows) in
  (sql_min ds, sql_max ds).

(** [(SELECT col FROM air_quality
      WHERE location = %s AND report_date = x)] *)
Definition reading_at (col : Row -> value) (loc : string)
           (x : option datetime) (rows : list Row) : result value :=
  scalar (map col (List.filter (fun r => location_is loc r && date_is x r)
                               rows)).

(** The rows of the result: one per row of [date_range], which has
    exactly one. *)
Definition trend_query (loc : string) (start : datetime) (rows : list Row)
  : result (list trend_row) :=
  let dr := date_range loc start rows in
  s25 ← reading_at air_quality_pm25 loc (fst dr) rows;
  e25 ← reading_at air_quality_pm25 loc (snd dr) rows;
  s10 ← reading_at air_quality_pm10 loc (fst dr) rows;
  e10 ← reading_at air_quality_pm10 loc (snd dr) rows;
  so ← reading_at air_quality_ozone loc (fst dr) rows;
  eo ← reading_at air_quality_ozone loc (snd dr) rows;
  Ok [ {| start_pm25 := as_int s25; end_pm25 := as_int e25;
          start_pm10 := as_int s10; end_pm10 := as_int e10;
          start_ozone := as_int so; end_ozone := as_int eo |} ].

(** *** The event of a request *)

(** A key of the event: absent, [None], or a dict of strings. *)
Inductive field : Type :=
| Absent
| Null
| Params (d : gmap string string).

Record Event : Type := {
  pathParameters : field;
  queryStringParameters : field
}.

(** The exceptions that are raised before the [try] of an endpoint and
    leave it. *)
Inductive uncaught : Type :=
| Uncaught_KeyError
| Uncaught_TypeError
| Uncaught_AttributeError.

(** [event['pathParameters']['location']] *)
Definition path_location (event : Event) : uncaught + string :=
  match pathParameters event with
  | Absent => inl Uncaught_KeyError
  | Null => inl Uncaught_TypeError
  | Params d =>
      match d !! "location" with
      | Some s => inr s
      | None => inl Uncaught_KeyError
      end
  end.

(** [event['queryStringParameters'].get('timeframe', 'week')] *)
Definition query_timeframe (event : Event) : uncaught + string :=
  match queryStringParameters event with
  | Absent => inl Uncaught_KeyError
  | Null => inl Uncaught_AttributeError
  | Params d => inr (default "week" (d !! "timeframe"))
  end.

(** *** [lambda_get_air_quality_trend] with its query

    [db] is what the two [with] blocks give the query: the rows of
    [air_quality], or the exception of [get_db_connection] or of the
    driver; [days_ago n] is [datetime.now() - timedelta(days=n)]. *)

Section WithFloats.
Context `{Floats}.

Definition trend_endpoint (days_ago : Z -> datetime)
           (db : result (list Row)) (location timeframe : string)
  : response :=
  if negb (String.eqb timeframe "week" || String.eqb timeframe "month")
  then Status_400
  else
    let start_date :=
      days_ago (if String.eqb timeframe "week" then 7 else 30)%Z in
    match
      rows ← db;
      rs ← trend_query location start_date rows;
      trend_response location timeframe (head rs)
    with
    | Ok r => r
    | Raise _ => Status_500
    end.

(** The endpoint on an event (lines 143-216). *)
Definition trend_handler (days_ago : Z -> datetime)
           (db : result (list Row)) (event : Event)
  : uncaught + response :=
  match path_location event with
  | inl e => inl e
  | inr location =>
      match query_timeframe event with
      | inl e => inl e
      | inr timeframe =>
          inr (trend_endpoint days_ago db location timeframe)
      end
  end.

End WithFloats.

(** *** [lambda_get_current_air_quality] (lines 41-90) *)

Inductive jvalue : Type :=
| JNull
| JString (s : string)
| JInt (n : Z)
| JIsoformat (d : datetime).     (* the string [d.isoformat()] *)

(** [a] comes strictly before [b] under [ORDER BY report_date DESC]. *)
Definition sorts_before (a b : Row) : bool :=
  match date_of a, date_of b with
  | None, None => false
  | None, Some _ => true
  | Some _, None => false
  | Some x, Some y => match dt_compare x y with Gt => true | _ => false end
  end.

(** The first row of the ordered result; among rows that tie, the one
    the table has first. *)
Definition top (rows : list Row) : option Row :=
  fold_left (fun best r =>
               match best with
               | None => Some r
               | Some b => if sorts_before r b then Some r else Some b
               end) rows None.

(** [SELECT ... FROM air_quality WHERE location = %s
     ORDER BY report_date DESC LIMIT 1], then [fetchone]. *)
Definition current_query (loc : string) (rows : list Row) : option Row :=
  top (List.filter (location_is loc) rows).

(** [json.dumps] of a column value; a datetime is not serializable
    ([None]: [TypeError]). *)
Definition dumps (v : value) : option jvalue :=
  match v with
  | VNone => Some JNull
  | VStr s => Some (JString s)
  | VInt n => Some (JInt n)
  | VDatetime _ => None
  end.

(** [v.isoformat() if v else None] (line 68); a value that is true and
    has no [isoformat] raises ([None]: [AttributeError]). *)
Definition isoformat_or_none (v : value) : option jvalue :=
  match v with
  | VNone => Some JNull
  | VDatetime d => Some (JIsoformat d)
  | VStr EmptyString => Some JNull
  | VStr _ => None
  | VInt n => if (n =? 0)%Z then Some JNull else None
  end.

Inductive current_response : Type :=
| Current_200 (body : list (string * jvalue))
| Current_404
| Current_500.

(** The body of the answer for the row [fetchone] returned (lines
    68-77); [None] when building it raises. *)
Definition current_body (location : string) (result : Row)
  : option (list (string * jvalue)) :=
  timestamp ← isoformat_or_none (report_date result);
  v_pm25 ← dumps (air_quality_pm25 result);
  v_pm10 ← dumps (air_quality_pm10 result);
  v_ozone ← dumps (air_quality_ozone result);
  Some [("location", JString location);
        ("timestamp", timestamp);
        ("pm25", v_pm25);
        ("pm10", v_pm10);
        ("ozone", v_ozone)].

Definition lambda_get_current_air_quality (db : result (list Row))
           (location : string) : current_response :=
  match db with
  | Raise _ => Current_500
  | Ok rows =>
      match current_query location rows with
      | Some result =>
          match current_body location result with
          | Some body => Current_200 body
          | None => Current_500
          end
      | None => Current_404
      end
  end.

(** The endpoint on an event. *)
Definition current_handler (db : result (list Row)) (event : Event)
  : uncaught + current_response :=
  match path_location event with
  | inl e => inl e
  | inr location => inr (lambda_get_current_air_quality db location)
  end.

(** *** [lambda_get_above_avg_locations] (lines 92-130)

    The query reads table [import_air_quality]; its rows are taken to
    have the columns of [air_quality] that the query names. *)

(** [col > 100] *)
Definition above_100 (v : value) : bool :=
  match as_int v with Some n => (100 <? n)%Z | None => false end.

(** [SELECT MAX(report_date) FROM import_air_quality] *)
Definition latest (rows : list Row) : option datetime :=
  sql_max (omap date_of rows).

Definition exceeds (r : Row) : bool :=
  above_100 (air_quality_pm10 r) || above_100 (air_quality_pm25 r)
  || above_100 (air_quality_ozone r).

(** [SELECT DISTINCT]: each value once, here in the order of the first
    occurrence. *)
Fixpoint distinct (vs : list value) : list value :=
  match vs with
  | [] => []
  | v :: vs' =>
      v :: List.filter (fun v' => negb (bool_decide (v' = v))) (distinct vs')
  end.

Definition above_query (rows : list Row) : list value :=
  distinct
    (map location
         (List.filter (fun r => date_is (latest rows) r && exceeds r) rows)).

Inductive above_response : Type :=
| Above_200 (locations : list jvalue)
| Above_404
| Above_500.

Definition lambda_get_above_avg_locations (db : result (list Row))
  : above_response :=
  match db with
  | Raise _ => Above_500
  | Ok rows =>
      match above_query rows with
      | [] => Above_404
      | locations =>
          match mapM dumps locations with
          | Some location_list => Above_200 location_list
          | None => Above_500
          end
      end
  end.

(** *** Vocabulary *)

(** The columns have the values their types allow: a text or NULL as
    location, a timestamp or NULL as report date, an integer or NULL as
    reading. *)
Definition typed (r : Row) : Prop :=
  (location r = VNone \/ exists s, location r = VStr s) /\
  (report_date r = VNone \/ exists d, report_date r = VDatetime d) /\
  (forall col, In col [air_quality_pm25; air_quality_pm10;
                       air_quality_ozone] ->
               col r = VNone \/ exists n, col r = VInt n).

End Query.

(** ** Sample tables and requests *)

Module QuerySample.
Import Collect Sample Query.

(** [datetime.now() - timedelta(days=n)] on 4 July 2024, 18:00. *)
Definition days_ago (n : Z) : datetime :=
  if (n =? 7)%Z then Datetime 2024 6 27 18 0 0 else Datetime 2024 6 4 18 0 0.

Definition morning : value := VDatetime (Datetime 2024 7 4 9 0 0).

(** Two reports of Seattle on one day. *)
Definition seattle_rows : list Row :=
  [row "Seattle" morning 30; row "Seattle" noon 45].

(** A report of Springfield and an unavailability notice stored after
    it. *)
Definition springfield_rows : list Row :=
  [row "Springfield" noon 45; row "Springfield" VNone 0].

(** A request without query string, as an API gateway sends it. *)
Definition bare_request : Event :=
  {| pathParameters := Params {[ "location" := "Seattle" ]};
     queryStringParameters := Null |}.

(** A reading above the threshold. *)
Definition smoky_rows : list Row := [row "Wenatchee" noon 145].

(** The answer of the parameter store without DB_PORT. *)
Definition four_parameters : list (string * string) :=
  [("DB_NAME", "aq"); ("DB_USER", "collector"); ("DB_PASSWORD", "secret");
   ("DB_HOST", "db.example")].

Definition connect (dbname user password host port : string)
  : result unit := Ok ().

End QuerySample.

(** * Properties *)

(** ** Strings *)

Module StrFacts.

Lemma app_cons c (s t : string) : String c s ++ t = String c (s ++ t).
Proof. reflexivity. Qed.

Lemma app_nil_l (s : string) : EmptyString ++ s = s.
Proof. reflexivity. Qed.

Lemma app_nil_r (s : string) : s ++ EmptyString = s.
Proof.
  induction s as [|c s IH]; [reflexivity|]. now rewrite app_cons, IH.
Qed.

Lemma app_assoc (s t u : string) : (s ++ t) ++ u = s ++ (t ++ u).
Proof.
  induction s as [|c s IH]; [reflexivity|]. now rewrite !app_cons, IH.
Qed.

Lemma length_app (s t : string) :
  String.length (s ++ t) = String.length s + String.length t.
Proof.
  induction s as [|c s IH]; [reflexivity|].
  rewrite app_cons. simpl. now rewrite IH.
Qed.

Lemma substring_app (s t : string) :
  String.substring 0 (String.length s) (s ++ t) = s.
Proof.
  induction s as [|c s IH]; [now destruct t|].
  rewrite app_cons. simpl. now rewrite IH.
Qed.

Lemma before_app (s t : string) : Py.before (s ++ t) t = s.
Proof.
  unfold Py.before. rewrite length_app.
  replace (String.length s + String.length t - String.length t)
    with (String.length s) by lia.
  apply substring_app.
Qed.

Lemma all_chars_app p (s t : string) :
  Py.all_chars p (s ++ t) = Py.all_chars p s && Py.all_chars p t.
Proof.
  induction s as [|c s IH]; [reflexivity|].
  rewrite app_cons. simpl. rewrite IH. now rewrite andb_assoc.
Qed.

End StrFacts.

(** ** The matcher only reports matches of the pattern's language *)

Module ReFacts.
Import Re StrFacts.


Lemma strip_prefix_split eq (l s s' : string) :
  strip_prefix eq l s = Some s' ->
  exists t, s = t ++ s' /\ strip_prefix eq l t = Some EmptyString.
Proof.
  revert s. induction l as [|a l IH]; intros s Hs; simpl in Hs.
  - exists EmptyString. now inversion Hs.
  - destruct s as [|c s]; [discriminate|].
    destruct (eq a c) eqn:E; [|discriminate].
    destruct (IH _ Hs) as (t & -> & Ht).
    exists (String c t). simpl. now rewrite E.
Qed.

Lemma strip_prefix_eqb (l t : string) :
  strip_prefix Ascii.eqb l t = Some EmptyString -> t = l.
Proof.
  revert t. induction l as [|a l IH]; intros t Ht; simpl in Ht.
  - now inversion Ht.
  - destruct t as [|c t]; [discriminate|].
    destruct (Ascii.eqb a c) eqn:E; [|discriminate].
    apply Ascii.eqb_eq in E. subst c. f_equal. now apply IH.
Qed.

Section Soundness.
Context {A : Type}.

Lemma star_greedy_sound p s (k : string -> option A) v :
  star_greedy p s k = Some v ->
  exists t s', s = t ++ s' /\ Py.all_chars p t = true /\ k s' = Some v.
Proof.
  induction s as [|c s IH]; simpl; intros Hv.
  - exists EmptyString, EmptyString. auto.
  - destruct (p c) eqn:Hc.
    + destruct (star_greedy p s k) as [v'|] eqn:Hs.
      * destruct (IH Hv) as (t & s' & -> & Ht & Hk).
        exists (String c t), s'. simpl. rewrite Hc, Ht. auto.
      * exists EmptyString, (String c s). auto.
    + exists EmptyString, (String c s). auto.
Qed.

Lemma star_lazy_sound p s (k : string -> option A) v :
  star_lazy p s k = Some v ->
  exists t s', s = t ++ s' /\ Py.all_chars p t = true /\ k s' = Some v.
Proof.
  induction s as [|c s IH]; simpl; intros Hv.
  - destruct (k EmptyString) eqn:Hk; [|discriminate].
    inversion Hv; subst. exists EmptyString, EmptyString. auto.
  - destruct (k (String c s)) eqn:Hk.
    + inversion Hv; subst. exists EmptyString, (String c s). auto.
    + destruct (p c) eqn:Hc; [|discriminate].
      destruct (IH Hv) as (t & s' & -> & Ht & Hk').
      exists (String c t), s'. simpl. rewrite Hc, Ht. auto.
Qed.

Theorem rmatch_sound r : forall s gs (k : string -> list string -> option A) v,
  rmatch r s gs k = Some v ->
  exists t s' g,
    s = t ++ s' /\ matches r t s' g /\ k s' (gs ++ g)%list = Some v.
Proof.
  induction r as [l|l|p|p|p|p|r1 IH1 r2 IH2|r1 IH1 r2 IH2|r1 IH1|];
    intros s gs k v Hv; simpl in Hv.
  - destruct (strip_prefix Ascii.eqb l s) as [s'|] eqn:E; [|discriminate].
    apply strip_prefix_split in E as (t & -> & Ht).
    apply strip_prefix_eqb in Ht. subst t.
    exists l, s', []. rewrite List.app_nil_r. now simpl.
  - destruct (strip_prefix eqb_nocase l s) as [s'|] eqn:E; [|discriminate].
    apply strip_prefix_split in E as (t & -> & Ht).
    exists t, s', []. rewrite List.app_nil_r. now simpl.
  - destruct s as [|c s]; [discriminate|].
    destruct (p c) eqn:Hc; [|discriminate].
    exists (String c EmptyString), s, []. rewrite List.app_nil_r.
    simpl. repeat split; eauto.
  - apply star_greedy_sound in Hv as (t & s' & -> & Ht & Hk).
    exists t, s', []. rewrite List.app_nil_r. now simpl.
  - destruct s as [|c s]; [discriminate|].
    destruct (p c) eqn:Hc; [|discriminate].
    apply star_greedy_sound in Hv as (t & s' & -> & Ht & Hk).
    exists (String c t), s', []. rewrite List.app_nil_r. simpl.
    rewrite Hc, Ht. repeat split; auto; discriminate.
  - apply star_lazy_sound in Hv as (t & s' & -> & Ht & Hk).
    exists t, s', []. rewrite List.app_nil_r. now simpl.
  - apply IH1 in Hv as (t1 & s1 & g1 & -> & M1 & Hv).
    apply IH2 in Hv as (t2 & s2 & g2 & -> & M2 & Hv).
    exists (t1 ++ t2), s2, (g1 ++ g2)%list.
    rewrite app_assoc, List.app_assoc. repeat split; auto.
    simpl. exists t1, t2, g1, g2. auto.
  - destruct (rmatch r1 s gs k) as [v'|] eqn:E.
    + inversion Hv; subst v'.
      apply IH1 in E as (t & s' & g & -> & M & Hk).
      exists t, s', g. simpl. auto.
    + apply IH2 in Hv as (t & s' & g & -> & M & Hk).
      exists t, s', g. simpl. auto.
  - apply IH1 in Hv as (t & s' & g & -> & M & Hk).
    rewrite before_app in Hk.
    exists t, s', (g ++ [t])%list. rewrite List.app_assoc.
    repeat split; auto. simpl. eauto.
  - destruct (at_end s) eqn:E; [|discriminate].
    exists EmptyString, s, []. rewrite List.app_nil_r. now simpl.
Qed.
End Soundness.

Lemma match_at_sound r s m :
  match_at r s = Some m ->
  exists t, s = t ++ rest m /\ matches r t (rest m) (groups m).
Proof.
  unfold match_at. intros Hm.
  apply rmatch_sound in Hm as (t & s' & g & -> & M & Hk).
  inversion Hk; subst m; simpl. eauto.
Qed.

Lemma search_sound r s m :
  search r s = Some m ->
  exists pre t, s = pre ++ t ++ rest m /\ matches r t (rest m) (groups m).
Proof.
  induction s as [|c s IH]; simpl; intros Hm.
  - destruct (match_at r EmptyString) as [m'|] eqn:E; [|discriminate].
    inversion Hm; subst m'.
    apply match_at_sound in E as (t & Ht & M). exists EmptyString, t. auto.
  - destruct (match_at r (String c s)) as [m'|] eqn:E.
    + inversion Hm; subst m'.
      apply match_at_sound in E as (t & Ht & M). exists EmptyString, t. auto.
    + destruct (IH Hm) as (pre & t & -> & M).
      exists (String c pre), t. auto.
Qed.

Lemma findall_from_sound r s : forall skip gs,
  In gs (findall_from r s skip) ->
  exists pre t post, s = pre ++ t ++ post /\ matches r t post gs.
Proof.
  induction s as [|c s IH]; intros skip gs Hin.
  - destruct skip; simpl in Hin; [|contradiction].
    destruct (match_at r EmptyString) as [m|] eqn:E; [|contradiction].
    destruct Hin as [<-|[]].
    apply match_at_sound in E as (t & Ht & M). exists EmptyString, t, (rest m). auto.
  - destruct skip; simpl in Hin.
    + destruct (match_at r (String c s)) as [m|] eqn:E.
      * destruct Hin as [<-|Hin].
        -- apply match_at_sound in E as (t & Ht & M).
           exists EmptyString, t, (rest m). auto.
        -- destruct (IH _ _ Hin) as (pre & t & post & -> & M).
           exists (String c pre), t, post. auto.
      * destruct (IH _ _ Hin) as (pre & t & post & -> & M).
        exists (String c pre), t, post. auto.
    + destruct (IH _ _ Hin) as (pre & t & post & -> & M).
      exists (String c pre), t, post. auto.
Qed.

Lemma findall_sound r s gs :
  In gs (findall r s) ->
  exists pre t post, s = pre ++ t ++ post /\ matches r t post gs.
Proof. apply findall_from_sound. Qed.

End ReFacts.

(** ** What the matches of the collector's patterns look like *)

Module PatternFacts.
Import Re StrFacts ReFacts Collect.

Ltac break :=
  repeat match goal with
  | H : exists _, _ |- _ => destruct H
  | H : _ /\ _ |- _ => destruct H
  | H : _ \/ _ |- _ => destruct H
  end; subst.

(** A match of the AQI pattern has three groups; the second is a
    non-empty run of digits, the third a non-empty text without [<]. *)
Lemma air_quality_groups t post gs :
  matches air_quality_re t post gs ->
  exists category aqi pollutant,
    gs = [category; aqi; pollutant] /\
    aqi <> EmptyString /\ Py.all_chars Py.isdigit aqi = true /\
    pollutant <> EmptyString /\ Py.all_chars (none_of "<") pollutant = true.
Proof.
  unfold air_quality_re. simpl. intros M. break; simpl; eauto 10.
Qed.

Lemma int_digits_some (s : string) :
  s <> EmptyString -> Py.all_chars Py.isdigit s = true ->
  (Z.of_nat (String.length s) <= Py.int_max_str_digits)%Z ->
  Py.int s = Some (Py.int_digits 0 s).
Proof.
  intros Hne Hd Hlen. unfold Py.int. destruct s; [congruence|].
  rewrite Hd. apply Z.leb_le in Hlen. now rewrite Hlen.
Qed.

Lemma int_too_long (s : string) :
  ~ (Z.of_nat (String.length s) <= Py.int_max_str_digits)%Z ->
  Py.int s = None.
Proof.
  intros Hlen. unfold Py.int. destruct s; [reflexivity|].
  destruct (Z.leb_spec (Z.of_nat (String.length (String a s)))
                       Py.int_max_str_digits) as [Hle|Hgt];
    [contradiction|].
  now rewrite andb_false_r.
Qed.

(** A match of the unavailability phrase. *)
Lemma unavailable_shape t post gs :
  matches unavailable_re t post gs ->
  exists sp loc,
    t = "Current Air Quality unavailable for" ++ sp ++ loc ++ "<br" /\
    gs = [loc] /\
    Py.all_chars ws sp = true /\ Py.all_chars dot loc = true.
Proof.
  unfold unavailable_re. simpl. intros M. break. simpl. eauto 10.
Qed.

End PatternFacts.

(** ** Pollutant readings: the loop computes the last match of each kind *)

Module ReadingFacts.
Import Re StrFacts ReFacts PatternFacts Collect.


Lemma read_match_classify m r v :
  Py.int (nth 1 m EmptyString) = Some v ->
  read_match m r = Ok (store (classify (nth 2 m EmptyString)) v r).
Proof.
  intros Hv. unfold read_match, classify. rewrite Hv. simpl.
  destruct (Py.contains "2.5 microns" _); [reflexivity|].
  destruct (Py.contains "10 microns" _); [reflexivity|].
  destruct (Py.contains "Ozone" _); reflexivity.
Qed.





(** Every tuple that [findall] returns for the AQI pattern carries a
    non-empty run of digits in its second group: [int] converts it
    exactly when it is not longer than the limit. *)
Lemma findall_has_int html m :
  In m (findall air_quality_re html) ->
  has_int m <-> within_limit m.
Proof.
  intros Hm.
  apply findall_sound in Hm as (pre & t & post & _ & M).
  apply air_quality_groups in M as (c & a & p & -> & Ha & Hd & _).
  unfold has_int, within_limit. simpl. split.
  - intros [v Hv].
    destruct (Z.le_gt_cases (Z.of_nat (String.length a))
                            Py.int_max_str_digits) as [Hle|Hgt];
      [exact Hle|].
    rewrite int_too_long in Hv by lia. discriminate.
  - intros Hlen. rewrite (int_digits_some _ Ha Hd Hlen). eauto.
Qed.


(** The loop returns only when [int] converted every tuple, and the only
    exception that leaves it is the [ValueError] of [int]. *)
Lemma read_matches_ok ms : forall r0 r,
  read_matches ms r0 = Ok r -> Forall has_int ms.
Proof.
  induction ms as [|m ms IH]; intros r0 r; simpl; [constructor|].
  unfold read_match at 1.
  destruct (Py.int (nth 1 m EmptyString)) as [v|] eqn:Hv; simpl;
    [|discriminate].
  intros Hr. constructor; [unfold has_int; rewrite Hv; eauto|].
  revert Hr.
  destruct (Py.contains "2.5 microns" _); [apply IH|].
  destruct (Py.contains "10 microns" _); [apply IH|].
  destruct (Py.contains "Ozone" _); apply IH.
Qed.

Lemma read_matches_raise ms : forall r0 e,
  read_matches ms r0 = Raise e ->
  e = ValueError /\ Exists (fun m => ~ has_int m) ms.
Proof.
  induction ms as [|m ms IH]; intros r0 e; simpl; [discriminate|].
  destruct (Py.int (nth 1 m EmptyString)) as [v|] eqn:Hv.
  - rewrite (read_match_classify _ _ _ Hv). simpl. intros Hr.
    destruct (IH _ _ Hr) as [He Hex]. split; [exact He|].
    now apply List.Exists_cons_tl.
  - unfold read_match. rewrite Hv. simpl. intros [= <-].
    split; [reflexivity|]. apply List.Exists_cons_hd.
    unfold has_int. rewrite Hv. intros [v Hn]. discriminate.
Qed.

End ReadingFacts.

(** ** Extraction of one entry *)

Module ExtractFacts.
Import Re StrFacts ReFacts PatternFacts ReadingFacts Collect.

Section WithExternals.
Context `{Externals}.

(** C9. An entry without a detailed summary never makes the extraction
    raise; the result carries the entry's title and link (or "No
    title", "No link"), location "No location", agency "No agency",
    and no report date, reading or last update. *)
Theorem C9_no_summary_detail (entry : Entry) :
  e_summary_detail entry = None ->
  exists d,
    process_entry entry = Ok d /\
    d = entry_data (default "No title" (e_title entry))
                   (default "No link" (e_link entry))
                   "No location" None None None None "No agency" None /\
    d !! "title" = Some (VStr (default "No title" (e_title entry))) /\
    d !! "link" = Some (VStr (default "No link" (e_link entry))) /\
    d !! "location" = Some (VStr "No location") /\
    d !! "agency" = Some (VStr "No agency") /\
    d !! "report_date" = Some VNone /\
    d !! "air_quality_pm25" = Some VNone /\
    d !! "air_quality_pm10" = Some VNone /\
    d !! "air_quality_ozone" = Some VNone /\
    d !! "last_update" = Some VNone.
Proof.
  intros Hd. unfold process_entry. rewrite Hd.
  eexists. split; [reflexivity|]. repeat split; reflexivity.
Qed.

(** The early exit of the extraction on the unavailability phrase. *)
Lemma process_entry_unavailable (entry : Entry) (detail : SummaryDetail)
      (m : match_obj) :
  e_summary_detail entry = Some detail ->
  search unavailable_re (default EmptyString (sd_value detail)) = Some m ->
  process_entry entry =
    Ok (entry_data (default "No title" (e_title entry))
                   (default "No link" (e_link entry))
                   (group 1 m) None None None None "No agency" None).
Proof.
  intros Hd Hm. unfold process_entry. now rewrite Hd, Hm.
Qed.

(** C5 (amended). When the detailed summary matches the unavailability
    phrase, the summary reads [... Current Air Quality unavailable for],
    white space, the captured text, [<br]; the extraction returns the
    captured text as location and derives nothing else: no report date,
    no reading, no last update, agency "No agency".  The result has no
    ["unavailable"] entry. *)
Theorem C5_unavailable (entry : Entry) (detail : SummaryDetail)
        (m : match_obj) :
  e_summary_detail entry = Some detail ->
  search unavailable_re (default EmptyString (sd_value detail)) = Some m ->
  (exists pre sp,
      default EmptyString (sd_value detail) =
        pre ++ "Current Air Quality unavailable for" ++ sp
            ++ group 1 m ++ "<br" ++ rest m /\
      Py.all_chars Py.isspace sp = true /\
      Py.all_chars dot (group 1 m) = true) /\
  exists d,
    process_entry entry = Ok d /\
    d !! "location" = Some (VStr (group 1 m)) /\
    d !! "title" = Some (VStr (default "No title" (e_title entry))) /\
    d !! "link" = Some (VStr (default "No link" (e_link entry))) /\
    d !! "agency" = Some (VStr "No agency") /\
    d !! "report_date" = Some VNone /\
    d !! "air_quality_pm25" = Some VNone /\
    d !! "air_quality_pm10" = Some VNone /\
    d !! "air_quality_ozone" = Some VNone /\
    d !! "last_update" = Some VNone /\
    d !! "unavailable" = None.
Proof.
  intros Hd Hm. split.
  - destruct (search_sound _ _ _ Hm) as (pre & t & Hs & M).
    apply unavailable_shape in M as (sp & loc & -> & Hg & Hsp & Hloc).
    exists pre, sp. unfold group. rewrite Hg. simpl nth.
    rewrite Hs, !app_assoc. auto.
  - rewrite (process_entry_unavailable entry detail m Hd Hm).
    eexists. split; [reflexivity|]. repeat split; reflexivity.
Qed.


End WithExternals.
End ExtractFacts.

(** ** [split] and [strip] *)

Module KeyFacts.
Import StrFacts Collect.


Lemma split_hd (s : string) :
  exists post,
    s = hd EmptyString (Py.split "," s) ++ post /\
    (post = EmptyString \/ exists p, post = "," ++ p) /\
    Py.all_chars not_comma (hd EmptyString (Py.split "," s)) = true.
Proof.
  induction s as [|c s (post & Hs & Hpost & Hpre)].
  - exists EmptyString. simpl. auto.
  - simpl. destruct (Ascii.eqb c ",") eqn:Hc.
    + apply Ascii.eqb_eq in Hc. subst c.
      exists (String "," s). simpl. eauto.
    + destruct (Py.split "," s) as [|p ps]; simpl in *.
      * rewrite app_nil_l in Hs. subst post.
        exists s. unfold not_comma. rewrite Hc. simpl.
        rewrite app_cons, app_nil_l. repeat split; auto.
      * exists post. unfold not_comma at 1. rewrite Hc. simpl.
        rewrite app_cons, <- Hs. auto.
Qed.

Lemma lstrip_spec (s : string) :
  exists l,
    s = l ++ Py.lstrip s /\ Py.all_chars Py.isspace l = true /\
    (forall c t, Py.lstrip s = String c t -> Py.isspace c = false).
Proof.
  induction s as [|c s (l & Hs & Hl & Hc)].
  - exists EmptyString. simpl. repeat split; auto. discriminate.
  - simpl. destruct (Py.isspace c) eqn:E.
    + exists (String c l). rewrite app_cons, <- Hs. simpl.
      rewrite E, Hl. auto.
    + exists EmptyString. simpl. repeat split; auto.
      intros c' t [= -> _]. exact E.
Qed.

Lemma snoc_inv (t : string) c (u : string) d :
  t ++ String c EmptyString = u ++ String d EmptyString -> c = d.
Proof.
  revert u. induction t as [|a t IH]; intros [|b u] Heq;
    rewrite ?app_cons, ?app_nil_l in Heq.
  - now inversion Heq.
  - inversion Heq as [[Ha Hu]]. destruct u; discriminate.
  - inversion Heq as [[Ha Ht]]. destruct t; discriminate.
  - inversion Heq. eauto.
Qed.

Lemma rstrip_spec (s : string) :
  exists r,
    s = Py.rstrip s ++ r /\ Py.all_chars Py.isspace r = true /\
    (forall t c, Py.rstrip s = t ++ String c EmptyString -> Py.isspace c = false).
Proof.
  induction s as [|c s (r & Hs & Hr & Hc)].
  - exists EmptyString. simpl. repeat split; auto.
    intros [|a t] c Heq; rewrite ?app_cons, ?app_nil_l in Heq;
      discriminate.
  - simpl. destruct (Py.rstrip s) as [|a u] eqn:Eu.
    + rewrite app_nil_l in Hs. subst r.
      destruct (Py.isspace c) eqn:E.
      * exists (String c s). rewrite app_nil_l. simpl. rewrite E, Hr.
        repeat split; auto.
      * exists s. rewrite app_cons, app_nil_l. repeat split; auto.
        intros t d Heq.
        apply (snoc_inv EmptyString c t d) in Heq. now subst d.
    + exists r. rewrite app_cons, <- Hs. repeat split; auto.
      intros t d Heq. destruct t as [|b t].
      * rewrite app_nil_l in Heq. discriminate.
      * rewrite app_cons in Heq. inversion Heq; subst. eauto.
Qed.

Lemma strip_spec (s : string) :
  exists l r,
    s = l ++ Py.strip s ++ r /\
    Py.all_chars Py.isspace l = true /\
    Py.all_chars Py.isspace r = true /\
    (forall c t, Py.strip s = String c t -> Py.isspace c = false) /\
    (forall t c, Py.strip s = t ++ String c EmptyString -> Py.isspace c = false).
Proof.
  destruct (rstrip_spec s) as (r & Hs & Hr & Hend).
  destruct (lstrip_spec (Py.rstrip s)) as (l & Hl & Hsp & Hstart).
  exists l, r. unfold Py.strip. repeat split; auto.
  - rewrite <- app_assoc, <- Hl. exact Hs.
  - intros t c Heq. apply (Hend (l ++ t) c).
    rewrite Hl at 1. rewrite Heq. now rewrite app_assoc.
Qed.

(** [loc.split(',')[0].strip()] is the location key of [loc]. *)
Lemma location_key_spec (loc : string) :
  is_location_key loc (Py.strip (hd EmptyString (Py.split "," loc))).
Proof.
  destruct (split_hd loc) as (post & Hs & Hpost & Hpre).
  destruct (strip_spec (hd EmptyString (Py.split "," loc)))
    as (l & r & Hk & Hl & Hr & Hstart & Hend).
  exists (hd EmptyString (Py.split "," loc)), post, l, r.
  repeat split; auto.
Qed.

End KeyFacts.

(** ** The store *)

Module StoreFacts.
Import StrFacts KeyFacts Collect.

Section WithExternals.
Context `{Externals}.

(** C7. For every candidate record, the row that [save_to_db] inserts
    has as location the text of the candidate's location before its
    first comma, without surrounding white space (the whole location,
    trimmed, when it has no comma), and every other field as it is in
    the candidate. *)
Theorem C7_normalize (c_title c_link c_location : string)
        (c_report_date : option datetime)
        (c_pm25 c_pm10 c_ozone : option Z)
        (c_agency : string) (c_last_update : option datetime) :
  exists key,
    insert_params
      (entry_data c_title c_link c_location c_report_date
                  c_pm25 c_pm10 c_ozone c_agency c_last_update)
    = Ok {| title := VStr c_title;
            link := VStr c_link;
            location := VStr key;
            report_date := of_datetime c_report_date;
            air_quality_pm25 := of_int c_pm25;
            air_quality_pm10 := of_int c_pm10;
            air_quality_ozone := of_int c_ozone;
            agency := VStr c_agency;
            last_update := of_datetime c_last_update |} /\
    is_location_key c_location key /\
    (Py.all_chars not_comma c_location = true ->
     key = Py.strip c_location).
Proof.
  exists (Py.strip (hd EmptyString (Py.split "," c_location))).
  split; [reflexivity|]. split; [apply location_key_spec|].
  intros Hnc. f_equal.
  clear -Hnc. revert Hnc.
  induction c_location as [|c s IH]; [reflexivity|].
  simpl. unfold not_comma at 1.
  destruct (Ascii.eqb c ","); [discriminate|]. simpl.
  intros Hs. specialize (IH Hs).
  destruct (Py.split "," s); simpl in *; congruence.
Qed.

(** *** The unique index *)

Lemma index_eq_sym a b : index_eq a b = index_eq b a.
Proof.
  unfold index_eq.
  destruct a, b; try reflexivity;
    apply bool_decide_ext; split; congruence.
Qed.

Lemma index_eq_trans a b c :
  index_eq a b = true -> index_eq b c = true -> index_eq a c = true.
Proof.
  unfold index_eq.
  destruct a, b; try discriminate; destruct c; try discriminate;
    rewrite ?bool_decide_eq_true; auto; congruence.
Qed.

Lemma conflict_sym r r' : conflict r r' = conflict r' r.
Proof.
  unfold conflict.
  now rewrite (index_eq_sym (location r)), (index_eq_sym (report_date r)).
Qed.

Lemma conflict_trans r1 r2 r3 :
  conflict r1 r2 = true -> conflict r2 r3 = true -> conflict r1 r3 = true.
Proof.
  unfold conflict. rewrite !andb_true_iff.
  intros [H1 H2] [H3 H4]. split; eapply index_eq_trans; eauto.
Qed.

(** Two rows with the same location text and the same report date
    collide; so do two rows without report date when the index does
    not tell NULLs apart. *)
Lemma same_key_conflict r r' loc :
  location r = VStr loc -> location r' = VStr loc ->
  report_date r = report_date r' ->
  report_date r <> VNone \/ nulls_distinct = false ->
  conflict r r' = true.
Proof.
  intros Hl Hl' Hd Hn. unfold conflict, index_eq.
  rewrite Hl, Hl', <- Hd.
  rewrite bool_decide_eq_true_2 by reflexivity. simpl.
  destruct (report_date r); try (now apply bool_decide_eq_true_2).
  destruct Hn as [Hn | ->]; [congruence | reflexivity].
Qed.

Lemma insert_skips r rows r' :
  In r' rows -> conflict r r' = true -> insert_do_nothing r rows = rows.
Proof.
  intros Hin Hc. unfold insert_do_nothing.
  assert (He : existsb (conflict r) rows = true)
    by (apply existsb_exists; eauto).
  now rewrite He.
Qed.

Lemma insert_appends r rows :
  (forall r', In r' rows -> conflict r r' = false) ->
  insert_do_nothing r rows = (rows ++ [r])%list.
Proof.
  intros Hno. unfold insert_do_nothing.
  destruct (existsb (conflict r) rows) eqn:He; [|reflexivity].
  apply existsb_exists in He as (r' & Hin & Hc).
  rewrite (Hno _ Hin) in Hc. discriminate.
Qed.

Lemma insert_cases r rows :
  (exists r', In r' rows /\ conflict r r' = true /\
              insert_do_nothing r rows = rows) \/
  ((forall r', In r' rows -> conflict r r' = false) /\
   insert_do_nothing r rows = (rows ++ [r])%list).
Proof.
  unfold insert_do_nothing.
  destruct (existsb (conflict r) rows) eqn:He.
  - left. apply existsb_exists in He as (r' & Hin & Hc). eauto.
  - right. split; [|reflexivity]. intros r' Hin.
    destruct (conflict r r') eqn:Hc; [|reflexivity].
    assert (existsb (conflict r) rows = true)
      by (apply existsb_exists; eauto).
    congruence.
Qed.

Lemma count_key_none r rows :
  (forall r', In r' rows -> conflict r r' = false) ->
  count_key r rows = 0.
Proof.
  unfold count_key. induction rows as [|a rows IH]; intros Hno;
    [reflexivity|].
  simpl. rewrite (Hno a) by (left; reflexivity).
  apply IH. intros r' Hin. apply Hno. now right.
Qed.

Lemma count_key_app r rows rows' :
  count_key r (rows ++ rows') = count_key r rows + count_key r rows'.
Proof.
  unfold count_key. now rewrite List.filter_app, List.length_app.
Qed.

Lemma count_key_one r rows r' :
  index_holds rows -> In r' rows -> conflict r r' = true ->
  count_key r rows = 1.
Proof.
  induction rows as [|a rows IH]; intros Hix Hin Hc; [contradiction|].
  destruct Hix as [Ha Hix].
  change (a :: rows) with ([a] ++ rows)%list. rewrite count_key_app.
  destruct (conflict r a) eqn:Hra.
  - rewrite (count_key_none r rows).
    + unfold count_key. simpl. now rewrite Hra.
    + intros y Hy. destruct (conflict r y) eqn:Hry; [|reflexivity].
      rewrite conflict_sym in Hra.
      rewrite <- (Ha y Hy). symmetry. eapply conflict_trans; eauto.
  - destruct Hin as [->|Hin]; [congruence|].
    unfold count_key at 1. simpl. rewrite Hra. simpl.
    now apply IH.
Qed.

Lemma index_holds_app r rows :
  index_holds rows ->
  (forall r', In r' rows -> conflict r r' = false) ->
  index_holds (rows ++ [r]).
Proof.
  induction rows as [|a rows IH]; intros Hix Hno; simpl.
  - split; [intros ? []|exact I].
  - destruct Hix as [Ha Hix]. split.
    + intros y Hy. apply in_app_or in Hy. destruct Hy as [Hy|Hy].
      * now apply Ha.
      * destruct Hy as [Hy|Hy]; [subst y|contradiction].
        rewrite conflict_sym. apply Hno. now left.
    + apply IH; [exact Hix|]. intros y Hy. apply Hno. now right.
Qed.

Lemma insert_preserves_index r rows :
  index_holds rows -> index_holds (insert_do_nothing r rows).
Proof.
  intros Hix.
  destruct (insert_cases r rows) as [(r' & _ & _ & ->)|[Hno ->]];
    [exact Hix | now apply index_holds_app].
Qed.

(** The location of a parameter tuple is a text. *)
Lemma params_location d r :
  insert_params d = Ok r -> exists key, location r = VStr key.
Proof.
  unfold insert_params, getitem, location_key, or_raise, mbind,
    result_bind, rbind.
  repeat match goal with
         | |- context [match d !! ?k with _ => _ end] =>
             destruct (d !! k)
         | |- context [match ?v with VNone => _ | _ => _ end] =>
             destruct v
         end;
    intros [= <-]; simpl; eauto.
Qed.

(** A second insert on the same pair changes nothing. *)
Lemma insert_twice r1 r2 rows :
  conflict r2 r1 = true ->
  insert_do_nothing r2 (insert_do_nothing r1 rows)
  = insert_do_nothing r1 rows.
Proof.
  intros Hc.
  destruct (insert_cases r1 rows) as [(x & Hin & Hx & ->)|[Hno ->]].
  - apply (insert_skips r2 rows x Hin). eapply conflict_trans; eauto.
  - apply (insert_skips r2 _ r1); [|exact Hc].
    apply in_or_app. right. now left.
Qed.

(** After an insert into a table on which the index holds, exactly one
    row collides with the inserted one, when it collides with itself. *)
Lemma insert_count r rows :
  conflict r r = true -> index_holds rows ->
  count_key r (insert_do_nothing r rows) = 1.
Proof.
  intros Hc Hix.
  destruct (insert_cases r rows) as [(x & Hin & Hx & ->)|[Hno ->]].
  - apply (count_key_one r rows x Hix Hin Hx).
  - rewrite count_key_app, (count_key_none r rows) by exact Hno.
    unfold count_key. simpl. now rewrite Hc.
Qed.

(** Without report date, a row collides with no row of an index that
    tells NULLs apart. *)
Lemma null_date_no_conflict r r' :
  nulls_distinct = true -> report_date r = VNone -> conflict r r' = false.
Proof.
  intros Hn Hd. unfold conflict, index_eq. rewrite Hd, Hn. simpl.
  destruct (report_date r'); apply andb_false_r.
Qed.

End WithExternals.
End StoreFacts.

(** ** Batches and runs *)

Module RunFacts.
Import StrFacts Collect StoreFacts.

Section WithExternals.
Context `{Externals}.

Ltac unfold_db :=
  unfold save_entry, try_except, try_insert, except_insert, m_bind, lift,
    logger, add_log, cur_execute_insert, conn_commit, conn_rollback,
    db_call in *.

Lemma insert_grows r rows :
  exists added, insert_do_nothing r rows = (rows ++ added)%list.
Proof.
  unfold insert_do_nothing. destruct (existsb _ _).
  - exists []. now rewrite List.app_nil_r.
  - eauto.
Qed.

(** Whatever happens to one entry, the committed rows stay, in order,
    and when the loop goes on the connection is idle again. *)
Lemma save_entry_grows entry w res w' :
  txn w = table w ->
  save_entry entry w = (res, w') ->
  (exists added, table w' = (table w ++ added)%list) /\
  (res = Ok () -> txn w' = table w').
Proof.
  destruct w as [tb tx lg fs]. simpl. intros ->.
  unfold_db.
  destruct (insert_params entry) as [r|e]; simpl.
  - destruct (insert_grows r tb) as [added Ha].
    destruct fs as [|[] [|[] [|[] fs]]]; simpl;
      intros [= <- <-]; simpl; split; try discriminate; auto;
      try (exists []; now rewrite List.app_nil_r); eauto.
  - destruct fs as [|[] fs]; simpl;
      intros [= <- <-]; simpl; split; try discriminate; auto;
      exists []; now rewrite List.app_nil_r.
Qed.

Lemma save_to_db_grows data : forall w res w',
  txn w = table w ->
  save_to_db data w = (res, w') ->
  (exists added, table w' = (table w ++ added)%list) /\
  (res = Ok () -> txn w' = table w').
Proof.
  induction data as [|entry data IH]; intros w res w' Hidle; simpl.
  - unfold m_ret. intros [= <- <-]. split; [|auto].
    exists []. now rewrite List.app_nil_r.
  - unfold m_bind at 1.
    destruct (save_entry entry w) as [[[]|e] w1] eqn:E.
    + destruct (save_entry_grows _ _ _ _ Hidle E) as [[a1 Ha1] Hi1].
      intros Hrest.
      destruct (IH _ _ _ (Hi1 eq_refl) Hrest) as [[a2 Ha2] Hi2].
      split; [|exact Hi2].
      exists (a1 ++ a2)%list. now rewrite Ha2, Ha1, List.app_assoc.
    + intros [= <- <-].
      destruct (save_entry_grows _ _ _ _ Hidle E) as [Ha _].
      split; [exact Ha | discriminate].
Qed.

Lemma save_to_db_app data1 data2 w :
  save_to_db (data1 ++ data2) w =
  match save_to_db data1 w with
  | (Ok _, w1) => save_to_db data2 w1
  | (Raise e, w1) => (Raise e, w1)
  end.
Proof.
  revert w. induction data1 as [|entry data1 IH]; intros w; simpl.
  - reflexivity.
  - unfold m_bind.
    destruct (save_entry entry w) as [[[]|e] w1]; [apply IH | reflexivity].
Qed.

(** One entry on a connection that answers every call: its row is
    inserted unless it collides, and committed. *)
Lemma save_entry_answered entry r w :
  insert_params entry = Ok r -> faults w = [] -> txn w = table w ->
  save_entry entry w
  = (Ok (),
     {| table := insert_do_nothing r (table w);
        txn := insert_do_nothing r (table w);
        log := log w; faults := [] |}).
Proof.
  intros Hp Hf Hidle. destruct w as [tb tx lg fs]. simpl in *. subst.
  unfold_db. rewrite Hp. reflexivity.
Qed.

(** C1 (amended). Two records with the same (location, report_date)
    pair are saved one after the other on a connection that answers
    every call, into a table on which the unique index holds.  Both
    saves return.  When the pair has a report date, or the index treats
    two missing dates as equal, the second save is a no-op: the state
    after it is the state after the first (nothing stored, nothing
    updated, nothing raised, nothing logged), the first save stored the
    record or found its pair already stored (then it is a no-op too),
    and exactly one stored row has the pair.  When the pair has no
    report date and the index tells missing dates apart, both records
    are stored. *)
Theorem C1_upsert_idempotent (d1 d2 : dict) (r1 r2 : Row) (w : World) :
  faults w = [] ->
  txn w = table w ->
  index_holds (table w) ->
  insert_params d1 = Ok r1 ->
  insert_params d2 = Ok r2 ->
  location r2 = location r1 ->
  report_date r2 = report_date r1 ->
  exists w1 w2,
    save_to_db [d1] w = (Ok (), w1) /\
    save_to_db [d2] w1 = (Ok (), w2) /\
    save_to_db [d1; d2] w = (Ok (), w2) /\
    (report_date r1 <> VNone \/ nulls_distinct = false ->
     w2 = w1 /\
     (table w1 = table w \/ table w1 = (table w ++ [r1])%list) /\
     (forall r0, In r0 (table w) -> location r0 = location r1 ->
                 report_date r0 = report_date r1 -> w1 = w) /\
     count_key r1 (table w2) = 1 /\
     count_key r2 (table w2) = 1 /\
     index_holds (table w2) /\
     log w2 = log w) /\
    (report_date r1 = VNone -> nulls_distinct = true ->
     table w2 = (table w ++ [r1; r2])%list).
Proof.
  intros Hf Hidle Hix Hp1 Hp2 Hloc Hdate.
  pose proof (save_entry_answered d1 r1 w Hp1 Hf Hidle) as E1.
  set (w1 := {| table := insert_do_nothing r1 (table w);
                txn := insert_do_nothing r1 (table w);
                log := log w; faults := [] |}) in *.
  pose proof (save_entry_answered d2 r2 w1 Hp2 eq_refl eq_refl) as E2.
  set (w2 := {| table := insert_do_nothing r2 (table w1);
                txn := insert_do_nothing r2 (table w1);
                log := log w1; faults := [] |}) in *.
  exists w1, w2.
  split; [simpl; unfold m_bind; now rewrite E1|].
  split; [simpl; unfold m_bind; now rewrite E2|].
  split; [simpl; unfold m_bind; rewrite E1; unfold m_bind; now rewrite E2|].
  destruct (params_location d1 r1 Hp1) as [key Hkey].
  split.
  - intros Hnn.
    assert (Hc11 : conflict r1 r1 = true)
      by (apply (same_key_conflict r1 r1 key); auto).
    assert (Hc21 : conflict r2 r1 = true).
    { apply (same_key_conflict r2 r1 key); auto; [congruence|].
      destruct Hnn as [Hnn|Hnn]; [left; congruence|now right]. }
    assert (Hc12 : conflict r1 r2 = true) by now rewrite conflict_sym.
    assert (Hsame : insert_do_nothing r2 (table w1) = table w1)
      by (apply insert_twice, Hc21).
    assert (Hw : w2 = w1) by (unfold w2; rewrite Hsame; reflexivity).
    rewrite Hw. split; [reflexivity|].
    split; [|split; [|split; [|split; [|split]]]].
    + simpl. destruct (insert_cases r1 (table w))
        as [(x & _ & _ & ->)|[_ ->]]; auto.
    + intros r0 Hin Hl0 Hd0.
      assert (Hc10 : conflict r1 r0 = true).
      { apply (same_key_conflict r1 r0 key); auto; congruence. }
      unfold w1. rewrite (insert_skips r1 (table w) r0 Hin Hc10).
      destruct w as [tb tx lg fs]. simpl in *. now subst.
    + simpl. now apply insert_count.
    + simpl. unfold count_key.
      rewrite (List.filter_ext (conflict r2) (conflict r1)).
      * now apply insert_count.
      * intros x. destruct (conflict r1 x) eqn:E.
        -- now apply (conflict_trans r2 r1 x).
        -- destruct (conflict r2 x) eqn:E'; [|reflexivity].
           rewrite <- E. symmetry. now apply (conflict_trans r1 r2 x).
    + simpl. now apply insert_preserves_index.
    + reflexivity.
  - intros Hnone Hn. unfold w2, w1. simpl.
    rewrite (insert_appends r1 (table w))
      by (intros r' _; now apply null_date_no_conflict).
    rewrite insert_appends
      by (intros r' _; apply null_date_no_conflict; congruence).
    now rewrite <- List.app_assoc.
Qed.

(** C2 (amended). When the insert of a record of a batch fails
    (building the parameters, [execute] or [commit] raises), the failure
    is logged and the rows committed for the records before it stay in
    the table; what happens next is decided by the rollback.  When the
    connection answers the rollback, the loop goes on with the records
    after it exactly as on an idle connection over that table: the next
    record, if nothing fails for it, is inserted (or skipped on a
    collision), and whatever the rest of the batch does, the rows
    committed so far stay.  When the rollback raises too, its exception
    leaves [save_to_db]: the records after the failed one are not
    attempted. *)
Theorem C2_independent_commits (before after : list dict) (entry : dict)
        (w w1 wf : World) (e : exn) :
  txn w = table w ->
  save_to_db before w = (Ok (), w1) ->
  try_insert entry w1 = (Raise e, wf) ->
  (exists added, table w1 = (table w ++ added)%list) /\
  (hd false (faults wf) = false ->
   exists w2,
     save_entry entry w1 = (Ok (), w2) /\
     table w2 = table w1 /\
     txn w2 = table w2 /\
     log w2 = (log w1 ++ [Error_failed_to_insert entry e])%list /\
     save_to_db (before ++ entry :: after) w = save_to_db after w2 /\
     (forall next r,
         insert_params next = Ok r -> faults w2 = [] ->
         exists w3,
           save_entry next w2 = (Ok (), w3) /\
           table w3 = insert_do_nothing r (table w1)) /\
     (forall res w',
         save_to_db after w2 = (res, w') ->
         exists added, table w' = (table w1 ++ added)%list)) /\
  (hd false (faults wf) = true ->
   exists w2,
     save_to_db (before ++ entry :: after) w = (Raise DatabaseError, w2) /\
     table w2 = table w1 /\
     log w2 = (log w1 ++ [Error_failed_to_insert entry e])%list /\
     faults w2 = tl (faults wf)).
Proof.
  intros Hidle Hbefore Htry.
  destruct (save_to_db_grows _ _ _ _ Hidle Hbefore) as [Hgrow Hidle1].
  specialize (Hidle1 eq_refl).
  split; [exact Hgrow|]. split.
  - intros Hrb.
    assert (Hw2 : exists w2,
               save_entry entry w1 = (Ok (), w2) /\
               table w2 = table w1 /\ txn w2 = table w2 /\
               log w2 = (log w1 ++ [Error_failed_to_insert entry e])%list).
    { destruct w1 as [tb tx lg fs]. simpl in Hidle1. subst tx.
      unfold_db. simpl in *.
      destruct (insert_params entry) as [r|e0]; simpl in *.
      - destruct fs as [|[] fs]; simpl in *; [discriminate| |].
        + injection Htry as <- <-. simpl in *.
          destruct fs as [|[] fs]; simpl in *;
            [eauto | discriminate | eauto].
        + destruct fs as [|[] fs]; simpl in *;
            [discriminate| |discriminate].
          injection Htry as <- <-. simpl in *.
          destruct fs as [|[] fs]; simpl in *;
            [eauto | discriminate | eauto].
      - injection Htry as <- <-. simpl in *.
        destruct fs as [|[] fs]; simpl in *;
          [eauto | discriminate | eauto]. }
    destruct Hw2 as (w2 & Hsave & Htb & Htx & Hlog).
    exists w2. repeat split; auto.
    + rewrite save_to_db_app, Hbefore. simpl.
      unfold m_bind at 1. now rewrite Hsave.
    + intros next r Hp Hf.
      destruct w2 as [tb2 tx2 lg2 fs2]. simpl in *. subst.
      unfold_db. rewrite Hp. simpl. eauto.
    + intros res w' Hrest.
      destruct (save_to_db_grows _ _ _ _ Htx Hrest) as [[a Ha] _].
      exists a. now rewrite Ha, Htb.
  - intros Hrb.
    assert (Hw2 : exists w2,
               save_entry entry w1 = (Raise DatabaseError, w2) /\
               table w2 = table w1 /\
               log w2 = (log w1 ++ [Error_failed_to_insert entry e])%list /\
               faults w2 = tl (faults wf)).
    { destruct w1 as [tb tx lg fs]. simpl in Hidle1. subst tx.
      unfold_db. simpl in *.
      destruct (insert_params entry) as [r|e0]; simpl in *.
      - destruct fs as [|[] fs]; simpl in *; [discriminate| |].
        + injection Htry as <- <-. simpl in *.
          destruct fs as [|[] fs]; simpl in *;
            [discriminate | eauto | discriminate].
        + destruct fs as [|[] fs]; simpl in *;
            [discriminate| |discriminate].
          injection Htry as <- <-. simpl in *.
          destruct fs as [|[] fs]; simpl in *;
            [discriminate | eauto | discriminate].
      - injection Htry as <- <-. simpl in *.
        destruct fs as [|[] fs]; simpl in *;
          [discriminate | eauto | discriminate]. }
    destruct Hw2 as (w2 & Hsave & Htb & Hlog & Hfs).
    exists w2. repeat split; auto.
    rewrite save_to_db_app, Hbefore. simpl.
    unfold m_bind at 1. now rewrite Hsave.
Qed.

(** *** The run *)

Lemma process_urls_app urls1 urls2 w :
  process_urls (urls1 ++ urls2) w =
  match process_urls urls1 w with
  | (Ok _, w1) => process_urls urls2 w1
  | (Raise e, w1) => (Raise e, w1)
  end.
Proof.
  revert w. induction urls1 as [|url urls1 IH]; intros w; simpl.
  - reflexivity.
  - unfold m_bind.
    destruct (process_url url w) as [[[]|e] w1]; [apply IH | reflexivity].
Qed.

(** C3 (amended). When processing a URL raises (the feed library, the
    extraction of an entry, or a lost connection), the handler logs the
    error once and returns status 500 at once: the state is the one
    that URL left, so the rows stored for the URLs before it stay, and
    the URLs after it are never processed. *)
Theorem C3_failure_stops_run (urls1 urls2 : list string) (url : string)
        (w w1 w2 : World) (e : exn) :
  process_urls urls1 w = (Ok (), w1) ->
  process_url url w1 = (Raise e, w2) ->
  lambda_handler (urls1 ++ url :: urls2) w
    = (500%Z, add_log (Error_occurred e) w2) /\
  (fetch_rss_feed url = Raise e ->
   w2 = add_log (Info_processing_url url) w1).
Proof.
  intros H1 H2. split.
  - unfold lambda_handler, try_except. unfold m_bind at 1.
    rewrite process_urls_app, H1. simpl. unfold m_bind at 1.
    rewrite H2. reflexivity.
  - intros Hf. unfold process_url, m_bind, logger, lift in H2.
    rewrite Hf in H2. now inversion H2.
Qed.

Lemma process_entries_raise before entry after e :
  process_entry entry = Raise e ->
  exists e', process_entries (before ++ entry :: after) = Raise e'.
Proof.
  intros He. induction before as [|b before [e' IH]]; simpl.
  - rewrite He. eauto.
  - destruct (process_entry b); simpl; [rewrite IH|]; eauto.
Qed.

(** C4 (amended). An entry whose summary has a report date that
    [strptime] rejects makes the extraction raise [ValueError]; the
    exception is not caught per entry: it leaves [fetch_rss_feed], so
    no entry of that feed, before or after the bad one, reaches the
    table, and the handler stops the run with status 500. *)
Theorem C4_unparsable_date_aborts_feed (entry : Entry)
        (detail : SummaryDetail) (m : Re.match_obj)
        (url : string) (before after : list Entry) :
  e_summary_detail entry = Some detail ->
  Re.search unavailable_re (default EmptyString (sd_value detail)) = None ->
  Re.search date_re (default EmptyString (sd_value detail)) = Some m ->
  strptime (Re.sub_empty zone_re (Py.strip (Re.group 1 m)))
           report_date_format = None ->
  feedparser_parse url = Ok (before ++ entry :: after)%list ->
  process_entry entry = Raise ValueError /\
  exists e,
    fetch_rss_feed url = Raise e /\
    forall urls w,
      lambda_handler (url :: urls) w
      = (500%Z,
         add_log (Error_occurred e)
                 (add_log (Info_processing_url url) w)) /\
      table (snd (lambda_handler (url :: urls) w)) = table w.
Proof.
  intros Hd Hu Hm Hp Hfeed.
  assert (He : process_entry entry = Raise ValueError).
  { unfold process_entry. rewrite Hd, Hu, Hm.
    unfold parse_date. now rewrite Hp. }
  split; [exact He|].
  destruct (process_entries_raise before entry after _ He) as [e' He'].
  exists e'.
  assert (Hf : fetch_rss_feed url = Raise e').
  { unfold fetch_rss_feed. rewrite Hfeed. exact He'. }
  split; [exact Hf|]. intros urls w.
  assert (Hrun : lambda_handler (url :: urls) w
      = (500%Z,
         add_log (Error_occurred e')
                 (add_log (Info_processing_url url) w))).
  { unfold lambda_handler, try_except. simpl.
    unfold m_bind, process_url, m_bind, logger, lift.
    now rewrite Hf. }
  split; [exact Hrun|]. now rewrite Hrun.
Qed.

End WithExternals.
End RunFacts.

(** ** The trend endpoint *)

Module TrendFacts.
Import Deliver.

Section WithFloats.
Context `{Floats}.


(** The classification reads the present changes only. *)
Lemma trend_direction_present location timeframe c1 c2 c3 :
  trend_direction (trend_data location timeframe c1 c2 c3) =
  if forallb lt_zero (present [c1; c2; c3]) then "improving"
  else if forallb gt_zero (present [c1; c2; c3]) then "worsening"
  else "mixed".
Proof.
  unfold trend_direction, trend_data, values, present.
  destruct c1, c2, c3; reflexivity.
Qed.

(** With at least one change present and all present changes positive
    (a float is not both below and above zero), the direction is
    "worsening". *)
Lemma worsening_when_all_positive location timeframe c1 c2 c3 :
  (forall x, lt_zero x = true -> gt_zero x = false) ->
  present [c1; c2; c3] <> [] ->
  forallb gt_zero (present [c1; c2; c3]) = true ->
  trend_direction (trend_data location timeframe c1 c2 c3) = "worsening".
Proof.
  intros Hex Hne Hpos. rewrite trend_direction_present, Hpos.
  destruct (forallb lt_zero (present [c1; c2; c3])) eqn:Hneg;
    [|reflexivity].
  destruct (present [c1; c2; c3]) as [|x xs]; [congruence|].
  simpl in Hneg, Hpos.
  apply andb_true_iff in Hneg as [Hn _].
  apply andb_true_iff in Hpos as [Hp _].
  rewrite (Hex x Hn) in Hp. discriminate.
Qed.

(** C8 (the code at the failing input). For a window in which no
    change can be computed, every present change is vacuously negative:
    the endpoint answers 200 with direction "improving". *)
Theorem C8_no_change_is_improving (location : string) :
  lambda_get_air_quality_trend location "week" (Some Sample.empty_row)
  = Status_200
      [("location", TStr location); ("timeframe", TStr "week");
       ("pm25_change", TNone); ("pm10_change", TNone);
       ("ozone_change", TNone); ("trend_direction", TStr "improving")].
Proof. reflexivity. Qed.

(** C10. [calculate_change] never raises: the division is evaluated
    only for a start value that is not zero.  A start value of 0, an
    absent start and an absent end all give no change; a pollutant that
    starts at 0 is answered exactly as one without start value. *)
Theorem C10_no_division_by_zero (start end_ : option Z) :
  (exists c, calculate_change start end_ = Ok c) /\
  calculate_change (Some 0%Z) end_ = Ok None /\
  calculate_change None end_ = Ok None /\
  calculate_change start None = Ok None /\
  (forall c, calculate_change start end_ = Ok (Some c) ->
             exists s e, start = Some s /\ end_ = Some e /\ s <> 0%Z /\
                         c = fround (fmul (truediv (e - s) s) 100) 2) /\
  (forall location timeframe a b c d,
      lambda_get_air_quality_trend location timeframe
        (Some (Build_trend_row (Some 0%Z) end_ a b c d))
      = lambda_get_air_quality_trend location timeframe
          (Some (Build_trend_row None end_ a b c d)) /\
      lambda_get_air_quality_trend location timeframe
        (Some (Build_trend_row a b (Some 0%Z) end_ c d))
      = lambda_get_air_quality_trend location timeframe
          (Some (Build_trend_row a b None end_ c d)) /\
      lambda_get_air_quality_trend location timeframe
        (Some (Build_trend_row a b c d (Some 0%Z) end_))
      = lambda_get_air_quality_trend location timeframe
          (Some (Build_trend_row a b c d None end_))).
Proof.
  assert (Hz : forall e, calculate_change (Some 0%Z) e = Ok None)
    by (intros [e|]; reflexivity).
  assert (Hn : forall e, calculate_change None e = Ok None)
    by reflexivity.
  split; [|split; [apply Hz|split; [apply Hn|split; [|split]]]].
  - unfold calculate_change, py_truediv, truthy, mbind, result_bind, rbind.
    destruct start as [s|], end_ as [e|]; simpl; eauto;
      destruct (s =? 0)%Z; simpl; eauto;
      destruct (e =? 0)%Z; simpl; eauto.
  - destruct start as [s|]; [|reflexivity].
    unfold calculate_change, truthy. now rewrite andb_false_r.
  - intros c Hc.
    destruct start as [s|]; [|rewrite Hn in Hc; discriminate].
    destruct end_ as [e|].
    + unfold calculate_change, py_truediv, truthy, mbind, result_bind,
        rbind in Hc.
      destruct (s =? 0)%Z eqn:Es; simpl in Hc; [discriminate|].
      destruct (e =? 0)%Z; simpl in Hc; [discriminate|].
      injection Hc as <-. exists s, e. apply Z.eqb_neq in Es. auto.
    + unfold calculate_change, truthy in Hc.
      rewrite andb_false_r in Hc. discriminate.
  - intros location timeframe a b c d.
    repeat split;
      unfold lambda_get_air_quality_trend, trend_response;
      cbn [start_pm25 end_pm25 start_pm10 end_pm10 start_ozone
           end_ozone];
      now rewrite Hz, Hn.
Qed.

End WithFloats.
End TrendFacts.

(** ** The theorems at the sample feeds *)

Module Runs.
Import Re Collect Sample.
Import ExtractFacts StoreFacts RunFacts TrendFacts.

(** C9 at an entry that has a summary and nothing else. *)
Lemma C9_witness :
  e_summary_detail bare_entry = None /\
  exists d,
    @process_entry externals bare_entry = Ok d /\
    d !! "title" = Some (VStr "No title") /\
    d !! "location" = Some (VStr "No location").
Proof.
  split; [reflexivity|].
  destruct (@C9_no_summary_detail externals bare_entry eq_refl)
    as (d & Hd & _ & Ht & _ & Hl & _).
  exists d. auto.
Defined.

(** C5 at the summary "Current Air Quality unavailable for
    Springfield<br". *)
Lemma C5_witness :
  search unavailable_re unavailable_html
    = Some (the_match unavailable_re unavailable_html) /\
  exists d,
    @process_entry externals (entry_of unavailable_html) = Ok d /\
    d !! "location" = Some (VStr "Springfield") /\
    d !! "report_date" = Some VNone /\
    d !! "unavailable" = None.
Proof.
  split; [vm_compute; reflexivity|].
  destruct (@C5_unavailable externals (entry_of unavailable_html)
              {| sd_value := Some unavailable_html |}
              (the_match unavailable_re unavailable_html)
              eq_refl ltac:(vm_compute; reflexivity))
    as (_ & d & Hd & Hl & _ & _ & _ & Hr & _ & _ & _ & _ & Hu).
  exists d. auto.
Defined.

(** The claim of C5 on the flag fails at that summary: the result has
    no ["unavailable"] entry at all, so none that is true. *)
Lemma C5_counterexample :
  ~ exists d flag,
      @process_entry externals (entry_of unavailable_html) = Ok d /\
      d !! "unavailable" = Some flag.
Proof.
  intros (d & flag & Hd & Hflag).
  rewrite (@ExtractFacts.process_entry_unavailable externals
             (entry_of unavailable_html)
             {| sd_value := Some unavailable_html |}
             (the_match unavailable_re unavailable_html)
             eq_refl ltac:(vm_compute; reflexivity)) in Hd.
  injection Hd as <-. discriminate Hflag.
Qed.


(** C7 at "Springfield, IL" and at a location without comma. *)
Lemma C7_witness :
  location <$> insert_params
                 (entry_data "t" "l" "Springfield, IL" None None None None
                             "a" None)
    = Ok (VStr "Springfield") /\
  location <$> insert_params
                 (entry_data "t" "l" "  Mount Vernon " None None None None
                             "a" None)
    = Ok (VStr "Mount Vernon").
Proof.
  split.
  - destruct (C7_normalize "t" "l" "Springfield, IL" None None
                           None None "a" None) as (key & Heq & _ & _).
    rewrite Heq. vm_compute in Heq. injection Heq as <-. reflexivity.
  - destruct (C7_normalize "t" "l" "  Mount Vernon " None None
                           None None "a" None) as (key & Heq & _ & Hkey).
    rewrite Heq, (Hkey eq_refl). reflexivity.
Defined.

(** C1 (amended) at two Seattle records of the same hour, the second
    with another spelling of the location: one row is stored. *)
Lemma C1_witness :
  exists w1 w2,
    @save_to_db externals [candidate "Seattle, WA" 12] world0
      = (Ok (), w1) /\
    @save_to_db externals [candidate " Seattle ,King County" 12] w1
      = (Ok (), w2) /\
    w2 = w1 /\
    map location (table w2) = [VStr "Seattle"].
Proof.
  destruct (@C1_upsert_idempotent externals
              (candidate "Seattle, WA" 12)
              (candidate " Seattle ,King County" 12) _ _ world0
              eq_refl eq_refl I eq_refl eq_refl eq_refl eq_refl)
    as (w1 & w2 & H1 & H2 & _ & Hpos & _).
  destruct (Hpos ltac:(left; discriminate))
    as (Hw & Ht & _ & Hcount & _).
  exists w1, w2. split; [exact H1|]. split; [exact H2|].
  split; [exact Hw|]. rewrite Hw in *.
  destruct Ht as [Ht|Ht]; rewrite Ht in *.
  - discriminate Hcount.
  - reflexivity.
Defined.

(** The claim of C1 fails at the record of an unavailability notice,
    which has no report date, on a default index: saved twice, it is
    stored twice. *)
Lemma C1_counterexample :
  @process_entry externals (entry_of unavailable_html) = Ok notice /\
  exists r,
    insert_params notice = Ok r /\
    report_date r = VNone /\
    table (snd (@save_to_db externals [notice]
                  (snd (@save_to_db externals [notice] world0))))
    = [r; r].
Proof.
  split; [lazy -[entry_data]; reflexivity|].
  eexists. split; [reflexivity|]. split; [reflexivity|].
  vm_compute. reflexivity.
Qed.

(** Without report date the outcome is the index's: a default index
    stores the second record, an index that does not tell NULLs apart
    skips it. *)
Lemma null_report_date_depends_on_index :
  @insert_do_nothing externals (row "Springfield" VNone 0)
    [row "Springfield" VNone 0]
  = [row "Springfield" VNone 0; row "Springfield" VNone 0] /\
  @insert_do_nothing externals_nulls_equal (row "Springfield" VNone 0)
    [row "Springfield" VNone 0]
  = [row "Springfield" VNone 0].
Proof. split; reflexivity. Qed.

(** C2 (amended) at a batch of three records when [execute] raises for
    the second and the rollback is answered: the first and the third are
    stored. *)
Lemma C2_witness :
  let w1 := snd (@save_to_db externals [olympia] world_third_call_fails) in
  let wf := snd (@try_insert externals yakima w1) in
  @save_to_db externals [olympia] world_third_call_fails = (Ok (), w1) /\
  @try_insert externals yakima w1 = (Raise DatabaseError, wf) /\
  hd false (faults wf) = false /\
  map location
      (table (snd (@save_to_db externals [olympia; yakima; everett]
                     world_third_call_fails)))
  = [VStr "Olympia"; VStr "Everett"] /\
  exists w2,
    @save_to_db externals ([olympia] ++ yakima :: [everett])
                world_connection_lost
    = (Raise DatabaseError, w2) /\
    map location (table w2) = [VStr "Olympia"].
Proof.
  intros w1 wf.
  assert (Hlost : exists w2,
             @save_to_db externals ([olympia] ++ yakima :: [everett])
                         world_connection_lost
             = (Raise DatabaseError, w2) /\
             map location (table w2) = [VStr "Olympia"]).
  { destruct (@C2_independent_commits externals [olympia] [everett] yakima
                world_connection_lost
                (snd (@save_to_db externals [olympia]
                        world_connection_lost))
                (snd (@try_insert externals yakima
                        (snd (@save_to_db externals [olympia]
                                world_connection_lost))))
                DatabaseError
                eq_refl ltac:(vm_compute; reflexivity)
                ltac:(vm_compute; reflexivity))
      as (_ & _ & Hraises).
    destruct (Hraises eq_refl) as (w2 & Hr & Ht & _).
    exists w2. split; [exact Hr|]. rewrite Ht. vm_compute. reflexivity. }
  split; [vm_compute; reflexivity|].
  split; [vm_compute; reflexivity|].
  split; [reflexivity|].
  split; [|exact Hlost].
  destruct (@C2_independent_commits externals [olympia] [everett] yakima
              world_third_call_fails w1 wf DatabaseError
              eq_refl ltac:(vm_compute; reflexivity)
              ltac:(vm_compute; reflexivity))
    as (_ & Hanswered & _).
  destruct (Hanswered eq_refl) as (w2 & Hsave & _ & _ & _ & Hrest & _).
  change [olympia; yakima; everett]
    with ([olympia] ++ yakima :: [everett])%list.
  rewrite Hrest.
  assert (Hw2 : w2 = snd (@save_entry externals yakima w1))
    by (now rewrite Hsave).
  rewrite Hw2. vm_compute. reflexivity.
Defined.

(** The claim of C2 fails at the same batch when the connection is lost
    at the second record, so that its rollback raises too: the batch
    ends with the driver's exception and the third record, stored when
    it is saved on a connection that answers, is not attempted. *)
Lemma C2_counterexample :
  fst (@save_to_db externals [olympia; yakima; everett]
         world_connection_lost) = Raise DatabaseError /\
  map location
      (table (snd (@save_to_db externals [olympia; yakima; everett]
                     world_connection_lost)))
  = [VStr "Olympia"] /\
  faults (snd (@save_to_db externals [olympia; yakima; everett]
                 world_connection_lost)) = [] /\
  map location (table (snd (@save_to_db externals [everett] world0)))
  = [VStr "Everett"].
Proof. repeat split; vm_compute; reflexivity. Qed.

(** C3 (amended) at a run over Seattle, Tacoma, region. *)
Lemma C3_witness :
  let w1 := snd (@process_urls externals [seattle_url] world0) in
  let w2 := snd (@process_url externals tacoma_url w1) in
  @process_urls externals [seattle_url] world0 = (Ok (), w1) /\
  @process_url externals tacoma_url w1 = (Raise ValueError, w2) /\
  @lambda_handler externals [seattle_url; tacoma_url; region_url] world0
  = (500%Z, add_log (Error_occurred ValueError) w2).
Proof.
  intros w1 w2.
  split; [vm_compute; reflexivity|].
  split; [vm_compute; reflexivity|].
  apply (@C3_failure_stops_run externals [seattle_url] [region_url]
           tacoma_url world0 w1 w2 ValueError);
    vm_compute; reflexivity.
Defined.

(** The claim of C3 fails at a run over Tacoma, then Seattle: the
    Tacoma feed raises, and the Seattle record, stored when Seattle is
    fetched alone, is not stored. *)
Lemma C3_counterexample :
  fst (@lambda_handler externals [tacoma_url; seattle_url] world0) = 500%Z /\
  table (snd (@lambda_handler externals [tacoma_url; seattle_url] world0))
    = [] /\
  map location (table (snd (@lambda_handler externals [seattle_url] world0)))
    = [VStr "Seattle"].
Proof. repeat split; vm_compute; reflexivity. Qed.

(** C4 (amended) at the region feed: Seattle, Tacoma with the date text
    "pending", Spokane. *)
Lemma C4_witness :
  search date_re tacoma_html = Some (the_match date_re tacoma_html) /\
  @fetch_rss_feed externals region_url = Raise ValueError /\
  table (snd (@lambda_handler externals [region_url; seattle_url] world0))
    = [].
Proof.
  split; [vm_compute; reflexivity|].
  destruct (@C4_unparsable_date_aborts_feed externals
              (entry_of tacoma_html) {| sd_value := Some tacoma_html |}
              (the_match date_re tacoma_html) region_url
              [entry_of seattle_html] [entry_of spokane_html]
              eq_refl ltac:(vm_compute; reflexivity)
              ltac:(vm_compute; reflexivity)
              ltac:(vm_compute; reflexivity) eq_refl)
    as (_ & e & Hf & Hrun).
  split.
  - rewrite Hf. f_equal. vm_compute in Hf. now injection Hf.
  - now destruct (Hrun [seattle_url] world0) as [_ ->].
Defined.

(** The claim of C4 fails at the region feed: the Seattle and Spokane
    entries are extracted when taken alone, but with the Tacoma entry
    between them the feed raises and neither is stored. *)
Lemma C4_counterexample :
  returns (@process_entry externals (entry_of seattle_html)) = true /\
  returns (@process_entry externals (entry_of spokane_html)) = true /\
  @process_entry externals (entry_of tacoma_html) = Raise ValueError /\
  @fetch_rss_feed externals region_url = Raise ValueError /\
  table (snd (@lambda_handler externals [region_url] world0)) = [].
Proof.
  repeat split; vm_compute; reflexivity.
Qed.

(** C10 in exact arithmetic: from 0 to 35 there is no change to report,
    from 40 to 50 the change is 25. *)
Lemma C10_witness :
  @Deliver.calculate_change ExactFloats.exact (Some 0%Z) (Some 35%Z)
    = Ok None /\
  exists c,
    @Deliver.calculate_change ExactFloats.exact (Some 40%Z) (Some 50%Z)
      = Ok c.
Proof.
  destruct (@C10_no_division_by_zero ExactFloats.exact
              (Some 40%Z) (Some 35%Z)) as (_ & Hz & _).
  split; [exact Hz|].
  destruct (@C10_no_division_by_zero ExactFloats.exact
              (Some 40%Z) (Some 50%Z)) as (Hc & _).
  exact Hc.
Defined.

(** The example of the specification: PM2.5 and PM10 rise and ozone is
    absent; the direction is "worsening". *)
Lemma rising_is_worsening :
  @Deliver.lambda_get_air_quality_trend ExactFloats.exact "Seattle" "week"
    (Some rising_row)
  = Deliver.Status_200
      [("location", Deliver.TStr "Seattle");
       ("timeframe", Deliver.TStr "week");
       ("pm25_change", @Deliver.TFloat ExactFloats.exact (2500 # 100));
       ("pm10_change", @Deliver.TFloat ExactFloats.exact (5000 # 100));
       ("ozone_change", Deliver.TNone);
       ("trend_direction", Deliver.TStr "worsening")].
Proof. vm_compute. reflexivity. Qed.

End Runs.
(** * Further properties of the collector *)

(** ** Extraction *)

Module FetchMore.
Import Re StrFacts ReFacts PatternFacts ReadingFacts Collect CollectMore.

Section WithExternals.
Context `{Externals}.

Ltac unfold_result :=
  unfold fmap, result_fmap, mbind, result_bind, rbind, parse_date,
    or_raise in *.

(** The loop over the AQI matches returns, or a matched AQI text is
    longer than [int] accepts and the loop raises [ValueError]. *)
Lemma read_matches_cases html :
  (~ too_long_aqi html /\
   exists r, read_matches (findall air_quality_re html) no_readings = Ok r)
  \/
  (too_long_aqi html /\
   read_matches (findall air_quality_re html) no_readings
   = Raise ValueError).
Proof.
  unfold too_long_aqi.
  destruct (read_matches (findall air_quality_re html) no_readings)
    as [r|e] eqn:Hr.
  - left. split; [|eauto]. intros Hex.
    apply List.Exists_exists in Hex as (m & Hm & Hno).
    apply read_matches_ok in Hr. rewrite List.Forall_forall in Hr.
    apply Hno, (findall_has_int html m Hm), Hr, Hm.
  - right. destruct (read_matches_raise _ _ _ Hr) as [-> Hex].
    split; [|reflexivity].
    apply List.Exists_exists in Hex as (m & Hm & Hno).
    apply List.Exists_exists. exists m. split; [exact Hm|].
    intros Hlim. apply Hno, (findall_has_int html m Hm), Hlim.
Qed.

(** One date field of the loop body: absent, parsed, or rejected. *)
Lemma date_field_cases (r : regex) (fmt html : string) :
  (rejected_date r fmt html /\
   match search r html with
   | Some m => Some <$> parse_date (group 1 m) fmt
   | None => Ok None
   end = Raise ValueError) \/
  (~ rejected_date r fmt html /\
   exists x,
     match search r html with
     | Some m => Some <$> parse_date (group 1 m) fmt
     | None => Ok None
     end = Ok x).
Proof.
  unfold rejected_date. unfold_result.
  destruct (search r html) as [m|] eqn:Hm.
  - destruct (strptime _ fmt) as [d|] eqn:Hd.
    + right. split; [|eauto]. intros (m' & [= <-] & Hs). congruence.
    + left. split; [eauto|reflexivity].
  - right. split; [|eauto]. intros (m' & Hm' & _). discriminate.
Qed.

(** X1. The extraction of an entry raises exactly when the entry has a
    detailed summary without the unavailability phrase in which the report
    date or the last update has a text that [strptime] rejects, or in
    which a matched AQI text is longer than [int] accepts; the exception
    is then [ValueError].  Nothing else in the loop body can raise. *)
Theorem X1_extraction_raises_exactly_on_bad_texts (entry : Entry) :
  ((exists e, process_entry entry = Raise e) <->
   exists detail,
     e_summary_detail entry = Some detail /\
     search unavailable_re (default EmptyString (sd_value detail)) = None /\
     (rejected_date date_re report_date_format
                    (default EmptyString (sd_value detail)) \/
      rejected_date last_update_re last_update_format
                    (default EmptyString (sd_value detail)) \/
      too_long_aqi (default EmptyString (sd_value detail)))) /\
  (forall e, process_entry entry = Raise e -> e = ValueError).
Proof.
  unfold process_entry.
  destruct (e_summary_detail entry) as [detail|].
  2:{ split; [|discriminate].
      split; [intros [e He]; discriminate|].
      intros (d & Hd & _). discriminate. }
  set (html := default EmptyString (sd_value detail)).
  destruct (search unavailable_re html) as [mu|] eqn:Hu.
  { split; [|discriminate].
    split; [intros [e He]; discriminate|].
    intros (d & [= <-] & Hn & _). fold html in Hn. congruence. }
  destruct (read_matches_cases html) as [[Hlong [r ->]]|[Hlong ->]];
    destruct (date_field_cases date_re report_date_format html)
      as [[Hrd ->]|[Hrd [rd ->]]];
    destruct (date_field_cases last_update_re last_update_format html)
      as [[Hlu ->]|[Hlu [lu ->]]];
    unfold mbind, result_bind, rbind;
    try (split; [|congruence]; split; [|eauto];
         intros _; exists detail; fold html; tauto).
  split; [|discriminate]. split; [intros [e He]; discriminate|].
  intros (d & [= <-] & _ & Hbad). fold html in Hbad. tauto.
Qed.

(** Whatever the extraction returns is the dict literal of line 71. *)
Lemma process_entry_shape (entry : Entry) (d : dict) :
  process_entry entry = Ok d ->
  exists t l loc rd a b c ag lu,
    d = entry_data t l loc rd a b c ag lu.
Proof.
  unfold process_entry.
  destruct (e_summary_detail entry) as [detail|];
    [|intros [= <-]; repeat eexists].
  destruct (search unavailable_re _); [intros [= <-]; repeat eexists|].
  unfold_result.
  repeat match goal with
         | |- context [match ?x with _ => _ end] => destruct x
         end;
    try discriminate; intros [= <-]; repeat eexists.
Qed.

Lemma entry_data_dom t l loc rd a b c ag lu :
  dom (entry_data t l loc rd a b c ag lu) = entry_keys.
Proof. unfold entry_data. rewrite dom_list_to_map_L. reflexivity. Qed.

Lemma process_entries_each entries : forall ds,
  process_entries entries = Ok ds ->
  Forall2 (fun entry d => process_entry entry = Ok d) entries ds.
Proof.
  induction entries as [|entry entries IH]; intros ds; simpl.
  - intros [= <-]. constructor.
  - unfold mbind, result_bind, rbind.
    destruct (process_entry entry) as [d|] eqn:Hd; [|discriminate].
    destruct (process_entries entries) as [ds'|]; [|discriminate].
    intros [= <-]. constructor; auto.
Qed.

(** X2. What [fetch_rss_feed] returns has one dict per entry of the feed,
    in the order of the feed, and every dict has exactly the nine keys
    title, link, location, report_date, air_quality_pm25,
    air_quality_pm10, air_quality_ozone, agency, last_update. *)
Theorem X2_one_dict_per_entry (url : string) (data : list dict) :
  fetch_rss_feed url = Ok data ->
  exists entries,
    feedparser_parse url = Ok entries /\
    length data = length entries /\
    Forall2 (fun entry d => process_entry entry = Ok d) entries data /\
    Forall (fun d : dict => dom d = entry_keys) data.
Proof.
  unfold fetch_rss_feed, mbind, result_bind, rbind.
  destruct (feedparser_parse url) as [entries|]; [|discriminate].
  intros Hp. apply process_entries_each in Hp.
  exists entries. split; [reflexivity|].
  split; [symmetry; eapply Forall2_length; eauto|].
  split; [exact Hp|].
  clear -Hp. induction Hp as [|entry d entries data Hd _ IH]; constructor.
  - apply process_entry_shape in Hd
      as (t & l & loc & rd & a & b & c & ag & lu & ->).
    apply entry_data_dom.
  - exact IH.
Qed.

Lemma location_shape t post gs :
  matches location_re t post gs ->
  exists sp g,
    t = "<div><b>Location:</b>" ++ sp ++ g ++ "</div>" /\ gs = [g] /\
    Py.all_chars ws sp = true /\ Py.all_chars dot g = true.
Proof.
  unfold location_re. simpl. intros M. break. simpl. eauto 10.
Qed.

Lemma agency_shape t post gs :
  matches agency_re t post gs ->
  exists sp g,
    t = "<div><b>Agency:</b>" ++ sp ++ g ++ "</div>" /\ gs = [g] /\
    Py.all_chars ws sp = true /\ Py.all_chars dot g = true.
Proof.
  unfold agency_re. simpl. intros M. break. simpl. eauto 10.
Qed.

Lemma trimmed_strip (s : string) : trimmed (Py.strip s).
Proof.
  destruct (KeyFacts.strip_spec s) as (l & r & _ & _ & _ & Hs & He).
  split; assumption.
Qed.

(** X3. For a summary without the unavailability phrase, the location and
    the agency that the extraction returns are either the defaults (no
    label in the summary) or the text that stands on one line between the
    label and the closing [</div>], without the white space around it; in
    both cases they have no white space at either end. *)
Theorem X3_labelled_fields_are_trimmed (entry : Entry)
        (detail : SummaryDetail) (d : dict) :
  e_summary_detail entry = Some detail ->
  search unavailable_re (default EmptyString (sd_value detail)) = None ->
  process_entry entry = Ok d ->
  exists loc ag,
    d !! "location" = Some (VStr loc) /\
    d !! "agency" = Some (VStr ag) /\
    trimmed loc /\ trimmed ag /\
    ((search location_re (default EmptyString (sd_value detail)) = None /\
      loc = "No location") \/
     exists g,
       labelled "<div><b>Location:</b>" "</div>"
                (default EmptyString (sd_value detail)) g /\
       loc = Py.strip g) /\
    ((search agency_re (default EmptyString (sd_value detail)) = None /\
      ag = "No agency") \/
     exists g,
       labelled "<div><b>Agency:</b>" "</div>"
                (default EmptyString (sd_value detail)) g /\
       ag = Py.strip g).
Proof.
  intros Hd Hu. unfold process_entry. rewrite Hd, Hu.
  set (html := default EmptyString (sd_value detail)).
  destruct (date_field_cases date_re report_date_format html)
    as [[_ ->]|[_ [rd ->]]]; [discriminate|].
  destruct (date_field_cases last_update_re last_update_format html)
    as [[_ ->]|[_ [lu ->]]]; [discriminate|].
  destruct (read_matches_cases html) as [[_ [r ->]]|[_ ->]];
    [|discriminate].
  unfold mbind, result_bind, rbind. intros [= <-].
  eexists _, _. split; [reflexivity|]. split; [reflexivity|].
  assert (Hdef : forall s, (forall c t, s = String c t ->
                                        Py.isspace c = false) ->
                           (forall t c, s = t ++ String c EmptyString ->
                                        Py.isspace c = false) ->
                           trimmed s) by (intros; split; assumption).
  repeat split.
  - destruct (search location_re html); [apply trimmed_strip|].
    intros c t [= <- _]. reflexivity.
  - destruct (search location_re html); [apply trimmed_strip|].
    intros t c Ht.
    apply (KeyFacts.snoc_inv "No locatio" "n" t c) in Ht. now subst c.
  - destruct (search agency_re html); [apply trimmed_strip|].
    intros c t [= <- _]. reflexivity.
  - destruct (search agency_re html); [apply trimmed_strip|].
    intros t c Ht.
    apply (KeyFacts.snoc_inv "No agenc" "y" t c) in Ht. now subst c.
  - destruct (search location_re html) as [m|] eqn:Hm; [right|left; auto].
    destruct (search_sound _ _ _ Hm) as (pre & t & Hs & M).
    apply location_shape in M as (sp & g & -> & Hg & Hsp & Hdot).
    exists g. split.
    + exists pre, sp, (rest m). rewrite Hs, !app_assoc. auto.
    + unfold group. rewrite Hg. reflexivity.
  - destruct (search agency_re html) as [m|] eqn:Hm; [right|left; auto].
    destruct (search_sound _ _ _ Hm) as (pre & t & Hs & M).
    apply agency_shape in M as (sp & g & -> & Hg & Hsp & Hdot).
    exists g. split.
    + exists pre, sp, (rest m). rewrite Hs, !app_assoc. auto.
    + unfold group. rewrite Hg. reflexivity.
Qed.

Lemma int_digits_nonneg (s : string) : forall acc,
  (0 <= acc)%Z -> Py.all_chars Py.isdigit s = true ->
  (0 <= Py.int_digits acc s)%Z.
Proof.
  induction s as [|c s IH]; intros acc Hacc Hd; simpl in *; [exact Hacc|].
  apply andb_true_iff in Hd as [Hc Hs]. apply IH; [|exact Hs].
  unfold Py.isdigit in Hc. cbv zeta in Hc.
  apply andb_true_iff in Hc as [Hlo _].
  apply N.leb_le in Hlo. unfold Py.digit_value.
  pose proof (proj1 (N2Z.inj_le _ _) Hlo) as Hz. simpl in Hz.
  clear Hlo. revert Hz. generalize (Z.of_N (Py.code c)). intros z Hz. lia.
Qed.

Lemma int_nonneg (s : string) (v : Z) : Py.int s = Some v -> (0 <= v)%Z.
Proof.
  unfold Py.int. destruct s as [|c s]; [discriminate|].
  destruct (Py.all_chars Py.isdigit (String c s)) eqn:Hd; [|discriminate].
  destruct (_ <=? _)%Z; [|discriminate].
  intros [= <-]. apply (int_digits_nonneg (String c s) 0); [lia | exact Hd].
Qed.

Lemma read_match_nonneg m r r' :
  nonneg r -> read_match m r = Ok r' -> nonneg r'.
Proof.
  intros Hr. unfold read_match, mbind, result_bind, rbind, or_raise.
  destruct (Py.int (nth 1 m EmptyString)) as [v|] eqn:Hv; [|discriminate].
  apply int_nonneg in Hv.
  repeat match goal with
         | |- context [if ?b then _ else _] => destruct b
         end;
    intros [= <-]; intros k x; destruct k; simpl;
    try (intros [= <-]; exact Hv);
    try (apply (Hr PM25)); try (apply (Hr PM10)); try (apply (Hr Ozone)).
Qed.

Lemma read_matches_nonneg ms : forall r r',
  nonneg r -> read_matches ms r = Ok r' -> nonneg r'.
Proof.
  induction ms as [|m ms IH]; intros r r' Hr; simpl.
  - now intros [= <-].
  - unfold mbind, result_bind, rbind.
    destruct (read_match m r) as [r1|] eqn:H1; [|discriminate].
    apply IH. eapply read_match_nonneg; eauto.
Qed.

(** X4. No reading that the extraction returns is negative: whenever the
    dict of an entry has an integer for PM2.5, PM10 or ozone, that integer
    is at least 0. *)
Theorem X4_readings_are_not_negative (entry : Entry) (d : dict)
        (k : string) (n : Z) :
  process_entry entry = Ok d ->
  In k reading_keys ->
  d !! k = Some (VInt n) ->
  (0 <= n)%Z.
Proof.
  unfold process_entry.
  assert (Hnone : forall t l loc ag,
             entry_data t l loc None None None None ag None !! k
               = Some (VInt n) -> In k reading_keys -> (0 <= n)%Z).
  { intros t l loc ag Hk [<-|[<-|[<-|[]]]]; discriminate Hk. }
  destruct (e_summary_detail entry) as [detail|];
    [|intros [= <-] Hk Hd; eapply Hnone; eauto].
  set (html := default EmptyString (sd_value detail)).
  destruct (search unavailable_re html);
    [intros [= <-] Hk Hd; eapply Hnone; eauto|].
  destruct (date_field_cases date_re report_date_format html)
    as [[_ ->]|[_ [rd ->]]]; [discriminate|].
  destruct (date_field_cases last_update_re last_update_format html)
    as [[_ ->]|[_ [lu ->]]]; [discriminate|].
  destruct (read_matches (findall air_quality_re html) no_readings)
    as [r|] eqn:Hr; [|discriminate].
  assert (Hnn : nonneg r).
  { eapply read_matches_nonneg; [|exact Hr]. intros [] v; discriminate. }
  unfold mbind, result_bind, rbind. intros [= <-] [<-|[<-|[<-|[]]]] Hd.
  - apply (Hnn PM25).
    change (Some (of_int (pm25 r)) = Some (VInt n)) in Hd.
    destruct r as [[a|] b c]; simpl in *; congruence.
  - apply (Hnn PM10).
    change (Some (of_int (pm10 r)) = Some (VInt n)) in Hd.
    destruct r as [a [b|] c]; simpl in *; congruence.
  - apply (Hnn Ozone).
    change (Some (of_int (ozone r)) = Some (VInt n)) in Hd.
    destruct r as [a b [c|]]; simpl in *; congruence.
Qed.

End WithExternals.
End FetchMore.

(** ** The parameter tuple and the store *)

Module StoreMore.
Import StrFacts KeyFacts Collect CollectMore StoreFacts RunFacts.

Section WithExternals.
Context `{Externals}.

Ltac unfold_db :=
  unfold save_entry, try_except, try_insert, except_insert, m_bind, lift,
    logger, add_log, cur_execute_insert, conn_commit, conn_rollback,
    db_call in *.

Ltac unfold_params :=
  unfold insert_params, getitem, location_key, or_raise, mbind, result_bind,
    rbind in *.

Lemma entry_keys_spec (k : string) :
  k ∈ entry_keys <->
  In k ["title"; "link"; "location"; "report_date"; "air_quality_pm25";
        "air_quality_pm10"; "air_quality_ozone"; "agency"; "last_update"].
Proof.
  unfold entry_keys. rewrite elem_of_list_to_set, list_elem_of_In.
  reflexivity.
Qed.

(** X5. The parameter tuple of the INSERT exists exactly for a dict that
    has all nine keys and a string as location; for any other dict
    building it raises [KeyError] or [AttributeError], before any call of
    the database driver. *)
Theorem X5_insert_params_exactly (entry : dict) :
  ((exists r, insert_params entry = Ok r) <->
   entry_keys ⊆ dom entry /\
   exists loc, entry !! "location" = Some (VStr loc)) /\
  (forall e, insert_params entry = Raise e ->
             e = KeyError \/ e = AttributeError).
Proof.
  split.
  - split.
    + intros [r Hr]. unfold_params.
      destruct (entry !! "title") eqn:H1; [|discriminate].
      destruct (entry !! "link") eqn:H2; [|discriminate].
      destruct (entry !! "location") as [vloc|] eqn:H3; [|discriminate].
      destruct vloc as [|loc| |]; try discriminate.
      destruct (entry !! "report_date") eqn:H4; [|discriminate].
      destruct (entry !! "air_quality_pm25") eqn:H5; [|discriminate].
      destruct (entry !! "air_quality_pm10") eqn:H6; [|discriminate].
      destruct (entry !! "air_quality_ozone") eqn:H7; [|discriminate].
      destruct (entry !! "agency") eqn:H8; [|discriminate].
      destruct (entry !! "last_update") eqn:H9; [|discriminate].
      split; [|eauto].
      intros k Hk. apply elem_of_dom. apply entry_keys_spec in Hk.
      simpl in Hk.
      repeat (destruct Hk as [<-|Hk]; [eauto|]). contradiction.
    + intros [Hdom [loc Hloc]].
      assert (Hk : forall k, k ∈ entry_keys -> is_Some (entry !! k))
        by (intros k Hk; apply elem_of_dom, Hdom, Hk).
      assert (Hin : forall k,
                 In k ["title"; "link"; "location"; "report_date";
                       "air_quality_pm25"; "air_quality_pm10";
                       "air_quality_ozone"; "agency"; "last_update"] ->
                 is_Some (entry !! k))
        by (intros k Hi; apply Hk, entry_keys_spec, Hi).
      unfold_params. rewrite Hloc.
      destruct (Hin "title") as [v1 ->]; [simpl; tauto|].
      destruct (Hin "link") as [v2 ->]; [simpl; tauto|].
      destruct (Hin "report_date") as [v4 ->]; [simpl; tauto|].
      destruct (Hin "air_quality_pm25") as [v5 ->]; [simpl; tauto|].
      destruct (Hin "air_quality_pm10") as [v6 ->]; [simpl; tauto|].
      destruct (Hin "air_quality_ozone") as [v7 ->]; [simpl; tauto|].
      destruct (Hin "agency") as [v8 ->]; [simpl; tauto|].
      destruct (Hin "last_update") as [v9 ->]; [simpl; tauto|].
      eauto.
  - intros e. unfold_params.
    repeat match goal with
           | |- context [match entry !! ?k with _ => _ end] =>
               destruct (entry !! k)
           | |- context [match ?v with VNone => _ | _ => _ end] =>
               destruct v
           end;
      intros [= <-]; auto.
Qed.

Lemma all_chars_app_inv p (s t : string) :
  Py.all_chars p (s ++ t) = true ->
  Py.all_chars p s = true /\ Py.all_chars p t = true.
Proof. rewrite all_chars_app. apply andb_true_iff. Qed.

(** X6. In every row that [save_to_db] sends to the database the location
    is a text without comma and without white space at either end, taken
    from the entry's location as its part before the first comma; the
    other eight columns are the entry's values, unchanged. *)
Theorem X6_stored_location_is_clean (entry : dict) (r : Row) :
  insert_params entry = Ok r ->
  exists loc key,
    entry !! "location" = Some (VStr loc) /\
    location r = VStr key /\
    is_location_key loc key /\
    Py.all_chars not_comma key = true /\
    trimmed key /\
    entry !! "title" = Some (title r) /\
    entry !! "link" = Some (link r) /\
    entry !! "report_date" = Some (report_date r) /\
    entry !! "air_quality_pm25" = Some (air_quality_pm25 r) /\
    entry !! "air_quality_pm10" = Some (air_quality_pm10 r) /\
    entry !! "air_quality_ozone" = Some (air_quality_ozone r) /\
    entry !! "agency" = Some (agency r) /\
    entry !! "last_update" = Some (last_update r).
Proof.
  unfold_params.
  destruct (entry !! "title") eqn:H1; [|discriminate].
  destruct (entry !! "link") eqn:H2; [|discriminate].
  destruct (entry !! "location") as [vloc|] eqn:H3; [|discriminate].
  destruct vloc as [|loc| |]; try discriminate.
  destruct (entry !! "report_date") eqn:H4; [|discriminate].
  destruct (entry !! "air_quality_pm25") eqn:H5; [|discriminate].
  destruct (entry !! "air_quality_pm10") eqn:H6; [|discriminate].
  destruct (entry !! "air_quality_ozone") eqn:H7; [|discriminate].
  destruct (entry !! "agency") eqn:H8; [|discriminate].
  destruct (entry !! "last_update") eqn:H9; [|discriminate].
  intros [= <-]. simpl.
  exists loc, (Py.strip (hd EmptyString (Py.split "," loc))).
  pose proof (location_key_spec loc) as Hkey.
  repeat split; auto.
  - destruct Hkey as (pre & post & l & r & _ & _ & Hpre & Hk & _).
    rewrite Hk in Hpre.
    apply all_chars_app_inv in Hpre as [_ Hpre].
    apply all_chars_app_inv in Hpre as [Hpre _]. exact Hpre.
  - destruct Hkey as (pre & post & l & r & _ & _ & _ & _ & _ & _ & Hs & _).
    exact Hs.
  - destruct Hkey as (pre & post & l & r & _ & _ & _ & _ & _ & _ & _ & He).
    exact He.
Qed.

(** X7. An entry for which the parameter tuple cannot be built is skipped
    without any statement: on a connection that answers, the failure is
    logged with the entry, the only call of the driver is the rollback,
    the table is unchanged and the loop goes on. *)
Theorem X7_malformed_entry_is_skipped (entry : dict) (e : exn) (w : World) :
  insert_params entry = Raise e ->
  txn w = table w ->
  hd false (faults w) = false ->
  save_entry entry w
  = (Ok (),
     {| table := table w; txn := table w;
        log := (log w ++ [Error_failed_to_insert entry e])%list;
        faults := tl (faults w) |}).
Proof.
  intros Hp Hidle Hf. destruct w as [tb tx lg fs]. simpl in *. subst tx.
  unfold_db. rewrite Hp. simpl.
  destruct fs as [|[] fs]; simpl in *; [reflexivity|discriminate|reflexivity].
Qed.

(** What one entry does to the table of an idle connection. *)
Lemma save_entry_table entry w res w' :
  txn w = table w ->
  save_entry entry w = (res, w') ->
  (table w' = table w \/
   exists r, insert_params entry = Ok r /\
             table w' = insert_do_nothing r (table w)) /\
  (res = Ok () -> txn w' = table w').
Proof.
  destruct w as [tb tx lg fs]. simpl. intros ->.
  unfold_db.
  destruct (insert_params entry) as [r|e]; simpl.
  - destruct fs as [|[] [|[] [|[] fs]]]; simpl;
      intros [= <- <-]; simpl; split; try discriminate; eauto.
  - destruct fs as [|[] fs]; simpl;
      intros [= <- <-]; simpl; split; try discriminate; auto.
Qed.

(** X8. Whatever fails during a batch, the unique index keeps holding on
    the committed table: when no two rows of the table collide before
    [save_to_db], no two rows collide after it. *)
Theorem X8_index_is_kept (data : list dict) (w w' : World)
        (res : result unit) :
  txn w = table w ->
  index_holds (table w) ->
  save_to_db data w = (res, w') ->
  index_holds (table w').
Proof.
  revert w. induction data as [|entry data IH]; intros w Hidle Hix; simpl.
  - unfold m_ret. now intros [= <- <-].
  - unfold m_bind at 1.
    destruct (save_entry entry w) as [[[]|e] w1] eqn:E.
    + destruct (save_entry_table _ _ _ _ Hidle E) as [Ht Hi].
      apply IH; [now apply Hi|].
      destruct Ht as [-> |(r & _ & ->)];
        [exact Hix | now apply insert_preserves_index].
    + intros [= <- <-].
      destruct (save_entry_table _ _ _ _ Hidle E) as [Ht _].
      destruct Ht as [-> |(r & _ & ->)];
        [exact Hix | now apply insert_preserves_index].
Qed.

End WithExternals.
End StoreMore.

(** ** Batches and runs *)

Module RunMore.
Import StrFacts Collect CollectMore StoreFacts RunFacts FetchMore.

Section WithExternals.
Context `{Externals}.

Ltac unfold_db :=
  unfold save_entry, try_except, try_insert, except_insert, m_bind, lift,
    logger, add_log, cur_execute_insert, conn_commit, conn_rollback,
    db_call in *.

Lemma entry_data_params t l loc rd a b c ag lu :
  insert_params (entry_data t l loc rd a b c ag lu)
  = Ok {| title := VStr t; link := VStr l;
          location := VStr (Py.strip (hd EmptyString (Py.split "," loc)));
          report_date := of_datetime rd;
          air_quality_pm25 := of_int a; air_quality_pm10 := of_int b;
          air_quality_ozone := of_int c; agency := VStr ag;
          last_update := of_datetime lu |}.
Proof. reflexivity. Qed.

Lemma extracted_has_params entry d :
  process_entry entry = Ok d -> exists r, insert_params d = Ok r.
Proof.
  intros Hd.
  apply process_entry_shape in Hd
    as (t & l & loc & rd & a & b & c & ag & lu & ->).
  rewrite entry_data_params. eauto.
Qed.

Lemma fetched_has_params url data :
  fetch_rss_feed url = Ok data ->
  Forall (fun d => exists r, insert_params d = Ok r) data.
Proof.
  unfold fetch_rss_feed, mbind, result_bind, rbind.
  destruct (feedparser_parse url) as [entries|]; [|discriminate].
  intros Hd. apply process_entries_each in Hd.
  induction Hd; constructor; eauto using extracted_has_params.
Qed.

Lemma rejected_none data :
  Forall (fun d => exists r, insert_params d = Ok r) data ->
  rejected data = [].
Proof.
  unfold rejected. induction 1 as [|d data [r Hr] _ IH]; simpl;
    [reflexivity|]. now rewrite Hr, IH.
Qed.

(** One entry on a connection that answers every call. *)
Lemma save_entry_healthy entry w :
  faults w = [] -> txn w = table w ->
  exists w',
    save_entry entry w = (Ok (), w') /\
    table w' = insert_entry (table w) entry /\
    txn w' = table w' /\
    log w' = (log w ++ rejected [entry])%list /\
    faults w' = [].
Proof.
  destruct w as [tb tx lg fs]. simpl. intros -> ->.
  unfold_db. unfold insert_entry, rejected. simpl.
  destruct (insert_params entry) as [r|e]; simpl;
    eexists; (split; [reflexivity|]); simpl;
    rewrite ?List.app_nil_r; auto.
Qed.

Lemma rejected_cons entry data :
  rejected (entry :: data) = (rejected [entry] ++ rejected data)%list.
Proof. unfold rejected. simpl. now rewrite List.app_nil_r. Qed.

Lemma save_to_db_healthy data : forall w,
  faults w = [] -> txn w = table w ->
  exists w',
    save_to_db data w = (Ok (), w') /\
    table w' = fold_left insert_entry data (table w) /\
    txn w' = table w' /\
    log w' = (log w ++ rejected data)%list /\
    faults w' = [].
Proof.
  induction data as [|entry data IH]; intros w Hf Hidle.
  - exists w. simpl. unfold m_ret, rejected. simpl.
    rewrite List.app_nil_r. auto.
  - destruct (save_entry_healthy entry w Hf Hidle)
      as (w1 & E1 & Ht1 & Hi1 & Hl1 & Hf1).
    destruct (IH w1 Hf1 Hi1) as (w' & E & Ht & Hi & Hl & Hf').
    exists w'. split; [simpl; unfold m_bind; now rewrite E1|].
    split; [simpl fold_left; now rewrite Ht, Ht1|].
    split; [exact Hi|]. split; [|exact Hf'].
    now rewrite Hl, Hl1, (rejected_cons entry data), <- List.app_assoc.
Qed.

Lemma insert_entry_grows rows entry :
  exists added,
    insert_entry rows entry = (rows ++ added)%list /\
    Forall (fun r => insert_params entry = Ok r) added.
Proof.
  unfold insert_entry.
  destruct (insert_params entry) as [r|e].
  - unfold insert_do_nothing. destruct (existsb _ _).
    + exists []. now rewrite List.app_nil_r.
    + exists [r]. split; [reflexivity|]. now constructor.
  - exists []. now rewrite List.app_nil_r.
Qed.

Lemma fold_insert_grows data : forall rows,
  exists added,
    fold_left insert_entry data rows = (rows ++ added)%list /\
    Forall (fun r => exists d, In d data /\ insert_params d = Ok r) added.
Proof.
  induction data as [|entry data IH]; intros rows; simpl.
  - exists []. now rewrite List.app_nil_r.
  - destruct (insert_entry_grows rows entry) as (a1 & -> & Ha1).
    destruct (IH (rows ++ a1)%list) as (a2 & -> & Ha2).
    exists (a1 ++ a2)%list. rewrite List.app_assoc. split; [reflexivity|].
    apply Forall_app. split.
    + eapply Forall_impl; [exact Ha1|]. simpl. eauto.
    + eapply Forall_impl; [exact Ha2|]. simpl.
      intros r (d & Hd & Hr). eauto.
Qed.

Lemma represented_app r rows added :
  represented r rows -> represented r (rows ++ added).
Proof.
  intros [Hin|(r' & Hin & Hc)]; [left|right; exists r'; split; [|exact Hc]];
    apply in_app_iff; auto.
Qed.

Lemma insert_represented r rows : represented r (insert_do_nothing r rows).
Proof.
  destruct (insert_cases r rows) as [(r' & Hin & Hc & ->)|[_ ->]].
  - right. eauto.
  - left. apply in_app_iff. right. now left.
Qed.

Lemma fold_insert_represented data : forall rows d r,
  In d data -> insert_params d = Ok r ->
  represented r (fold_left insert_entry data rows).
Proof.
  induction data as [|entry data IH]; intros rows d r [].
  - subst entry. intros Hr. simpl.
    destruct (fold_insert_grows data (insert_entry rows d)) as (a & -> & _).
    apply represented_app. unfold insert_entry. rewrite Hr.
    apply insert_represented.
  - intros Hr. simpl. now apply (IH _ d).
Qed.

(** X9. What [fetch_rss_feed] returns, [save_to_db] can store: on a
    connection that answers every call, the batch of a fetched feed is
    saved without an exception and without a log record; the table keeps
    its rows and gains only rows of the batch, and afterwards it holds,
    for every dict of the batch, its row or a row with the same
    (location, report_date) pair. *)
Theorem X9_fetched_feed_is_stored (url : string) (data : list dict)
        (w : World) :
  fetch_rss_feed url = Ok data ->
  faults w = [] ->
  txn w = table w ->
  exists w',
    save_to_db data w = (Ok (), w') /\
    log w' = log w /\
    txn w' = table w' /\
    (exists added,
        table w' = (table w ++ added)%list /\
        Forall (fun r => exists d, In d data /\ insert_params d = Ok r)
               added) /\
    Forall (fun d => exists r, insert_params d = Ok r /\
                               represented r (table w')) data.
Proof.
  intros Hfetch Hf Hidle.
  pose proof (fetched_has_params _ _ Hfetch) as Hp.
  destruct (save_to_db_healthy data w Hf Hidle)
    as (w' & E & Ht & Hi & Hl & _).
  exists w'. split; [exact E|].
  rewrite Hl, (rejected_none _ Hp), List.app_nil_r.
  repeat split; auto.
  - rewrite Ht. apply fold_insert_grows.
  - rewrite Ht. apply List.Forall_forall. intros d Hd.
    rewrite List.Forall_forall in Hp. destruct (Hp d Hd) as [r Hr].
    exists r. split; [exact Hr|].
    now apply (fold_insert_represented data (table w) d).
Qed.

Lemma fold_insert_fixed data : forall rows,
  (forall d r, In d data -> insert_params d = Ok r ->
               exists r', In r' rows /\ conflict r r' = true) ->
  fold_left insert_entry data rows = rows.
Proof.
  induction data as [|entry data IH]; intros rows Hall; simpl;
    [reflexivity|].
  assert (E : insert_entry rows entry = rows).
  { unfold insert_entry.
    destruct (insert_params entry) as [r|e] eqn:Hr; [|reflexivity].
    destruct (Hall entry r (or_introl eq_refl) Hr) as (r' & Hin & Hc).
    now apply (insert_skips r rows r'). }
  rewrite E. apply IH. intros d r Hd. apply Hall. now right.
Qed.

Lemma conflict_self r loc :
  location r = VStr loc ->
  report_date r <> VNone \/ nulls_distinct = false ->
  conflict r r = true.
Proof.
  intros Hl Hn. now apply (same_key_conflict r r loc).
Qed.

Lemma params_report_date d r :
  insert_params d = Ok r -> d !! "report_date" = Some (report_date r).
Proof.
  unfold insert_params, getitem, location_key, or_raise, mbind,
    result_bind, rbind.
  destruct (d !! "title"); [|discriminate].
  destruct (d !! "link"); [|discriminate].
  destruct (d !! "location") as [vloc|]; [|discriminate].
  destruct vloc; try discriminate.
  destruct (d !! "report_date"); [|discriminate].
  destruct (d !! "air_quality_pm25"); [|discriminate].
  destruct (d !! "air_quality_pm10"); [|discriminate].
  destruct (d !! "air_quality_ozone"); [|discriminate].
  destruct (d !! "agency"); [|discriminate].
  destruct (d !! "last_update"); [|discriminate].
  now intros [= <-].
Qed.

(** X10. Saving a batch twice is saving it once: on a connection that
    answers every call, a second [save_to_db] of the same batch leaves
    the table as the first one left it, provided every entry of the batch
    has a report date or the index treats two missing dates as equal. *)
Theorem X10_second_save_changes_nothing (data : list dict) (w : World) :
  faults w = [] ->
  txn w = table w ->
  nulls_distinct = false \/
  Forall (fun d : dict => d !! "report_date" <> Some VNone) data ->
  exists w1 w2,
    save_to_db data w = (Ok (), w1) /\
    save_to_db data w1 = (Ok (), w2) /\
    table w2 = table w1.
Proof.
  intros Hf Hidle Hdates.
  destruct (save_to_db_healthy data w Hf Hidle)
    as (w1 & E1 & Ht1 & Hi1 & _ & Hf1).
  destruct (save_to_db_healthy data w1 Hf1 Hi1)
    as (w2 & E2 & Ht2 & _).
  exists w1, w2. repeat split; auto.
  rewrite Ht2. apply fold_insert_fixed. intros d r Hd Hr.
  assert (Hself : conflict r r = true).
  { destruct (params_location d r Hr) as [key Hkey].
    apply (conflict_self r key Hkey).
    destruct Hdates as [Hn|Hall]; [now right|left].
    rewrite List.Forall_forall in Hall. specialize (Hall d Hd).
    rewrite (params_report_date d r Hr) in Hall. congruence. }
  rewrite Ht1.
  destruct (fold_insert_represented data (table w) d r Hd Hr)
    as [Hin|(r' & Hin & Hc)]; eauto.
Qed.

(** X11. An unavailability notice has no report date, so an index that
    tells two missing dates apart never stops it: on a connection that
    answers every call, each save of such an entry appends one more row
    for its location, whatever the table already holds. *)
Theorem X11_unavailable_notice_accumulates (entry : Entry)
        (detail : SummaryDetail) (m : Re.match_obj) (w : World) :
  nulls_distinct = true ->
  e_summary_detail entry = Some detail ->
  Re.search unavailable_re (default EmptyString (sd_value detail)) = Some m ->
  faults w = [] ->
  txn w = table w ->
  exists d r w',
    process_entry entry = Ok d /\
    save_to_db [d] w = (Ok (), w') /\
    table w' = (table w ++ [r])%list /\
    location r
    = VStr (Py.strip (hd EmptyString (Py.split "," (Re.group 1 m)))) /\
    report_date r = VNone.
Proof.
  intros Hn Hdetail Hm Hf Hidle.
  unfold process_entry. rewrite Hdetail. cbv zeta. rewrite Hm.
  eexists. eexists.
  destruct (save_to_db_healthy
              [entry_data (default "No title" (e_title entry))
                          (default "No link" (e_link entry))
                          (Re.group 1 m) None None None None
                          "No agency" None] w Hf Hidle)
    as (w' & E & Ht & _).
  exists w'. split; [reflexivity|]. split; [exact E|].
  rewrite Ht. simpl. unfold insert_entry. rewrite entry_data_params.
  split; [|split].
  - apply insert_appends. intros r' _. unfold conflict, index_eq. simpl.
    rewrite Hn. simpl. destruct (report_date r'); apply andb_false_r.
  - reflexivity.
  - reflexivity.
Qed.

End WithExternals.
End RunMore.

(** ** The handler *)

Module HandlerMore.
Import StrFacts Collect CollectMore StoreFacts RunFacts FetchMore RunMore.

Section WithExternals.
Context `{Externals}.

Ltac unfold_db :=
  unfold save_entry, try_except, try_insert, except_insert, m_bind, lift,
    logger, add_log, cur_execute_insert, conn_commit, conn_rollback,
    db_call in *.

Lemma save_entry_raise entry w e w' :
  save_entry entry w = (Raise e, w') ->
  e = DatabaseError /\
  table w' = table w /\
  exists e', log w' = (log w ++ [Error_failed_to_insert entry e'])%list.
Proof.
  destruct w as [tb tx lg fs]. unfold_db. simpl.
  destruct (insert_params entry) as [r|e0]; simpl.
  - destruct fs as [|[] [|[] [|[] fs]]]; simpl;
      intros [= <- <-]; simpl; eauto.
  - destruct fs as [|[] fs]; simpl; intros [= <- <-]; simpl; eauto.
Qed.

(** X12. The only exception that leaves [save_to_db] is the database
    driver's, raised by the [rollback] of the [except] block: the batch
    then stops at an entry whose failure was just logged, the entries
    before it were all handled, the entries after it are not attempted,
    and the failing entry leaves the committed table as it found it. *)
Theorem X12_only_a_failed_rollback_leaves_the_batch (data : list dict)
        (w w' : World) (e : exn) :
  save_to_db data w = (Raise e, w') ->
  e = DatabaseError /\
  exists before entry after w1 e',
    data = (before ++ entry :: after)%list /\
    save_to_db before w = (Ok (), w1) /\
    table w' = table w1 /\
    log w' = (log w1 ++ [Error_failed_to_insert entry e'])%list.
Proof.
  revert w. induction data as [|entry data IH]; intros w; simpl.
  - unfold m_ret. discriminate.
  - unfold m_bind at 1.
    destruct (save_entry entry w) as [[[]|e0] w1] eqn:E.
    + intros Hrest. destruct (IH _ Hrest)
        as (-> & before & bad & after & w2 & e' & -> & Hb & Ht & Hl).
      split; [reflexivity|].
      exists (entry :: before), bad, after, w2, e'.
      split; [reflexivity|]. split; [|auto].
      simpl. unfold m_bind. now rewrite E.
    + intros [= <- <-].
      destruct (save_entry_raise _ _ _ _ E) as (-> & Ht & e' & Hl).
      split; [reflexivity|].
      exists [], entry, data, w, e'. auto.
Qed.

Lemma quiet_app l1 l2 : quiet l1 -> quiet l2 -> quiet (l1 ++ l2).
Proof. unfold quiet. intros. apply Forall_app. auto. Qed.

Lemma advances_refl w : advances w w.
Proof.
  split; exists []; rewrite List.app_nil_r; [|split]; auto. constructor.
Qed.

Lemma advances_trans w1 w2 w3 :
  advances w1 w2 -> advances w2 w3 -> advances w1 w3.
Proof.
  intros [[a1 Ha1] (n1 & Hn1 & Hq1)] [[a2 Ha2] (n2 & Hn2 & Hq2)].
  split.
  - exists (a1 ++ a2)%list. now rewrite Ha2, Ha1, List.app_assoc.
  - exists (n1 ++ n2)%list. rewrite Hn2, Hn1, List.app_assoc.
    split; [reflexivity|]. now apply quiet_app.
Qed.

Lemma save_entry_log entry w res w' :
  save_entry entry w = (res, w') ->
  exists new, log w' = (log w ++ new)%list /\ quiet new.
Proof.
  destruct w as [tb tx lg fs]. unfold_db. simpl.
  assert (Hq : forall e, quiet [Error_failed_to_insert entry e])
    by (intros e; repeat constructor).
  assert (Hn : quiet []) by constructor.
  destruct (insert_params entry) as [r|e0]; simpl.
  - destruct fs as [|[] [|[] [|[] fs]]]; simpl;
      intros [= <- <-]; simpl; eauto;
      exists []; now rewrite List.app_nil_r.
  - destruct fs as [|[] fs]; simpl; intros [= <- <-]; simpl; eauto.
Qed.

Lemma save_entry_advances entry w res w' :
  txn w = table w ->
  save_entry entry w = (res, w') ->
  advances w w' /\ (res = Ok () -> txn w' = table w').
Proof.
  intros Hidle E.
  destruct (save_entry_grows _ _ _ _ Hidle E) as [Hg Hi].
  split; [|exact Hi]. split; [exact Hg|]. eapply save_entry_log, E.
Qed.

Lemma save_to_db_advances data : forall w res w',
  txn w = table w ->
  save_to_db data w = (res, w') ->
  advances w w' /\ (res = Ok () -> txn w' = table w').
Proof.
  induction data as [|entry data IH]; intros w res w' Hidle; simpl.
  - unfold m_ret. intros [= <- <-]. split; [apply advances_refl|auto].
  - unfold m_bind at 1.
    destruct (save_entry entry w) as [[[]|e] w1] eqn:E.
    + destruct (save_entry_advances _ _ _ _ Hidle E) as [Ha1 Hi1].
      intros Hrest.
      destruct (IH _ _ _ (Hi1 eq_refl) Hrest) as [Ha2 Hi2].
      split; [eapply advances_trans; eauto | exact Hi2].
    + intros [= <- <-].
      destruct (save_entry_advances _ _ _ _ Hidle E) as [Ha1 _].
      split; [exact Ha1 | discriminate].
Qed.

Lemma logger_info_advances url w :
  advances w (add_log (Info_processing_url url) w).
Proof.
  split; simpl.
  - exists []. now rewrite List.app_nil_r.
  - exists [Info_processing_url url]. split; [reflexivity|].
    repeat constructor.
Qed.

Lemma process_url_advances url w res w' :
  txn w = table w ->
  process_url url w = (res, w') ->
  advances w w' /\ (res = Ok () -> txn w' = table w').
Proof.
  intros Hidle. unfold process_url, m_bind, logger, lift.
  destruct (fetch_rss_feed url) as [data|e].
  - intros E.
    destruct (save_to_db_advances data (add_log (Info_processing_url url) w)
                                  res w' Hidle E) as [Ha Hi].
    split; [|exact Hi].
    eapply advances_trans; [apply logger_info_advances | exact Ha].
  - intros [= <- <-]. split; [apply logger_info_advances | discriminate].
Qed.

Lemma process_urls_advances urls : forall w res w',
  txn w = table w ->
  process_urls urls w = (res, w') ->
  advances w w' /\ (res = Ok () -> txn w' = table w').
Proof.
  induction urls as [|url urls IH]; intros w res w' Hidle; simpl.
  - unfold m_ret. intros [= <- <-]. split; [apply advances_refl|auto].
  - unfold m_bind at 1.
    destruct (process_url url w) as [[[]|e] w1] eqn:E.
    + destruct (process_url_advances _ _ _ _ Hidle E) as [Ha1 Hi1].
      intros Hrest.
      destruct (IH _ _ _ (Hi1 eq_refl) Hrest) as [Ha2 Hi2].
      split; [eapply advances_trans; eauto | exact Hi2].
    + intros [= <- <-].
      destruct (process_url_advances _ _ _ _ Hidle E) as [Ha1 _].
      split; [exact Ha1 | discriminate].
Qed.

(** X13. Whatever the feeds and the database do, a run of
    [lambda_handler] on a fresh connection never removes or changes a
    committed row and never raises: it answers 200 or 500; with 200 it
    logged no "Error occurred", with 500 the last record it logged is
    its one "Error occurred". *)
Theorem X13_handler_outcome (urls : list string) (w w' : World) (st : Z) :
  txn w = table w ->
  lambda_handler urls w = (st, w') ->
  (exists added, table w' = (table w ++ added)%list) /\
  exists new,
    log w' = (log w ++ new)%list /\
    ((st = 200%Z /\ quiet new) \/
     (st = 500%Z /\ exists before e,
         new = (before ++ [Error_occurred e])%list /\ quiet before)).
Proof.
  intros Hidle. unfold lambda_handler, try_except. unfold m_bind at 1.
  destruct (process_urls urls w) as [[[]|e] w1] eqn:E;
    destruct (process_urls_advances _ _ _ _ Hidle E)
      as [[Hg (new & Hl & Hq)] _].
  - unfold m_bind, conn_close, db_call, m_ret, logger, add_log.
    destruct (faults w1) as [|[] fs]; intros [= <- <-]; simpl;
      (split; [exact Hg|]).
    + exists new. auto.
    + exists (new ++ [Error_occurred DatabaseError])%list.
      rewrite Hl, List.app_assoc. split; [reflexivity|]. right. eauto.
    + exists new. auto.
  - unfold m_bind, m_ret, logger, add_log. intros [= <- <-]; simpl.
    split; [exact Hg|].
    exists (new ++ [Error_occurred e])%list.
    rewrite Hl, List.app_assoc. split; [reflexivity|]. right. eauto.
Qed.

Lemma process_url_healthy url data w :
  fetch_rss_feed url = Ok data ->
  faults w = [] -> txn w = table w ->
  exists w',
    process_url url w = (Ok (), w') /\
    table w' = store_feed (table w) url /\
    txn w' = table w' /\
    log w' = (log w ++ [Info_processing_url url])%list /\
    faults w' = [].
Proof.
  intros Hfetch Hf Hidle.
  destruct (save_to_db_healthy data (add_log (Info_processing_url url) w)
                               Hf Hidle) as (w' & E & Ht & Hi & Hl & Hf').
  exists w'. unfold process_url, m_bind, logger, lift, store_feed.
  rewrite Hfetch. split; [exact E|].
  rewrite (rejected_none _ (fetched_has_params _ _ Hfetch)),
    List.app_nil_r in Hl.
  auto.
Qed.

Lemma process_urls_healthy urls : forall w,
  faults w = [] -> txn w = table w ->
  (Forall readable urls /\
   exists w',
     process_urls urls w = (Ok (), w') /\
     table w' = fold_left store_feed urls (table w) /\
     log w' = (log w ++ map Info_processing_url urls)%list /\
     faults w' = []) \/
  (~ Forall readable urls /\
   exists e w', process_urls urls w = (Raise e, w')).
Proof.
  induction urls as [|url urls IH]; intros w Hf Hidle.
  - left. split; [constructor|]. exists w. simpl. unfold m_ret.
    rewrite List.app_nil_r. auto.
  - destruct (fetch_rss_feed url) as [data|e] eqn:Hfetch.
    + destruct (process_url_healthy url data w Hfetch Hf Hidle)
        as (w1 & E1 & Ht1 & Hi1 & Hl1 & Hf1).
      destruct (IH w1 Hf1 Hi1)
        as [[Hall (w' & E & Ht & Hl & Hf')]|[Hno (e & w' & E)]].
      * left. split; [constructor; [exists data; exact Hfetch | exact Hall]|].
        exists w'. split; [simpl; unfold m_bind; now rewrite E1|].
        split; [simpl fold_left; now rewrite Ht, Ht1|].
        split; [|exact Hf'].
        rewrite Hl, Hl1, <- List.app_assoc. reflexivity.
      * right. split; [intros Hall; apply Hno; now inversion Hall|].
        exists e, w'. simpl. unfold m_bind. now rewrite E1.
    + right. split.
      * intros Hall. inversion Hall as [|? ? [data Hd] _]; subst.
        rewrite Hfetch in Hd. discriminate.
      * exists e, (add_log (Info_processing_url url) w).
        simpl. unfold m_bind at 1.
        unfold process_url, m_bind, logger, lift. now rewrite Hfetch.
Qed.

(** X14. On a connection that answers every call, a run succeeds exactly
    when every feed can be fetched and extracted: the status is 200 if
    and only if [fetch_rss_feed] returns for every URL, and then the log
    holds one "Processing URL" per URL, in order, and nothing else, and
    the table is the one obtained by storing the feeds one after the
    other. *)
Theorem X14_healthy_run (urls : list string) (w w' : World) (st : Z) :
  faults w = [] ->
  txn w = table w ->
  lambda_handler urls w = (st, w') ->
  (st = 200%Z <-> Forall readable urls) /\
  (st = 200%Z ->
   log w' = (log w ++ map Info_processing_url urls)%list /\
   table w' = fold_left store_feed urls (table w)).
Proof.
  intros Hf Hidle. unfold lambda_handler, try_except. unfold m_bind at 1.
  destruct (process_urls_healthy urls w Hf Hidle)
    as [[Hall (w1 & E & Ht & Hl & Hf1)]|[Hno (e & w1 & E)]]; rewrite E.
  - unfold m_bind, conn_close, db_call, m_ret. rewrite Hf1.
    intros [= <- <-]. split; [tauto|]. auto.
  - unfold m_bind, m_ret, logger. intros [= <- <-].
    split; [|discriminate]. split; [discriminate|contradiction].
Qed.

End WithExternals.
End HandlerMore.

(** ** The trend computation *)

Module TrendMore.
Import Deliver TrendFacts.

Section WithFloats.
Context `{Floats}.

Lemma calculate_change_returns (start end_ : option Z) :
  exists c, calculate_change start end_ = Ok c.
Proof.
  unfold calculate_change, py_truediv, truthy, mbind, result_bind, rbind.
  destruct start as [s|], end_ as [e|]; simpl; eauto;
    destruct (s =? 0)%Z; simpl; eauto;
    destruct (e =? 0)%Z; simpl; eauto.
Qed.

Lemma direction_cases d :
  trend_direction d = "improving" \/ trend_direction d = "worsening" \/
  trend_direction d = "mixed".
Proof.
  unfold trend_direction.
  destruct (forallb is_negative _); [auto|].
  destruct (forallb is_positive _); auto.
Qed.

Lemma timeframe_check (timeframe : string) :
  negb (String.eqb timeframe "week" || String.eqb timeframe "month") = true
  <-> timeframe <> "week" /\ timeframe <> "month".
Proof.
  rewrite negb_true_iff, orb_false_iff, !String.eqb_neq. reflexivity.
Qed.

(** X15. The answer of the trend endpoint, once the query has returned:
    400 exactly for a timeframe other than "week" and "month", whatever
    the row; otherwise 404 exactly when there is no row; otherwise 200
    with the six keys in the order of the code, the request's location
    and timeframe, and one of the three directions.  Computing the
    answer from a row never fails: no row gives 500. *)
Theorem X15_trend_answer (location timeframe : string)
        (row : option trend_row) :
  let r := lambda_get_air_quality_trend location timeframe row in
  (r = Status_400 <-> timeframe <> "week" /\ timeframe <> "month") /\
  (r = Status_404 <->
   (timeframe = "week" \/ timeframe = "month") /\ row = None) /\
  r <> Status_500 /\
  (forall body, r = Status_200 body ->
     row <> None /\
     exists c1 c2 c3 dir,
       body = [("location", TStr location); ("timeframe", TStr timeframe);
               ("pm25_change", of_change c1); ("pm10_change", of_change c2);
               ("ozone_change", of_change c3);
               ("trend_direction", TStr dir)] /\
       (dir = "improving" \/ dir = "worsening" \/ dir = "mixed")).
Proof.
  cbv zeta. unfold lambda_get_air_quality_trend.
  pose proof (timeframe_check timeframe) as Htf.
  destruct (negb (String.eqb timeframe "week" || String.eqb timeframe "month"))
    eqn:Echeck.
  - assert (Hbad : timeframe <> "week" /\ timeframe <> "month")
      by now apply Htf.
    split; [tauto|]. split; [|split; [discriminate|discriminate]].
    split; [discriminate|]. intros [[Hw|Hm] _]; tauto.
  - assert (Hgood : timeframe = "week" \/ timeframe = "month").
    { apply negb_false_iff, orb_true_iff in Echeck.
      rewrite !String.eqb_eq in Echeck. exact Echeck. }
    destruct row as [result|]; simpl.
    + destruct (calculate_change_returns (start_pm25 result)
                                         (end_pm25 result)) as [c1 ->].
      destruct (calculate_change_returns (start_pm10 result)
                                         (end_pm10 result)) as [c2 ->].
      destruct (calculate_change_returns (start_ozone result)
                                         (end_ozone result)) as [c3 ->].
      simpl.
      split; [split; [discriminate|]; intros [Hw Hm]; destruct Hgood; tauto|].
      split; [split; [discriminate|]; intros [_ Hn]; discriminate|].
      split; [discriminate|].
      intros body [= <-]. split; [discriminate|].
      exists c1, c2, c3,
        (trend_direction (trend_data location timeframe c1 c2 c3)).
      split; [reflexivity|]. apply direction_cases.
    + split; [split; [discriminate|]; intros [Hw Hm]; destruct Hgood; tauto|].
      split; [tauto|]. split; discriminate.
Qed.

Lemma forallb_false_ex {A} (p : A -> bool) (l : list A) :
  forallb p l = false <-> exists x, In x l /\ p x = false.
Proof.
  induction l as [|a l IH]; simpl.
  - split; [discriminate|]. intros (x & [] & _).
  - rewrite andb_false_iff, IH. split.
    + intros [Ha|(x & Hin & Hx)]; eauto.
    + intros (x & [<-|Hin] & Hx); eauto.
Qed.

(** X16. The three directions, exactly: "improving" when every change
    that could be computed is below zero (also when none could),
    "worsening" when at least one computed change is not below zero and
    all of them are above zero, "mixed" when one computed change is not
    below zero and one is not above zero.  So a single computed change
    that is exactly zero makes the direction "mixed", and the location
    and timeframe texts never count. *)
Theorem X16_direction_exactly (location timeframe : string)
        (c1 c2 c3 : option float) :
  let dir := trend_direction (trend_data location timeframe c1 c2 c3) in
  let cs := present [c1; c2; c3] in
  (dir = "improving" <-> forall x, In x cs -> lt_zero x = true) /\
  (dir = "worsening" <->
   (exists x, In x cs /\ lt_zero x = false) /\
   forall x, In x cs -> gt_zero x = true) /\
  (dir = "mixed" <->
   (exists x, In x cs /\ lt_zero x = false) /\
   (exists x, In x cs /\ gt_zero x = false)).
Proof.
  cbv zeta. rewrite trend_direction_present.
  set (cs := present [c1; c2; c3]).
  destruct (forallb lt_zero cs) eqn:Hneg.
  - pose proof (proj1 (forallb_forall _ _) Hneg) as Hall.
    split; [tauto|].
    split; (split; [discriminate|]); intros [(x & Hin & Hx) _];
      rewrite (Hall x Hin) in Hx; discriminate.
  - pose proof (proj1 (forallb_false_ex _ _) Hneg) as Hex.
    assert (Hnot : ~ forall x, In x cs -> lt_zero x = true).
    { intros Hall. apply forallb_forall in Hall. congruence. }
    destruct (forallb gt_zero cs) eqn:Hpos.
    + pose proof (proj1 (forallb_forall _ _) Hpos) as Hall.
      split; [split; [discriminate|tauto]|].
      split; [tauto|].
      split; [discriminate|]. intros [_ (x & Hin & Hx)].
      rewrite (Hall x Hin) in Hx. discriminate.
    + pose proof (proj1 (forallb_false_ex _ _) Hpos) as Hex'.
      split; [split; [discriminate|tauto]|].
      split; [|tauto].
      split; [discriminate|]. intros [_ Hall].
      apply forallb_forall in Hall. congruence.
Qed.

(** X17. A reading that ends at 0 is left out like a missing one: the
    guard [if start and end] takes an end value of 0 for no value, so
    the change of a pollutant that fell to 0 is [None], not a fall of
    100 percent, and the answer is the one for a pollutant without end
    value. *)
Theorem X17_fall_to_zero_is_no_change (start : option Z) :
  calculate_change start (Some 0%Z) = Ok None /\
  forall location timeframe a b c d,
    lambda_get_air_quality_trend location timeframe
      (Some (Build_trend_row start (Some 0%Z) a b c d))
    = lambda_get_air_quality_trend location timeframe
        (Some (Build_trend_row start None a b c d)) /\
    lambda_get_air_quality_trend location timeframe
      (Some (Build_trend_row a b start (Some 0%Z) c d))
    = lambda_get_air_quality_trend location timeframe
        (Some (Build_trend_row a b start None c d)) /\
    lambda_get_air_quality_trend location timeframe
      (Some (Build_trend_row a b c d start (Some 0%Z)))
    = lambda_get_air_quality_trend location timeframe
        (Some (Build_trend_row a b c d start None)).
Proof.
  assert (Hz : calculate_change start (Some 0%Z) = Ok None).
  { unfold calculate_change, truthy. simpl. now rewrite andb_false_r. }
  assert (Hn : calculate_change start None = Ok None).
  { unfold calculate_change, truthy. now rewrite andb_false_r. }
  split; [exact Hz|].
  intros location timeframe a b c d.
  repeat split;
    unfold lambda_get_air_quality_trend, trend_response;
    cbn [start_pm25 end_pm25 start_pm10 end_pm10 start_ozone end_ozone];
    now rewrite Hz, Hn.
Qed.

End WithFloats.
End TrendMore.

(** ** The queries of the delivery endpoints *)

Module QueryFacts.
Import Collect CollectMore Deliver Query StoreFacts TrendMore.

(** *** The order of timestamps *)

Lemma lex_refl a : lex a a = Eq.
Proof. induction a as [|x a IH]; simpl; [|rewrite Z.compare_refl]; auto. Qed.

Lemma lex_eq a : forall b, lex a b = Eq -> a = b.
Proof.
  induction a as [|x a IH]; intros [|y b]; simpl; try discriminate; auto.
  destruct (Z.compare_spec x y); try discriminate.
  intros Hl. subst. f_equal. auto.
Qed.

Lemma lex_opp a : forall b, lex b a = CompOpp (lex a b).
Proof.
  induction a as [|x a IH]; intros [|y b]; simpl; auto.
  rewrite (Z.compare_antisym x y).
  destruct (x ?= y)%Z; simpl; auto.
Qed.

Lemma lex_trans a : forall b c,
  lex a b <> Gt -> lex b c <> Gt -> lex a c <> Gt.
Proof.
  induction a as [|x a IH]; intros [|y b] [|z c]; simpl; try congruence.
  destruct (Z.compare_spec x y), (Z.compare_spec y z),
    (Z.compare_spec x z); try congruence; try lia; subst; auto.
  apply IH.
Qed.

Lemma dt_compare_eq a b : dt_compare a b = Eq -> a = b.
Proof.
  unfold dt_compare. intros Hl. apply lex_eq in Hl.
  destruct a, b. unfold fields in Hl. simpl in Hl. congruence.
Qed.

Lemma dt_leb_refl a : dt_leb a a = true.
Proof. unfold dt_leb, dt_compare. now rewrite lex_refl. Qed.

Lemma dt_leb_spec a b : dt_leb a b = true <-> dt_compare a b <> Gt.
Proof.
  unfold dt_leb. destruct (dt_compare a b); split; congruence.
Qed.

Lemma dt_leb_trans a b c :
  dt_leb a b = true -> dt_leb b c = true -> dt_leb a c = true.
Proof. rewrite !dt_leb_spec. apply lex_trans. Qed.

Lemma dt_leb_total a b : dt_leb a b = true \/ dt_leb b a = true.
Proof.
  unfold dt_leb, dt_compare. rewrite (lex_opp (fields a) (fields b)).
  destruct (lex (fields a) (fields b)); simpl; auto.
Qed.

Lemma dt_leb_antisym a b :
  dt_leb a b = true -> dt_leb b a = true -> a = b.
Proof.
  unfold dt_leb. unfold dt_compare at 2.
  rewrite (lex_opp (fields a) (fields b)).
  fold (dt_compare a b).
  destruct (dt_compare a b) eqn:E; simpl; try discriminate.
  intros _ _. now apply dt_compare_eq.
Qed.

(** *** [MIN] and [MAX] *)

Lemma fold_later ds : forall d,
  let m := fold_left later ds d in
  (m = d \/ In m ds) /\ dt_leb d m = true /\
  forall d', In d' ds -> dt_leb d' m = true.
Proof.
  induction ds as [|x ds IH]; intros d; simpl.
  - split; [auto|]. split; [apply dt_leb_refl|tauto].
  - destruct (IH (later d x)) as (Hin & Hle & Hall).
    assert (Hd : dt_leb d (later d x) = true).
    { unfold later. destruct (dt_leb d x) eqn:E; [auto|apply dt_leb_refl]. }
    assert (Hx : dt_leb x (later d x) = true).
    { unfold later. destruct (dt_leb d x) eqn:E; [apply dt_leb_refl|].
      destruct (dt_leb_total d x); congruence. }
    split; [|split].
    + destruct Hin as [Hm|Hm]; [|auto].
      rewrite Hm. unfold later. destruct (dt_leb d x); auto.
    + eapply dt_leb_trans; eauto.
    + intros d' [<-|Hd']; [eapply dt_leb_trans; eauto | auto].
Qed.

Lemma fold_earlier ds : forall d,
  let m := fold_left earlier ds d in
  (m = d \/ In m ds) /\ dt_leb m d = true /\
  forall d', In d' ds -> dt_leb m d' = true.
Proof.
  induction ds as [|x ds IH]; intros d; simpl.
  - split; [auto|]. split; [apply dt_leb_refl|tauto].
  - destruct (IH (earlier d x)) as (Hin & Hle & Hall).
    assert (Hd : dt_leb (earlier d x) d = true).
    { unfold earlier. destruct (dt_leb d x) eqn:E; [apply dt_leb_refl|].
      destruct (dt_leb_total d x); congruence. }
    assert (Hx : dt_leb (earlier d x) x = true).
    { unfold earlier. destruct (dt_leb d x) eqn:E; [auto|apply dt_leb_refl]. }
    split; [|split].
    + destruct Hin as [Hm|Hm]; [|auto].
      rewrite Hm. unfold earlier. destruct (dt_leb d x); auto.
    + eapply dt_leb_trans; eauto.
    + intros d' [<-|Hd']; [eapply dt_leb_trans; eauto | auto].
Qed.

Lemma sql_max_spec ds :
  match sql_max ds with
  | None => ds = []
  | Some m => In m ds /\ forall d, In d ds -> dt_leb d m = true
  end.
Proof.
  destruct ds as [|d ds]; simpl; [reflexivity|].
  destruct (fold_later ds d) as (Hin & Hle & Hall).
  split; [destruct Hin as [Hm|Hm]; [left; now rewrite Hm | now right]|].
  intros d' [<-|Hd']; auto.
Qed.

Lemma sql_min_spec ds :
  match sql_min ds with
  | None => ds = []
  | Some m => In m ds /\ forall d, In d ds -> dt_leb m d = true
  end.
Proof.
  destruct ds as [|d ds]; simpl; [reflexivity|].
  destruct (fold_earlier ds d) as (Hin & Hle & Hall).
  split; [destruct Hin as [Hm|Hm]; [left; now rewrite Hm | now right]|].
  intros d' [<-|Hd']; auto.
Qed.


(** *** The trend query *)

Section WithExternals.
Context `{Externals} `{Floats}.

Lemma filter_nil {A} (p : A -> bool) (l : list A) :
  (forall x, In x l -> p x = false) -> List.filter p l = [].
Proof.
  induction l as [|a l IH]; simpl; intros Hall; [reflexivity|].
  rewrite (Hall a) by auto. apply IH. auto.
Qed.

Lemma index_holds_filter (p : Row -> bool) rows :
  index_holds rows -> index_holds (List.filter p rows).
Proof.
  induction rows as [|a rows IH]; simpl; [auto|].
  intros [Hno Hix]. destruct (p a); simpl; [split|]; auto.
  intros r' Hr'. apply filter_In in Hr'. apply Hno, Hr'.
Qed.

Lemma location_is_spec loc r :
  location_is loc r = true <-> location r = VStr loc.
Proof.
  unfold location_is. destruct (location r); split; try discriminate.
  - intros He. apply String.eqb_eq in He. now subst.
  - intros [= ->]. apply String.eqb_refl.
Qed.

Lemma date_is_spec d r :
  date_is (Some d) r = true <-> report_date r = VDatetime d.
Proof.
  unfold date_is, date_of. destruct (report_date r); split;
    try discriminate.
  - intros He. apply bool_decide_eq_true in He. now subst.
  - intros [= ->]. now apply bool_decide_eq_true.
Qed.

Lemma same_pair_conflict r1 r2 loc d :
  location_is loc r1 = true -> location_is loc r2 = true ->
  date_is (Some d) r1 = true -> date_is (Some d) r2 = true ->
  conflict r1 r2 = true.
Proof.
  rewrite !location_is_spec, !date_is_spec. intros Hl1 Hl2 Hd1 Hd2.
  apply (same_key_conflict r1 r2 loc); auto; [congruence|].
  left. congruence.
Qed.

Lemma at_most_one loc x rows r1 r2 rest :
  index_holds rows ->
  List.filter (fun r => location_is loc r && date_is x r) rows
  = r1 :: r2 :: rest -> False.
Proof.
  intros Hix Hf.
  pose proof (index_holds_filter
                (fun r => location_is loc r && date_is x r) rows Hix) as Hfx.
  rewrite Hf in Hfx. destruct Hfx as [Hno _].
  assert (H1 : In r1 (List.filter
                        (fun r => location_is loc r && date_is x r) rows))
    by (rewrite Hf; simpl; auto).
  assert (H2 : In r2 (List.filter
                        (fun r => location_is loc r && date_is x r) rows))
    by (rewrite Hf; simpl; auto).
  apply filter_In in H1 as [_ H1]. apply filter_In in H2 as [_ H2].
  apply andb_true_iff in H1 as [Hl1 Hd1].
  apply andb_true_iff in H2 as [Hl2 Hd2].
  destruct x as [d|]; [|discriminate].
  specialize (Hno r2 (or_introl eq_refl)).
  rewrite (same_pair_conflict r1 r2 loc d) in Hno by assumption.
  discriminate.
Qed.

Lemma reading_at_unique col loc x rows :
  index_holds rows -> exists v, reading_at col loc x rows = Ok v.
Proof.
  intros Hix. unfold reading_at.
  destruct (List.filter _ rows) as [|r1 [|r2 rest]] eqn:Hf; simpl; eauto.
  destruct (at_most_one loc x rows r1 r2 rest Hix Hf).
Qed.

Lemma reading_at_exact col loc d rows r1 :
  index_holds rows -> In r1 rows ->
  location_is loc r1 = true -> date_of r1 = Some d ->
  reading_at col loc (Some d) rows = Ok (col r1).
Proof.
  intros Hix Hin Hl Hd. unfold reading_at.
  assert (Hd' : date_is (Some d) r1 = true).
  { unfold date_is. rewrite Hd. now apply bool_decide_eq_true. }
  assert (H1 : In r1 (List.filter
                        (fun r => location_is loc r && date_is (Some d) r)
                        rows)).
  { apply filter_In. split; [exact Hin|]. now rewrite Hl, Hd'. }
  destruct (List.filter _ rows) as [|a [|b rest]] eqn:Hf; simpl.
  - destruct H1.
  - destruct H1 as [->|[]]. reflexivity.
  - destruct (at_most_one loc (Some d) rows a b rest Hix Hf).
Qed.

Lemma reading_at_null col loc rows :
  reading_at col loc None rows = Ok VNone.
Proof.
  unfold reading_at. rewrite filter_nil; [reflexivity|].
  intros r _. unfold date_is. apply andb_false_r.
Qed.

Lemma trend_query_rows location start rows rs :
  trend_query location start rows = Ok rs -> exists row, rs = [row].
Proof.
  unfold trend_query, mbind, result_bind, rbind.
  repeat match goal with
         | |- context [match reading_at ?c ?l ?x ?r with _ => _ end] =>
             destruct (reading_at c l x r); [|discriminate]
         end.
  intros [= <-]. eauto.
Qed.

Lemma trend_response_some location timeframe row :
  exists body,
    trend_response location timeframe (Some row) = Ok (Status_200 body).
Proof.
  unfold trend_response.
  destruct (calculate_change_returns (start_pm25 row) (end_pm25 row))
    as [c1 ->].
  destruct (calculate_change_returns (start_pm10 row) (end_pm10 row))
    as [c2 ->].
  destruct (calculate_change_returns (start_ozone row) (end_ozone row))
    as [c3 ->].
  simpl. eauto.
Qed.

Lemma trend_endpoint_ok (days_ago : Z -> datetime) (rows : list Row)
      (location timeframe : string) :
  index_holds rows ->
  timeframe = "week" \/ timeframe = "month" ->
  exists body,
    trend_endpoint days_ago (Ok rows) location timeframe = Status_200 body.
Proof.
  intros Hix Htf. unfold trend_endpoint.
  assert (Hcheck : negb (String.eqb timeframe "week"
                         || String.eqb timeframe "month") = false).
  { destruct Htf as [-> | ->]; reflexivity. }
  rewrite Hcheck. cbv zeta.
  set (start := days_ago _).
  unfold trend_query, mbind, result_bind, rbind.
  repeat match goal with
         | |- context [match reading_at ?c ?l ?x ?r with _ => _ end] =>
             let v := fresh "v" in
             destruct (reading_at_unique c l x r Hix) as [v ->]
         end.
  match goal with
  | |- context [head [?row]] => change (head [row]) with (Some row)
  end.
  match goal with
  | |- context [trend_response _ _ (Some ?row)] =>
      destruct (trend_response_some location timeframe row) as [body ->]
  end.
  eauto.
Qed.

(** X18. The trend query always returns one row, so the endpoint never
    answers 404 "No data found for this location and timeframe": the
    aggregate over the window gives a row of NULLs when the window is
    empty.  The query can only fail when two rows have the same
    location and the same report date; on a table on which the unique
    index holds, every request with a valid timeframe is answered
    200. *)
Theorem X18_trend_never_404 (days_ago : Z -> datetime) (rows : list Row)
        (location timeframe : string) :
  (forall start rs,
      trend_query location start rows = Ok rs -> exists row, rs = [row]) /\
  trend_endpoint days_ago (Ok rows) location timeframe <> Status_404 /\
  (index_holds rows ->
   timeframe = "week" \/ timeframe = "month" ->
   exists body,
     trend_endpoint days_ago (Ok rows) location timeframe
     = Status_200 body).
Proof.
  split; [intros start rs; apply trend_query_rows|]. split.
  - unfold trend_endpoint.
    destruct (negb _); [discriminate|]. cbv zeta.
    unfold mbind, result_bind, rbind.
    destruct (trend_query location _ rows) as [rs|e] eqn:E;
      [|discriminate].
    apply trend_query_rows in E as [row ->].
    change (head [row]) with (Some row).
    destruct (trend_response_some location timeframe row) as [body ->].
    discriminate.
  - apply trend_endpoint_ok.
Qed.

(** X19. A location without any report in the window, in particular a
    location the table has never seen, is answered 200 with no change and
    the direction "improving". *)
Theorem X19_no_data_is_improving (days_ago : Z -> datetime)
        (rows : list Row) (location timeframe : string) :
  timeframe = "week" \/ timeframe = "month" ->
  (forall r, In r rows ->
     in_window location
               (days_ago (if String.eqb timeframe "week" then 7 else 30)%Z)
               r = false) ->
  trend_endpoint days_ago (Ok rows) location timeframe
  = Status_200
      [("location", TStr location); ("timeframe", TStr timeframe);
       ("pm25_change", TNone); ("pm10_change", TNone);
       ("ozone_change", TNone); ("trend_direction", TStr "improving")].
Proof.
  intros Htf Hnone. unfold trend_endpoint.
  assert (Hcheck : negb (String.eqb timeframe "week"
                         || String.eqb timeframe "month") = false).
  { destruct Htf as [-> | ->]; reflexivity. }
  rewrite Hcheck. cbv zeta.
  unfold trend_query, date_range, mbind, result_bind, rbind.
  cbv beta iota zeta.
  rewrite (filter_nil _ rows Hnone). simpl omap. simpl sql_min.
  simpl sql_max. simpl fst. simpl snd.
  rewrite !reading_at_null. reflexivity.
Qed.

Lemma In_omap {A B} (f : A -> option B) (l : list A) (y : B) :
  In y (omap f l) <-> exists x, In x l /\ f x = Some y.
Proof.
  induction l as [|a l IH]; simpl.
  - split; [tauto|]. intros (x & [] & _).
  - destruct (f a) as [b|] eqn:E; simpl; rewrite ?IH; split.
    + intros [<-|(x & Hin & Hx)]; eauto.
    + intros (x & [<-|Hin] & Hx); [left; congruence|right; eauto].
    + intros (x & Hin & Hx); eauto.
    + intros (x & [<-|Hin] & Hx); [congruence|eauto].
Qed.

Lemma in_window_date loc start r :
  in_window loc start r = true ->
  location_is loc r = true /\ exists d, date_of r = Some d.
Proof.
  unfold in_window, not_before. intros Hw.
  apply andb_true_iff in Hw as [Hl Hd]. split; [exact Hl|].
  destruct (date_of r); [eauto|discriminate].
Qed.

(** X20. On a table on which the unique index holds, the trend of a
    location with a report in the window compares the readings of its
    earliest report in the window with those of its latest one: no report
    of the location in the window is earlier than the first or later than
    the second, and the reports between them do not count. *)
Theorem X20_trend_compares_first_and_last (loc : string) (start : datetime)
        (rows : list Row) (r0 : Row) :
  index_holds rows ->
  In r0 rows ->
  in_window loc start r0 = true ->
  exists r1 r2 d1 d2,
    In r1 rows /\ in_window loc start r1 = true /\ date_of r1 = Some d1 /\
    In r2 rows /\ in_window loc start r2 = true /\ date_of r2 = Some d2 /\
    (forall r d, In r rows -> in_window loc start r = true ->
                 date_of r = Some d ->
                 dt_leb d1 d = true /\ dt_leb d d2 = true) /\
    trend_query loc start rows
    = Ok [ {| start_pm25 := as_int (air_quality_pm25 r1);
              end_pm25 := as_int (air_quality_pm25 r2);
              start_pm10 := as_int (air_quality_pm10 r1);
              end_pm10 := as_int (air_quality_pm10 r2);
              start_ozone := as_int (air_quality_ozone r1);
              end_ozone := as_int (air_quality_ozone r2) |} ].
Proof.
  intros Hix Hin0 Hw0.
  set (ds := omap date_of (List.filter (in_window loc start) rows)).
  assert (Hds : forall d, In d ds <->
                  exists r, In r rows /\ in_window loc start r = true /\
                            date_of r = Some d).
  { intros d. unfold ds. rewrite In_omap. split.
    - intros (r & Hr & Hd). apply filter_In in Hr as [Hr Hw]. eauto.
    - intros (r & Hr & Hw & Hd). exists r. split; [|exact Hd].
      apply filter_In. auto. }
  destruct (in_window_date _ _ _ Hw0) as [_ [d0 Hd0]].
  assert (Hne : In d0 ds) by (apply Hds; eauto).
  pose proof (sql_min_spec ds) as Hmin.
  pose proof (sql_max_spec ds) as Hmax.
  destruct (sql_min ds) as [d1|] eqn:Emin;
    [|rewrite Hmin in Hne; destruct Hne].
  destruct (sql_max ds) as [d2|] eqn:Emax;
    [|rewrite Hmax in Hne; destruct Hne].
  destruct Hmin as [Hin1 Hle1]. destruct Hmax as [Hin2 Hle2].
  apply Hds in Hin1 as (r1 & Hr1 & Hw1 & Hd1).
  apply Hds in Hin2 as (r2 & Hr2 & Hw2 & Hd2).
  exists r1, r2, d1, d2.
  repeat (split; [assumption|]).
  split.
  - intros r d Hr Hw Hd.
    assert (In d ds) by (apply Hds; eauto). auto.
  - destruct (in_window_date _ _ _ Hw1) as [Hl1 _].
    destruct (in_window_date _ _ _ Hw2) as [Hl2 _].
    unfold trend_query, date_range. fold ds. cbv zeta.
    rewrite Emin, Emax. cbn [fst snd].
    rewrite !(reading_at_exact _ loc d1 rows r1 Hix Hr1 Hl1 Hd1).
    rewrite !(reading_at_exact _ loc d2 rows r2 Hix Hr2 Hl2 Hd2).
    reflexivity.
Qed.

(** *** The event *)

(** X21. The trend endpoint answers a request only when the event has a
    dict of path parameters with a location and a dict of query string
    parameters; with the query string parameters absent or [None] an
    exception leaves the handler, so the default timeframe "week" applies
    only to a dict that lacks the key.  A timeframe other than "week" and
    "month" is answered 400 without the database, whatever its state. *)
Theorem X21_trend_event (days_ago : Z -> datetime) (db : result (list Row))
        (event : Event) :
  ((exists r, trend_handler days_ago db event = inr r) <->
   exists d q location,
     pathParameters event = Params d /\ d !! "location" = Some location /\
     queryStringParameters event = Params q) /\
  (queryStringParameters event = Null ->
   exists e, trend_handler days_ago db event = inl e) /\
  (forall d q location,
      pathParameters event = Params d -> d !! "location" = Some location ->
      queryStringParameters event = Params q ->
      trend_handler days_ago db event
      = inr (trend_endpoint days_ago db location
                            (default "week" (q !! "timeframe")))) /\
  (forall location timeframe,
      timeframe <> "week" -> timeframe <> "month" ->
      trend_endpoint days_ago db location timeframe = Status_400).
Proof.
  unfold trend_handler, path_location, query_timeframe.
  split; [|split; [|split]].
  - split.
    + destruct (pathParameters event) as [| |d];
        [intros [? [=]] | intros [? [=]] |].
      destruct (d !! "location") as [location|] eqn:El;
        [|intros [? [=]]].
      destruct (queryStringParameters event) as [| |q];
        [intros [? [=]] | intros [? [=]] |].
      intros _. exists d, q, location. auto.
    + intros (d & q & location & -> & Hl & ->). rewrite Hl. eauto.
  - intros ->. destruct (pathParameters event) as [| |d]; eauto.
    destruct (d !! "location"); eauto.
  - intros d q location -> Hl ->. now rewrite Hl.
  - intros location timeframe Hw Hm. unfold trend_endpoint.
    apply String.eqb_neq in Hw. apply String.eqb_neq in Hm.
    now rewrite Hw, Hm.
Qed.

End WithExternals.

(** *** The current reading *)

Lemma sorts_before_asym a b :
  sorts_before a b = true -> sorts_before b a = false.
Proof.
  unfold sorts_before.
  destruct (date_of a) as [x|], (date_of b) as [y|]; try discriminate; auto.
  unfold dt_compare. rewrite (lex_opp (fields x) (fields y)).
  destruct (lex (fields x) (fields y)); simpl; auto; discriminate.
Qed.

Lemma sorts_before_irrefl a : sorts_before a a = false.
Proof.
  unfold sorts_before. destruct (date_of a) as [x|]; [|reflexivity].
  unfold dt_compare. now rewrite lex_refl.
Qed.

Lemma not_before_dates a b x y :
  date_of a = Some x -> date_of b = Some y ->
  sorts_before a b = false <-> dt_leb x y = true.
Proof.
  intros Ha Hb. unfold sorts_before, dt_leb. rewrite Ha, Hb.
  destruct (dt_compare x y); split; congruence.
Qed.

(** [sorts_before b a = false]: [a] comes before [b] or ties with it. *)
Lemma ties_trans a b c :
  sorts_before b a = false -> sorts_before c b = false ->
  sorts_before c a = false.
Proof.
  unfold sorts_before.
  destruct (date_of a) as [x|], (date_of b) as [y|], (date_of c) as [z|];
    try discriminate; auto.
  intros H1 H2.
  destruct (dt_compare z x) eqn:E; auto.
  assert (Hyx : dt_compare y x <> Gt) by (destruct (dt_compare y x); congruence).
  assert (Hzy : dt_compare z y <> Gt) by (destruct (dt_compare z y); congruence).
  destruct (lex_trans _ _ _ Hzy Hyx). exact E.
Qed.

Lemma top_fold rows : forall best,
  match fold_left (fun best r =>
                     match best with
                     | None => Some r
                     | Some b => if sorts_before r b then Some r else Some b
                     end) rows best with
  | None => best = None /\ rows = []
  | Some r =>
      (best = Some r \/ In r rows) /\
      (forall b, best = Some b -> sorts_before b r = false) /\
      (forall r', In r' rows -> sorts_before r' r = false)
  end.
Proof.
  induction rows as [|a rows IH]; intros best; simpl.
  - destruct best as [b|]; [|auto].
    split; [auto|]. split; [|tauto].
    intros b' [= <-]. apply sorts_before_irrefl.
  - specialize (IH (match best with
                    | None => Some a
                    | Some b => if sorts_before a b then Some a else Some b
                    end)).
    destruct (fold_left _ rows _) as [r|].
    + destruct IH as (Hin & Hbest & Hall).
      destruct best as [b|].
      * destruct (sorts_before a b) eqn:E.
        -- pose proof (Hbest a eq_refl) as Har.
           split; [destruct Hin as [[= <-]|Hin]; auto|].
           split.
           ++ intros b' [= <-].
              apply (ties_trans r a b); [exact Har|].
              now apply sorts_before_asym.
           ++ intros r' [<-|Hr']; auto.
        -- pose proof (Hbest b eq_refl) as Hbr.
           split; [destruct Hin as [[= <-]|Hin]; auto|].
           split; [intros b' [= <-]; exact Hbr|].
           intros r' [<-|Hr']; [|auto].
           apply (ties_trans r b a); assumption.
      * pose proof (Hbest a eq_refl) as Har.
        split; [destruct Hin as [[= <-]|Hin]; auto|].
        split; [discriminate|].
        intros r' [<-|Hr']; auto.
    + destruct IH as [Hbest _]. destruct best as [b|].
      * destruct (sorts_before a b); discriminate.
      * discriminate.
Qed.

Lemma top_spec rows :
  match top rows with
  | None => rows = []
  | Some r => In r rows /\ forall r', In r' rows -> sorts_before r' r = false
  end.
Proof.
  unfold top. pose proof (top_fold rows None) as Hf.
  destruct (fold_left _ rows None) as [r|].
  - destruct Hf as ([Hb|Hin] & _ & Hall); [discriminate|auto].
  - tauto.
Qed.

Lemma current_query_spec loc rows :
  match current_query loc rows with
  | None => forall r, In r rows -> location_is loc r = false
  | Some r =>
      In r rows /\ location_is loc r = true /\
      forall r', In r' rows -> location_is loc r' = true ->
                 sorts_before r' r = false
  end.
Proof.
  unfold current_query.
  pose proof (top_spec (List.filter (location_is loc) rows)) as Ht.
  destruct (top _) as [r|].
  - destruct Ht as [Hin Hall]. apply filter_In in Hin as [Hin Hl].
    repeat split; auto. intros r' Hr' Hl'. apply Hall, filter_In. auto.
  - intros r Hr. destruct (location_is loc r) eqn:E; [|reflexivity].
    assert (Hin : In r (List.filter (location_is loc) rows))
      by (apply filter_In; auto).
    rewrite Ht in Hin. destruct Hin.
Qed.

Lemma typed_body location r :
  typed r -> date_of r = None ->
  exists v1 v2 v3,
    current_body location r
    = Some [("location", JString location); ("timestamp", JNull);
            ("pm25", v1); ("pm10", v2); ("ozone", v3)].
Proof.
  intros (_ & Hd & Hcols) Hnone. unfold current_body.
  assert (Hrd : report_date r = VNone).
  { destruct Hd as [Hd|[d Hd]]; [exact Hd|].
    unfold date_of in Hnone. rewrite Hd in Hnone. discriminate. }
  rewrite Hrd. simpl.
  destruct (Hcols air_quality_pm25) as [-> |[n1 ->]]; [simpl; tauto| |];
    destruct (Hcols air_quality_pm10) as [-> |[n2 ->]];
    try (simpl; tauto);
    destruct (Hcols air_quality_ozone) as [-> |[n3 ->]];
    try (simpl; tauto); simpl; eauto.
Qed.

Lemma typed_has_body location r :
  typed r -> exists body, current_body location r = Some body.
Proof.
  intros (_ & Hd & Hcols). unfold current_body.
  destruct Hd as [-> |[d ->]];
    destruct (Hcols air_quality_pm25) as [-> |[n1 ->]];
    try (simpl; tauto);
    destruct (Hcols air_quality_pm10) as [-> |[n2 ->]];
    try (simpl; tauto);
    destruct (Hcols air_quality_ozone) as [-> |[n3 ->]];
    try (simpl; tauto); simpl; eauto.
Qed.

(** X22. A row without report date hides every reading of its location:
    [ORDER BY report_date DESC] puts NULL first, so as soon as the table
    holds such a row for a location (the row the collector stores for an
    unavailability notice), the current reading of that location is
    answered 200 with the timestamp [null], however many dated reports
    the table has for it. *)
Theorem X22_row_without_date_hides_readings (rows : list Row)
        (location : string) (r0 : Row) :
  Forall typed rows ->
  In r0 rows ->
  Collect.location r0 = VStr location ->
  report_date r0 = VNone ->
  exists v1 v2 v3,
    lambda_get_current_air_quality (Ok rows) location
    = Current_200
        [("location", JString location); ("timestamp", JNull);
         ("pm25", v1); ("pm10", v2); ("ozone", v3)].
Proof.
  intros Htyped Hin0 Hl0 Hd0. unfold lambda_get_current_air_quality.
  pose proof (current_query_spec location rows) as Hq.
  assert (Hloc0 : location_is location r0 = true).
  { unfold location_is. rewrite Hl0. apply String.eqb_refl. }
  destruct (current_query location rows) as [r|].
  - destruct Hq as (Hin & Hl & Hall).
    assert (Hnone : date_of r = None).
    { specialize (Hall r0 Hin0 Hloc0). unfold sorts_before in Hall.
      unfold date_of at 1 in Hall. rewrite Hd0 in Hall.
      destruct (date_of r); [discriminate|reflexivity]. }
    rewrite List.Forall_forall in Htyped.
    destruct (typed_body location r (Htyped r Hin) Hnone)
      as (v1 & v2 & v3 & ->).
    eauto.
  - rewrite (Hq r0 Hin0) in Hloc0. discriminate.
Qed.

(** X23. The current reading of a location is looked up exactly: the
    answer is 404 if and only if no row has the location; otherwise the
    row that is read has the location and no row of the location comes
    before it in the order of the query, so when it has a report date, every row
    of the location has one, and none is later. *)
Theorem X23_current_is_latest (rows : list Row) (location : string) :
  (lambda_get_current_air_quality (Ok rows) location = Current_404 <->
   forall r, In r rows -> location_is location r = false) /\
  (forall r, current_query location rows = Some r ->
     In r rows /\ location_is location r = true /\
     forall d, date_of r = Some d ->
       forall r', In r' rows -> location_is location r' = true ->
         exists d', date_of r' = Some d' /\ dt_leb d' d = true).
Proof.
  pose proof (current_query_spec location rows) as Hq.
  unfold lambda_get_current_air_quality. split.
  - destruct (current_query location rows) as [r|].
    + destruct Hq as (Hin & Hl & _). split.
      * destruct (current_body location r); discriminate.
      * intros Hnone. rewrite (Hnone r Hin) in Hl. discriminate.
    + tauto.
  - intros r Hr. rewrite Hr in Hq. destruct Hq as (Hin & Hl & Hall).
    repeat split; auto.
    intros d Hd r' Hr' Hl'. specialize (Hall r' Hr' Hl').
    destruct (date_of r') as [d'|] eqn:Hd'.
    + exists d'. split; [reflexivity|].
      now apply (not_before_dates r' r d' d Hd' Hd).
    + unfold sorts_before in Hall. rewrite Hd', Hd in Hall. discriminate.
Qed.

(** *** The locations above the threshold *)

Lemma distinct_spec vs :
  List.NoDup (distinct vs) /\ forall v, In v (distinct vs) <-> In v vs.
Proof.
  induction vs as [|a vs [Hnd Hin]]; simpl.
  - split; [constructor|tauto].
  - split.
    + constructor.
      * intros Ha. apply filter_In in Ha as [_ Ha].
        rewrite bool_decide_eq_true_2 in Ha by reflexivity. discriminate.
      * now apply List.NoDup_filter.
    + intros v. rewrite filter_In, Hin. split.
      * intros [<-|[Hv _]]; auto.
      * intros [<-|Hv]; [auto|].
        destruct (decide (v = a)) as [->|Hne]; [auto|].
        right. split; [exact Hv|].
        now rewrite bool_decide_eq_false_2.
Qed.

Lemma latest_spec rows :
  match latest rows with
  | None => forall r, In r rows -> date_of r = None
  | Some m =>
      (exists r, In r rows /\ date_of r = Some m) /\
      forall r d, In r rows -> date_of r = Some d -> dt_leb d m = true
  end.
Proof.
  unfold latest. pose proof (sql_max_spec (omap date_of rows)) as Hm.
  destruct (sql_max _) as [m|].
  - destruct Hm as [Hin Hall]. split; [now apply In_omap|].
    intros r d Hr Hd. apply Hall, In_omap. eauto.
  - intros r Hr. destruct (date_of r) as [d|] eqn:Hd; [|reflexivity].
    assert (Hin : In d (omap date_of rows)) by (apply In_omap; eauto).
    rewrite Hm in Hin. destruct Hin.
Qed.

(** X24. The locations that [lambda_get_above_avg_locations] lists are
    exactly the locations of the rows that carry the latest report date
    of the whole table and have a reading above 100, each once: a
    location whose latest report is older than the table's latest is not
    listed whatever its readings, a reading of exactly 100 or a missing
    reading does not count, and the answer is 404 exactly when no row
    qualifies. *)
Theorem X24_above_listing (rows : list Row) :
  List.NoDup (above_query rows) /\
  (forall v, In v (above_query rows) <->
     exists r d,
       In r rows /\ Collect.location r = v /\ date_of r = Some d /\
       (forall r' d', In r' rows -> date_of r' = Some d' ->
                      dt_leb d' d = true) /\
       exists n, (100 < n)%Z /\
         (air_quality_pm10 r = VInt n \/ air_quality_pm25 r = VInt n \/
          air_quality_ozone r = VInt n)) /\
  (lambda_get_above_avg_locations (Ok rows) = Above_404 <->
   above_query rows = []).
Proof.
  assert (Habove : forall v, above_100 v = true <->
                     exists n, (100 < n)%Z /\ v = VInt n).
  { intros v. unfold above_100, as_int. destruct v; split;
      try discriminate; try (intros (n & _ & [=])).
    - intros Hn. apply Z.ltb_lt in Hn. eauto.
    - intros (n' & Hn & [= ->]). now apply Z.ltb_lt. }
  assert (Hex : forall r, exceeds r = true <->
                  exists n, (100 < n)%Z /\
                    (air_quality_pm10 r = VInt n \/
                     air_quality_pm25 r = VInt n \/
                     air_quality_ozone r = VInt n)).
  { intros r. unfold exceeds. rewrite !orb_true_iff, !Habove. split.
    - intros [[(n & Hn & Hv)|(n & Hn & Hv)]|(n & Hn & Hv)]; eauto 6.
    - intros (n & Hn & [Hv|[Hv|Hv]]); eauto 6. }
  unfold above_query.
  destruct (distinct_spec
              (map Collect.location
                 (List.filter (fun r => date_is (latest rows) r && exceeds r)
                              rows))) as [Hnd Hin].
  split; [exact Hnd|]. split.
  - intros v. rewrite Hin, in_map_iff.
    pose proof (latest_spec rows) as Hlat. split.
    + intros (r & Hv & Hr). apply filter_In in Hr as [Hr Hc].
      apply andb_true_iff in Hc as [Hd He].
      destruct (latest rows) as [m|]; [|discriminate].
      destruct Hlat as [_ Hall].
      unfold date_is in Hd. destruct (date_of r) as [d|] eqn:Hdr;
        [|discriminate].
      apply bool_decide_eq_true in Hd. subst d.
      exists r, m. repeat split; auto. now apply Hex.
    + intros (r & d & Hr & Hv & Hd & Hmax & He).
      exists r. split; [exact Hv|]. apply filter_In. split; [exact Hr|].
      apply andb_true_iff. split; [|now apply Hex].
      destruct (latest rows) as [m|].
      * destruct Hlat as [(rm & Hrm & Hdm) Hall].
        assert (d = m).
        { apply dt_leb_antisym;
            [exact (Hall r d Hr Hd) | exact (Hmax rm m Hrm Hdm)]. }
        subst m. unfold date_is. rewrite Hd.
        now apply bool_decide_eq_true.
      * rewrite (Hlat r Hr) in Hd. discriminate.
  - unfold lambda_get_above_avg_locations, above_query.
    destruct (distinct _) as [|v vs]; [tauto|].
    split; [|discriminate].
    destruct (mapM dumps (v :: vs)); discriminate.
Qed.

End QueryFacts.

(** ** The collector and the endpoints together *)

Module WholeFacts.
Import Collect CollectMore Deliver Setup Query.
Import StoreFacts RunFacts FetchMore StoreMore RunMore QueryFacts.

Section WithExternals.
Context `{Externals} `{Floats}.

(** A row built from an extracted entry. *)
Lemma extracted_typed entry d r :
  process_entry entry = Ok d -> insert_params d = Ok r -> typed r.
Proof.
  intros Hd Hr.
  apply process_entry_shape in Hd
    as (t & l & loc & rd & a & b & c & ag & lu & ->).
  rewrite entry_data_params in Hr. injection Hr as <-.
  split; [|split]; simpl.
  - right. eauto.
  - destruct rd; simpl; eauto.
  - intros col [<-|[<-|[<-|[]]]]; simpl;
      match goal with
      | |- of_int ?x = _ \/ _ => destruct x; simpl; eauto
      end.
Qed.

Lemma fetched_extracted url data d :
  fetch_rss_feed url = Ok data -> In d data ->
  exists entry, process_entry entry = Ok d.
Proof.
  unfold fetch_rss_feed, mbind, result_bind, rbind.
  destruct (feedparser_parse url) as [entries|]; [|discriminate].
  intros Hd. apply process_entries_each in Hd.
  induction Hd as [|entry d' entries data Hp _ IH]; intros [].
  - subst. eauto.
  - auto.
Qed.

(** A property of the table that every insert of a row of the batch
    keeps is kept by the batch. *)
Lemma save_to_db_inv (P : list Row -> Prop) data :
  (forall d r rows, In d data -> insert_params d = Ok r ->
                    P rows -> P (insert_do_nothing r rows)) ->
  forall w res w',
    txn w = table w -> P (table w) ->
    save_to_db data w = (res, w') ->
    P (table w') /\ (res = Ok () -> txn w' = table w').
Proof.
  induction data as [|entry data IH]; intros Hstep w res w' Hidle HP; simpl.
  - unfold m_ret. intros [= <- <-]. auto.
  - unfold m_bind at 1.
    destruct (save_entry entry w) as [[[]|e] w1] eqn:E;
      destruct (save_entry_table _ _ _ _ Hidle E) as [Ht Hi];
      assert (HP1 : P (table w1))
        by (destruct Ht as [-> |(r & Hr & ->)];
            [exact HP | apply (Hstep entry r); simpl; auto]).
    + apply IH; auto. intros d r rows Hd. apply Hstep. now right.
    + intros [= <- <-]. split; [exact HP1|discriminate].
Qed.

Lemma process_urls_inv (P : list Row -> Prop) :
  (forall entry d r rows,
      process_entry entry = Ok d -> insert_params d = Ok r ->
      P rows -> P (insert_do_nothing r rows)) ->
  forall urls w res w',
    txn w = table w -> P (table w) ->
    process_urls urls w = (res, w') ->
    P (table w') /\ (res = Ok () -> txn w' = table w').
Proof.
  intros Hstep. induction urls as [|url urls IH];
    intros w res w' Hidle HP; simpl.
  - unfold m_ret. intros [= <- <-]. auto.
  - unfold m_bind at 1.
    destruct (process_url url w) as [res1 w1] eqn:E.
    assert (H1 : P (table w1) /\ (res1 = Ok () -> txn w1 = table w1)).
    { revert E. unfold process_url, m_bind, logger, lift.
      destruct (fetch_rss_feed url) as [data|e] eqn:Hfetch.
      - apply (save_to_db_inv P data); auto.
        intros d r rows Hd Hr.
        destruct (fetched_extracted url data d Hfetch Hd) as [entry He].
        now apply (Hstep entry d).
      - intros [= <- <-]. split; [exact HP|discriminate]. }
    destruct H1 as [HP1 Hi1]. destruct res1 as [[]|e].
    + apply IH; auto.
    + intros [= <- <-]. split; [exact HP1|discriminate].
Qed.

Lemma handler_table urls w :
  table (snd (lambda_handler urls w))
  = table (snd (process_urls urls w)).
Proof.
  unfold lambda_handler, try_except. unfold m_bind at 1.
  destruct (process_urls urls w) as [[[]|e] w1]; simpl.
  - unfold m_bind, conn_close, db_call, m_ret.
    destruct (faults w1) as [|[] fs]; reflexivity.
  - reflexivity.
Qed.

Lemma typed_insert r rows :
  typed r -> Forall typed rows -> Forall typed (insert_do_nothing r rows).
Proof.
  intros Hr Hrows. unfold insert_do_nothing.
  destruct (existsb _ _); [exact Hrows|].
  apply Forall_app. split; [exact Hrows|]. now constructor.
Qed.

(** X25. What the collector stores, the endpoints can read: a run of
    [lambda_handler], whatever the feeds hold and whichever calls of the
    driver fail, leaves a table on which the unique index holds and whose
    columns have the values of their types, when it found one; on such a
    table the trend endpoint answers every request with a valid
    timeframe with 200, and the current reading is never answered
    500. *)
Theorem X25_collector_keeps_the_table_readable (urls : list string)
        (w w' : World) (st : Z) :
  txn w = table w ->
  index_holds (table w) ->
  Forall typed (table w) ->
  lambda_handler urls w = (st, w') ->
  index_holds (table w') /\
  Forall typed (table w') /\
  (forall days_ago location timeframe,
      timeframe = "week" \/ timeframe = "month" ->
      exists body,
        trend_endpoint days_ago (Ok (table w')) location timeframe
        = Status_200 body) /\
  (forall location,
      lambda_get_current_air_quality (Ok (table w')) location
      <> Current_500).
Proof.
  intros Hidle Hix Htyped Hrun.
  assert (Ht : table w' = table (snd (process_urls urls w)))
    by (rewrite <- handler_table, Hrun; reflexivity).
  destruct (process_urls urls w) as [res w1] eqn:E. simpl in Ht.
  assert (Hix' : index_holds (table w')).
  { rewrite Ht.
    apply (process_urls_inv index_holds
             (fun _ _ r rows _ _ => insert_preserves_index r rows)
             urls w res w1 Hidle Hix E). }
  assert (Htyped' : Forall typed (table w')).
  { rewrite Ht.
    apply (process_urls_inv (Forall typed)
             (fun entry d r rows Hd Hr =>
                typed_insert r rows (extracted_typed entry d r Hd Hr))
             urls w res w1 Hidle Htyped E). }
  split; [exact Hix'|]. split; [exact Htyped'|]. split.
  - intros days_ago location timeframe Htf.
    now apply trend_endpoint_ok.
  - intros location. unfold lambda_get_current_air_quality.
    pose proof (current_query_spec location (table w')) as Hq.
    destruct (current_query location (table w')) as [r|]; [|discriminate].
    destruct Hq as (Hin & _).
    rewrite List.Forall_forall in Htyped'.
    destruct (typed_has_body location r (Htyped' r Hin)) as [body ->].
    discriminate.
Qed.

(** X26. The set-up of a run: [get_db_connection] returns exactly when
    the parameter store answers with all five names DB_NAME, DB_USER,
    DB_PASSWORD, DB_HOST and DB_PORT and the connection is made with
    their values; a missing name is a [KeyError].  When reading the URL
    list or opening the connection fails, the run answers 500 with one
    "Error occurred" and nothing else happens: no feed is fetched, no
    call of the driver is made, the table is as before.  Otherwise the
    run is the loop over the URLs. *)
Theorem X26_setup (csv : result (list string))
        (ssm : result (list (string * string)))
        (connect : string -> string -> string -> string -> string ->
                   result unit)
        (w : World) :
  ((get_db_connection ssm connect = Ok ()) <->
   exists parameters dbname user password host port,
     ssm = Ok parameters /\
     params_of parameters !! "DB_NAME" = Some dbname /\
     params_of parameters !! "DB_USER" = Some user /\
     params_of parameters !! "DB_PASSWORD" = Some password /\
     params_of parameters !! "DB_HOST" = Some host /\
     params_of parameters !! "DB_PORT" = Some port /\
     connect dbname user password host port = Ok ()) /\
  (forall parameters name,
      ssm = Ok parameters ->
      In name ["DB_NAME"; "DB_USER"; "DB_PASSWORD"; "DB_HOST"; "DB_PORT"] ->
      params_of parameters !! name = None ->
      get_db_connection ssm connect = Raise KeyError) /\
  (forall e, csv = Raise e ->
      lambda_handler_from_start csv ssm connect w
      = (500%Z, add_log (Error_occurred e) w)) /\
  (forall urls e, csv = Ok urls ->
      get_db_connection ssm connect = Raise e ->
      lambda_handler_from_start csv ssm connect w
      = (500%Z, add_log (Error_occurred e) w)) /\
  (forall urls, csv = Ok urls ->
      get_db_connection ssm connect = Ok () ->
      lambda_handler_from_start csv ssm connect w = lambda_handler urls w).
Proof.
  split; [|split; [|split; [|split]]].
  - unfold get_db_connection, or_raise, mbind, result_bind, rbind. split.
    + destruct ssm as [parameters|]; [|discriminate]. cbv zeta.
      destruct (params_of parameters !! "DB_NAME") as [n|] eqn:En;
        [|discriminate].
      destruct (params_of parameters !! "DB_USER") as [u|] eqn:Eu;
        [|discriminate].
      destruct (params_of parameters !! "DB_PASSWORD") as [p|] eqn:Ep;
        [|discriminate].
      destruct (params_of parameters !! "DB_HOST") as [h|] eqn:Eh;
        [|discriminate].
      destruct (params_of parameters !! "DB_PORT") as [o|] eqn:Eo;
        [|discriminate].
      intros Hc. exists parameters, n, u, p, h, o.
      repeat split; assumption.
    + intros (parameters & n & u & p & h & o & -> & Hn & Hu & Hp & Hh & Ho
              & Hc).
      cbv zeta. now rewrite Hn, Hu, Hp, Hh, Ho.
  - intros parameters name -> Hname Hnone.
    unfold get_db_connection, or_raise, mbind, result_bind, rbind.
    cbv zeta. simpl in Hname.
    destruct (params_of parameters !! "DB_NAME") as [n|] eqn:En;
      [|reflexivity].
    destruct (params_of parameters !! "DB_USER") as [u|] eqn:Eu;
      [|reflexivity].
    destruct (params_of parameters !! "DB_PASSWORD") as [p|] eqn:Ep;
      [|reflexivity].
    destruct (params_of parameters !! "DB_HOST") as [h|] eqn:Eh;
      [|reflexivity].
    destruct (params_of parameters !! "DB_PORT") as [o|] eqn:Eo;
      [|reflexivity].
    destruct Hname as [<-|[<-|[<-|[<-|[<-|[]]]]]]; congruence.
  - intros e ->. reflexivity.
  - intros urls e -> He. unfold lambda_handler_from_start, try_except.
    unfold m_bind at 1. unfold lift at 1. unfold m_bind at 1.
    unfold lift at 1. rewrite He. reflexivity.
  - intros urls -> Hc. unfold lambda_handler_from_start, lambda_handler,
      try_except.
    unfold m_bind at 1. unfold lift at 1. unfold m_bind at 1.
    unfold lift at 1. rewrite Hc. reflexivity.
Qed.

End WithExternals.
End WholeFacts.

(** ** Runs of the further properties *)

Module MoreRuns.
Import Re Collect CollectMore Sample.
Import FetchMore StoreMore RunMore HandlerMore TrendMore.

(** X1 at the Tacoma entry, whose date text is "pending", and at a
    summary whose AQI has 4301 digits. *)
Lemma X1_witness :
  (exists e, @process_entry externals (entry_of tacoma_html) = Raise e) /\
  (exists detail,
     e_summary_detail (entry_of tacoma_html) = Some detail /\
     search unavailable_re (default EmptyString (sd_value detail)) = None /\
     (@rejected_date externals date_re report_date_format
                     (default EmptyString (sd_value detail)) \/
      @rejected_date externals last_update_re last_update_format
                     (default EmptyString (sd_value detail)) \/
      too_long_aqi (default EmptyString (sd_value detail)))) /\
  too_long_aqi long_html /\
  @process_entry externals (entry_of long_html) = Raise ValueError.
Proof.
  assert (Hraise : exists e,
             @process_entry externals (entry_of tacoma_html) = Raise e)
    by (exists ValueError; vm_compute; reflexivity).
  split; [exact Hraise|].
  destruct (@X1_extraction_raises_exactly_on_bad_texts externals
              (entry_of tacoma_html)) as [Hiff _].
  split; [apply Hiff, Hraise|].
  assert (Hlong : too_long_aqi long_html).
  { unfold too_long_aqi.
    assert (Hf : findall air_quality_re long_html
                 = [["Good"; long_aqi; "Ozone"]])
      by (vm_compute; reflexivity).
    rewrite Hf. apply List.Exists_cons_hd. unfold within_limit.
    vm_compute. intros Hle. now apply Hle. }
  split; [exact Hlong|].
  destruct (@X1_extraction_raises_exactly_on_bad_texts externals
              (entry_of long_html)) as [Hiff' Hvalue].
  assert (Hex : exists e,
             @process_entry externals (entry_of long_html) = Raise e).
  { apply Hiff'. exists {| sd_value := Some long_html |}.
    split; [reflexivity|]. split; [vm_compute; reflexivity|].
    right. right. exact Hlong. }
  destruct Hex as [e He]. rewrite He. f_equal. now apply Hvalue.
Defined.

(** X2 at the Seattle feed, which has one entry. *)
Lemma X2_witness :
  exists data,
    @fetch_rss_feed externals seattle_url = Ok data /\
    length data = 1 /\
    Forall (fun d : dict => dom d = entry_keys) data.
Proof.
  assert (Hr : returns (@fetch_rss_feed externals seattle_url) = true)
    by (vm_compute; reflexivity).
  destruct (@fetch_rss_feed externals seattle_url) as [data|e] eqn:E;
    [|discriminate].
  destruct (@X2_one_dict_per_entry externals seattle_url data E)
    as (entries & Hp & Hlen & _ & Hdom).
  exists data. split; [reflexivity|]. split; [|exact Hdom].
  rewrite Hlen. vm_compute in Hp. injection Hp as <-. reflexivity.
Defined.

(** X3 at the Seattle entry. *)
Lemma X3_witness :
  exists d loc ag,
    @process_entry externals (entry_of seattle_html) = Ok d /\
    d !! "location" = Some (VStr loc) /\
    d !! "agency" = Some (VStr ag) /\
    trimmed loc /\ trimmed ag.
Proof.
  assert (Hr : returns (@process_entry externals (entry_of seattle_html))
               = true) by (vm_compute; reflexivity).
  destruct (@process_entry externals (entry_of seattle_html))
    as [d|e] eqn:E; [|discriminate].
  destruct (@X3_labelled_fields_are_trimmed externals
              (entry_of seattle_html) {| sd_value := Some seattle_html |} d
              eq_refl ltac:(vm_compute; reflexivity) E)
    as (loc & ag & Hl & Ha & Htl & Hta & _).
  exists d, loc, ag. auto.
Defined.

(** X4 at "Moderate - 45 AQI - Ozone<br />Good - 30 AQI - Ozone". *)
Lemma X4_witness :
  exists d n,
    @process_entry externals (entry_of ozone_html) = Ok d /\
    d !! "air_quality_ozone" = Some (VInt n) /\
    (0 <= n)%Z.
Proof.
  exists (entry_data "Air Quality" "https://example.org/aq" "No location"
                     None None None (Some 30%Z) "No agency" None), 30%Z.
  assert (E : @process_entry externals (entry_of ozone_html)
              = Ok (entry_data "Air Quality" "https://example.org/aq"
                               "No location" None None None (Some 30%Z)
                               "No agency" None))
    by (lazy -[entry_data]; reflexivity).
  split; [exact E|]. split; [reflexivity|].
  apply (@X4_readings_are_not_negative externals (entry_of ozone_html) _
           "air_quality_ozone" 30%Z E); [simpl; tauto | reflexivity].
Defined.

(** X5 at a record of Olympia. *)
Lemma X5_witness :
  entry_keys ⊆ dom olympia /\
  (exists loc, olympia !! "location" = Some (VStr loc)) /\
  exists r, insert_params olympia = Ok r.
Proof.
  assert (Hdom : entry_keys ⊆ dom olympia)
    by (unfold olympia, candidate; now rewrite entry_data_dom).
  assert (Hloc : exists loc, olympia !! "location" = Some (VStr loc))
    by (exists "Olympia, WA"; reflexivity).
  split; [exact Hdom|]. split; [exact Hloc|].
  destruct (X5_insert_params_exactly olympia) as [Hiff _].
  apply Hiff. split; assumption.
Defined.

(** X6 at "Olympia, WA": the stored location is "Olympia". *)
Lemma X6_witness :
  exists r,
    insert_params olympia = Ok r /\
    location r = VStr "Olympia" /\
    exists key,
      location r = VStr key /\
      Py.all_chars not_comma key = true /\ trimmed key.
Proof.
  unfold olympia, candidate.
  eexists. split; [apply entry_data_params|]. split; [reflexivity|].
  destruct (X6_stored_location_is_clean _ _
              (entry_data_params "Air Quality" "https://example.org/aq"
                 "Olympia, WA" (Some (Datetime 2024 7 4 9 0 0)) None None
                 (Some 30%Z) "No agency" None))
    as (loc & key & _ & Hk & _ & Hc & Ht & _).
  exists key. split; [exact Hk|]. split; [exact Hc|exact Ht].
Defined.

(** X7 at a dict without location. *)
Lemma X7_witness :
  insert_params (delete "location" olympia) = Raise KeyError /\
  @save_entry externals (delete "location" olympia) world0
  = (Ok (),
     {| table := []; txn := [];
        log := [Error_failed_to_insert (delete "location" olympia)
                                       KeyError];
        faults := [] |}).
Proof.
  assert (Hp : insert_params (delete "location" olympia) = Raise KeyError)
    by reflexivity.
  split; [exact Hp|].
  apply (@X7_malformed_entry_is_skipped externals
           (delete "location" olympia) KeyError world0 Hp eq_refl eq_refl).
Defined.

(** X8 at a batch of three records when [execute] raises for the
    second. *)
Lemma X8_witness :
  @index_holds externals
    (table (snd (@save_to_db externals [olympia; yakima; everett]
                   world_third_call_fails))).
Proof.
  apply (@X8_index_is_kept externals [olympia; yakima; everett]
           world_third_call_fails
           (snd (@save_to_db externals [olympia; yakima; everett]
                   world_third_call_fails))
           (fst (@save_to_db externals [olympia; yakima; everett]
                   world_third_call_fails))).
  - reflexivity.
  - exact I.
  - now destruct (@save_to_db externals [olympia; yakima; everett]
                    world_third_call_fails).
Defined.

(** X9 at the Seattle feed and an empty table. *)
Lemma X9_witness :
  exists data w',
    @fetch_rss_feed externals seattle_url = Ok data /\
    @save_to_db externals data world0 = (Ok (), w') /\
    log w' = [].
Proof.
  assert (Hr : returns (@fetch_rss_feed externals seattle_url) = true)
    by (vm_compute; reflexivity).
  destruct (@fetch_rss_feed externals seattle_url) as [data|e] eqn:E;
    [|discriminate].
  destruct (@X9_fetched_feed_is_stored externals seattle_url data world0
              E eq_refl eq_refl) as (w' & Hs & Hl & _).
  exists data, w'. auto.
Defined.

(** X10 at a batch of two records with report dates. *)
Lemma X10_witness :
  exists w1 w2,
    @save_to_db externals [olympia; yakima] world0 = (Ok (), w1) /\
    @save_to_db externals [olympia; yakima] w1 = (Ok (), w2) /\
    table w2 = table w1.
Proof.
  apply (@X10_second_save_changes_nothing externals [olympia; yakima]
           world0 eq_refl eq_refl).
  right. repeat constructor; discriminate.
Defined.

(** X11 at the summary "Current Air Quality unavailable for
    Springfield<br" and a table that already holds the notice. *)
Lemma X11_witness :
  let w := {| table := [row "Springfield" VNone 0];
              txn := [row "Springfield" VNone 0];
              log := []; faults := [] |} in
  exists d r w',
    @process_entry externals (entry_of unavailable_html) = Ok d /\
    @save_to_db externals [d] w = (Ok (), w') /\
    table w' = [row "Springfield" VNone 0; r] /\
    location r = VStr "Springfield" /\
    report_date r = VNone.
Proof.
  intros w.
  destruct (@X11_unavailable_notice_accumulates externals
              (entry_of unavailable_html)
              {| sd_value := Some unavailable_html |}
              (the_match unavailable_re unavailable_html) w
              eq_refl eq_refl ltac:(vm_compute; reflexivity)
              eq_refl eq_refl)
    as (d & r & w' & Hd & Hs & Ht & Hl & Hr).
  exists d, r, w'. auto.
Defined.

(** X12 on a connection that is lost at the first [execute]. *)
Lemma X12_witness :
  let w := {| table := []; txn := []; log := [];
              faults := [true; true] |} in
  fst (@save_to_db externals [olympia; yakima] w) = Raise DatabaseError /\
  exists before entry after w1 e',
    [olympia; yakima] = (before ++ entry :: after)%list /\
    table (snd (@save_to_db externals [olympia; yakima] w)) = table w1 /\
    log (snd (@save_to_db externals [olympia; yakima] w))
    = (log w1 ++ [Error_failed_to_insert entry e'])%list.
Proof.
  intros w.
  assert (E : @save_to_db externals [olympia; yakima] w
              = (Raise DatabaseError,
                 snd (@save_to_db externals [olympia; yakima] w)))
    by reflexivity.
  split; [reflexivity|].
  destruct (@X12_only_a_failed_rollback_leaves_the_batch externals
              [olympia; yakima] w _ DatabaseError E)
    as (_ & before & entry & after & w1 & e' & Hdata & _ & Ht & Hl).
  exists before, entry, after, w1, e'. auto.
Defined.

(** X13 at a run over Seattle, then Tacoma. *)
Lemma X13_witness :
  exists st w',
    @lambda_handler externals [seattle_url; tacoma_url] world0 = (st, w') /\
    (exists added, table w' = added) /\
    (st = 200%Z \/ st = 500%Z).
Proof.
  destruct (@lambda_handler externals [seattle_url; tacoma_url] world0)
    as [st w'] eqn:E.
  destruct (@X13_handler_outcome externals [seattle_url; tacoma_url]
              world0 w' st eq_refl E)
    as ((added & Ha) & new & _ & [[Hst _]|[Hst _]]);
    exists st, w'; eauto.
Defined.

(** X14 at a run over the Seattle feed. *)
Lemma X14_witness :
  exists st w',
    @lambda_handler externals [seattle_url] world0 = (st, w') /\
    (st = 200%Z <-> Forall (@readable externals) [seattle_url]).
Proof.
  destruct (@lambda_handler externals [seattle_url] world0)
    as [st w'] eqn:E.
  destruct (@X14_healthy_run externals [seattle_url] world0 w' st
              eq_refl eq_refl E) as [Hiff _].
  exists st, w'. auto.
Defined.

(** X15 at the timeframe "year". *)
Lemma X15_witness :
  @Deliver.lambda_get_air_quality_trend ExactFloats.exact "Seattle" "year"
    (Some rising_row) = Deliver.Status_400.
Proof.
  destruct (@X15_trend_answer ExactFloats.exact "Seattle" "year"
              (Some rising_row)) as [Hiff _].
  apply Hiff. split; discriminate.
Defined.

(** X16 in exact arithmetic: PM2.5 unchanged and PM10 falling give
    "mixed". *)
Lemma X16_witness :
  @Deliver.trend_direction ExactFloats.exact
    (@Deliver.trend_data ExactFloats.exact "Seattle" "week"
       (Some (0 # 100)) (Some (- 2500 # 100)) None) = "mixed".
Proof.
  destruct (@X16_direction_exactly ExactFloats.exact "Seattle" "week"
              (Some (0 # 100)) (Some (- 2500 # 100)) None)
    as (_ & _ & Hmixed).
  apply Hmixed. split; exists (0 # 100); split; simpl; auto.
Defined.

(** X17 in exact arithmetic: ozone from 40 to 0. *)
Lemma X17_witness :
  @Deliver.calculate_change ExactFloats.exact (Some 40%Z) (Some 0%Z)
  = Ok None.
Proof.
  destruct (@X17_fall_to_zero_is_no_change ExactFloats.exact (Some 40%Z))
    as [Hz _].
  exact Hz.
Defined.

End MoreRuns.

(** ** Runs of the queries *)

Module QueryRuns.
Import Collect CollectMore Deliver Setup Query Sample QuerySample.
Import QueryFacts WholeFacts.

Lemma seattle_rows_indexed : @index_holds externals seattle_rows.
Proof.
  split; [|split; [|exact I]]; intros r' [].
  - subst. reflexivity.
  - contradiction.
Qed.

Lemma row_typed loc date n :
  date = VNone \/ (exists d, date = VDatetime d) -> typed (row loc date n).
Proof.
  intros Hd. split; [right; eauto|]. split; [exact Hd|].
  intros col [<-|[<-|[<-|[]]]]; simpl; eauto.
Qed.

(** X18 at the two reports of Seattle. *)
Lemma X18_witness :
  @index_holds externals seattle_rows /\
  exists body,
    @trend_endpoint ExactFloats.exact days_ago (Ok seattle_rows)
                    "Seattle" "week"
    = Status_200 body.
Proof.
  split; [exact seattle_rows_indexed|].
  destruct (@X18_trend_never_404 externals ExactFloats.exact days_ago
              seattle_rows "Seattle" "week") as (_ & _ & Hok).
  apply Hok; [exact seattle_rows_indexed | left; reflexivity].
Defined.

(** X19 at a request for Tacoma on a table without Tacoma. *)
Lemma X19_witness :
  @trend_endpoint ExactFloats.exact days_ago (Ok seattle_rows)
                  "Tacoma" "month"
  = Status_200
      [("location", TStr "Tacoma"); ("timeframe", TStr "month");
       ("pm25_change", TNone); ("pm10_change", TNone);
       ("ozone_change", TNone); ("trend_direction", TStr "improving")].
Proof.
  apply (@X19_no_data_is_improving ExactFloats.exact days_ago
           seattle_rows "Tacoma" "month").
  - right. reflexivity.
  - intros r [<-|[<-|[]]]; reflexivity.
Defined.

(** X20 at the two reports of Seattle: ozone from 30 to 45. *)
Lemma X20_witness :
  exists r1 r2,
    trend_query "Seattle" (days_ago 7) seattle_rows
    = Ok [ {| start_pm25 := as_int (air_quality_pm25 r1);
              end_pm25 := as_int (air_quality_pm25 r2);
              start_pm10 := as_int (air_quality_pm10 r1);
              end_pm10 := as_int (air_quality_pm10 r2);
              start_ozone := as_int (air_quality_ozone r1);
              end_ozone := as_int (air_quality_ozone r2) |} ].
Proof.
  destruct (@X20_trend_compares_first_and_last externals "Seattle"
              (days_ago 7) seattle_rows (row "Seattle" noon 45)
              seattle_rows_indexed
              ltac:(simpl; tauto) eq_refl)
    as (r1 & r2 & d1 & d2 & _ & _ & _ & _ & _ & _ & _ & Hq).
  exists r1, r2. exact Hq.
Defined.

(** X21 at a request without query string. *)
Lemma X21_witness :
  queryStringParameters bare_request = Null /\
  exists e,
    @trend_handler ExactFloats.exact days_ago (Ok seattle_rows)
                   bare_request = inl e.
Proof.
  split; [reflexivity|].
  destruct (@X21_trend_event ExactFloats.exact days_ago (Ok seattle_rows)
              bare_request) as (_ & Hnull & _).
  apply Hnull. reflexivity.
Defined.

(** X22 at Springfield: a report of noon, then a notice. *)
Lemma X22_witness :
  exists v1 v2 v3,
    lambda_get_current_air_quality (Ok springfield_rows) "Springfield"
    = Current_200
        [("location", JString "Springfield"); ("timestamp", JNull);
         ("pm25", v1); ("pm10", v2); ("ozone", v3)].
Proof.
  apply (X22_row_without_date_hides_readings springfield_rows
           "Springfield" (row "Springfield" VNone 0)).
  - constructor; [|constructor; [|constructor]]; apply row_typed;
      [right; unfold noon; eauto | auto].
  - simpl. tauto.
  - reflexivity.
  - reflexivity.
Defined.

(** X23 at the two reports of Seattle, where the report of noon is
    read, and at a location the table does not have. *)
Lemma X23_witness :
  current_query "Seattle" seattle_rows = Some (row "Seattle" noon 45) /\
  (forall r', In r' seattle_rows -> location_is "Seattle" r' = true ->
     exists d', date_of r' = Some d' /\
                dt_leb d' (Datetime 2024 7 4 12 0 0) = true) /\
  lambda_get_current_air_quality (Ok seattle_rows) "Seattle"
  = Current_200
      [("location", JString "Seattle");
       ("timestamp", JIsoformat (Datetime 2024 7 4 12 0 0));
       ("pm25", JNull); ("pm10", JNull); ("ozone", JInt 45)] /\
  lambda_get_current_air_quality (Ok seattle_rows) "Tacoma" = Current_404.
Proof.
  assert (Hq : current_query "Seattle" seattle_rows
               = Some (row "Seattle" noon 45)) by reflexivity.
  split; [exact Hq|].
  destruct (X23_current_is_latest seattle_rows "Seattle") as [_ Hlatest].
  destruct (Hlatest (row "Seattle" noon 45) Hq) as (_ & _ & Hall).
  split; [exact (Hall (Datetime 2024 7 4 12 0 0) eq_refl)|].
  split; [reflexivity|].
  destruct (X23_current_is_latest seattle_rows "Tacoma") as [Hiff _].
  apply Hiff. intros r [<-|[<-|[]]]; reflexivity.
Defined.

(** X24 at a table with one reading of 145. *)
Lemma X24_witness : In (VStr "Wenatchee") (above_query smoky_rows).
Proof.
  destruct (X24_above_listing smoky_rows) as (_ & Hiff & _).
  apply Hiff.
  exists (row "Wenatchee" noon 145), (Datetime 2024 7 4 12 0 0).
  split; [simpl; tauto|]. split; [reflexivity|]. split; [reflexivity|].
  split.
  - intros r' d' [<-|[]] [= <-]. reflexivity.
  - exists 145%Z. split; [lia|]. right. right. reflexivity.
Defined.

(** X25 at a run over Seattle, then Tacoma, from an empty table. *)
Lemma X25_witness :
  @index_holds externals
    (table (snd (@lambda_handler externals [seattle_url; tacoma_url]
                   world0))) /\
  Forall typed
    (table (snd (@lambda_handler externals [seattle_url; tacoma_url]
                   world0))).
Proof.
  destruct (@lambda_handler externals [seattle_url; tacoma_url] world0)
    as [st w'] eqn:E.
  destruct (@X25_collector_keeps_the_table_readable externals
              ExactFloats.exact [seattle_url; tacoma_url] world0 w' st
              eq_refl I (List.Forall_nil typed) E) as (Hix & Htyped & _).
  split; assumption.
Defined.

(** X26 at a parameter store that answers without DB_PORT. *)
Lemma X26_witness :
  get_db_connection (Ok four_parameters) connect = Raise KeyError.
Proof.
  destruct (@X26_setup externals (Ok [seattle_url]) (Ok four_parameters)
              connect world0) as (_ & Hmissing & _).
  apply (Hmissing four_parameters "DB_PORT" eq_refl).
  - simpl. tauto.
  - reflexivity.
Defined.

End QueryRuns.
